(** * TectonJobOperator: a shallow embedding of
      [airflow_tecton/operators/tecton_job_operator.py]

    The operator looks up an existing materialization job, decides whether to
    skip, cancel-and-replace or submit, and then polls the submitted job to a
    terminal state.  The remote control plane ([TectonHook]), the dataframe
    producer, the upload transport and the clock are collaborators: they are
    modelled as an environment of state transformers over an arbitrary world,
    and every interaction with them is recorded, with its answer, in a trace. *)

From Stdlib Require Import String Ascii List ZArith NArith Lia Bool Arith.
Import ListNotations.
Open Scope string_scope.

(** ** Python string operations used on job-state names

    A Python [str] is held as the bytes of its UTF-8 encoding; the words the
    code tests for are ASCII, and a [str] ends with an ASCII word exactly when
    its bytes do.

    [str.lower] and [str.upper] map the ASCII letters as [lower_char] and
    [upper_char] do.  Beyond ASCII only what bears on a test for an ASCII
    ending is kept.  Seventeen characters have an upper case that contains an
    ASCII letter (sharp s gives SS, dotless i gives I, long s gives S, the
    ligatures give FF, FI, ...): [upper] maps them as Python does.  Two
    characters have a lower case that contains an ASCII letter (capital I
    with dot gives i followed by a combining dot, the Kelvin sign gives k);
    neither result can begin, continue or end one of the words "running",
    "success" and "manually_cancelled", so that [lower] leaves them as they
    are.  Every other character beyond ASCII stays beyond ASCII in either
    case and is copied. *)
Module PyStr.

Definition is_upper (c : ascii) : bool :=
  (65 <=? nat_of_ascii c)%nat && (nat_of_ascii c <=? 90)%nat.

Definition is_lower (c : ascii) : bool :=
  (97 <=? nat_of_ascii c)%nat && (nat_of_ascii c <=? 122)%nat.

Definition lower_char (c : ascii) : ascii :=
  if is_upper c then ascii_of_nat (nat_of_ascii c + 32) else c.

Definition upper_char (c : ascii) : ascii :=
  if is_lower c then ascii_of_nat (nat_of_ascii c - 32) else c.

(** [s.lower()] *)
Fixpoint lower (s : string) : string :=
  match s with
  | EmptyString => EmptyString
  | String c t => String (lower_char c) (lower t)
  end.

(** [s.upper()] on ASCII text: letter by letter. *)
Fixpoint upper_ascii (s : string) : string :=
  match s with
  | EmptyString => EmptyString
  | String c t => String (upper_char c) (upper_ascii t)
  end.

(** ASCII text: every byte is below 128. *)
Fixpoint is_ascii (s : string) : bool :=
  match s with
  | EmptyString => true
  | String c t => (N_of_ascii c <? 128)%N && is_ascii t
  end.

Definition bytes (l : list N) : string :=
  List.fold_right (fun n t => String (ascii_of_N n) t) EmptyString l.

(** The characters of two bytes whose upper case contains an ASCII letter,
    by their UTF-8 bytes, with the UTF-8 bytes of their upper case. *)
Definition upper_two : list (N * N * string) :=
  [ (195, 159, "SS")                        (* U+00DF sharp s *)
  ; (196, 177, "I")                         (* U+0131 dotless i *)
  ; (197, 137, bytes [202; 188; 78])        (* U+0149: U+02BC, N *)
  ; (197, 191, "S")                         (* U+017F long s *)
  ; (199, 176, bytes [74; 204; 140])        (* U+01F0: J, U+030C *)
  ]%N.

(** Likewise for the characters of three bytes. *)
Definition upper_three : list (N * N * N * string) :=
  [ (225, 186, 150, bytes [72; 204; 177])   (* U+1E96: H, U+0331 *)
  ; (225, 186, 151, bytes [84; 204; 136])   (* U+1E97: T, U+0308 *)
  ; (225, 186, 152, bytes [87; 204; 138])   (* U+1E98: W, U+030A *)
  ; (225, 186, 153, bytes [89; 204; 138])   (* U+1E99: Y, U+030A *)
  ; (225, 186, 154, bytes [65; 202; 190])   (* U+1E9A: A, U+02BE *)
  ; (239, 172, 128, "FF")                   (* U+FB00 *)
  ; (239, 172, 129, "FI")                   (* U+FB01 *)
  ; (239, 172, 130, "FL")                   (* U+FB02 *)
  ; (239, 172, 131, "FFI")                  (* U+FB03 *)
  ; (239, 172, 132, "FFL")                  (* U+FB04 *)
  ; (239, 172, 133, "ST")                   (* U+FB05 *)
  ; (239, 172, 134, "ST")                   (* U+FB06 *)
  ]%N.

Definition upper_of_two (c1 c2 : ascii) : option string :=
  match List.find (fun e => match e with
                            | (b1, b2, _) =>
                                (N_of_ascii c1 =? b1)%N
                                && (N_of_ascii c2 =? b2)%N
                            end) upper_two with
  | Some (_, _, u) => Some u
  | None => None
  end.

Definition upper_of_three (c1 c2 c3 : ascii) : option string :=
  match List.find (fun e => match e with
                            | (b1, b2, b3, _) =>
                                (N_of_ascii c1 =? b1)%N
                                && (N_of_ascii c2 =? b2)%N
                                && (N_of_ascii c3 =? b3)%N
                            end) upper_three with
  | Some (_, _, _, u) => Some u
  | None => None
  end.

(** [s.upper()] *)
Fixpoint upper (s : string) : string :=
  match s with
  | EmptyString => EmptyString
  | String c1 t1 =>
      match t1 with
      | EmptyString => String (upper_char c1) EmptyString
      | String c2 t2 =>
          match upper_of_two c1 c2 with
          | Some u => u ++ upper t2
          | None =>
              match t2 with
              | EmptyString => String (upper_char c1) (upper t1)
              | String c3 t3 =>
                  match upper_of_three c1 c2 c3 with
                  | Some u => u ++ upper t3
                  | None => String (upper_char c1) (upper t1)
                  end
              end
          end
      end
  end.

(** [s.endswith(suffix)]: [s] is [suffix] itself, or its tail ends with it. *)
Fixpoint endswith (s suffix : string) : bool :=
  String.eqb s suffix
  || match s with
     | EmptyString => false
     | String _ t => endswith t suffix
     end.

(** What "ends in [w], ignoring case" means, stated without the case maps:
    the two texts have the same length and agree position by position up to
    the case of a letter. *)
Definition same_letter (c d : ascii) : Prop :=
  c = d
  \/ (is_upper c = true /\ nat_of_ascii d = (nat_of_ascii c + 32)%nat)
  \/ (is_upper d = true /\ nat_of_ascii c = (nat_of_ascii d + 32)%nat).

Inductive same_text : string -> string -> Prop :=
| same_empty : same_text EmptyString EmptyString
| same_cons c d s t :
    same_letter c d -> same_text s t -> same_text (String c s) (String d t).

Definition ends_ignoring_case (s w : string) : Prop :=
  exists p t, s = p ++ t /\ same_text t w.

End PyStr.

Import PyStr.

(** ** Data exchanged with the collaborators *)

(** [start_time] / [end_time]: [Union[str, datetime.datetime]]. *)
Inductive time_arg :=
| TimeStr (s : string)
| TimeStamp (t : Z).

(** One element of a job's ["attempts"] list. *)
Record Attempt := {
  attempt_state : string;      (* latest_attempt['state'] *)
  run_url : string             (* latest_attempt['run_url'] *)
}.

(** A job dictionary, as returned by [find_materialization_job] and under the
    ["job"] key of the answers of [get_materialization_job],
    [submit_materialization_job] and [ingest_dataframe].  The ["attempts"] key
    may be missing ([None]) or hold a list, which may be empty. *)
Record Job := {
  id : string;
  state : string;
  attempts : option (list Attempt)
}.

(** Answer of [get_dataframe_info]. *)
Record DfInfo := {
  df_path : string;
  signed_url_for_df_upload : string
}.

(** Keyword arguments of [find_materialization_job] (lines 82-90). *)
Record FindQuery := {
  fq_workspace : string;
  fq_feature_view : string;
  fq_online : bool;
  fq_offline : bool;
  fq_start_time : time_arg;
  fq_end_time : time_arg;
  fq_job_type : string
}.

(** Keyword arguments of [submit_materialization_job] (lines 123-132). *)
Record SubmitRequest := {
  sr_workspace : string;
  sr_feature_view : string;
  sr_online : bool;
  sr_offline : bool;
  sr_start_time : time_arg;
  sr_end_time : time_arg;
  sr_allow_overwrite : bool;
  sr_tecton_managed_retries : bool
}.

(** Exceptions: those raised inside a collaborator, the [IndexError] of
    indexing an empty list, and the [Exception(message)] of line 153. *)
Inductive exn :=
| External (name : string)
| IndexError
| Exception (message : string).

(** [l[-1]] where it exists. *)
Fixpoint last_item {A : Type} (l : list A) : option A :=
  match l with
  | [] => None
  | [x] => Some x
  | _ :: t => last_item t
  end.

Inductive result (A : Type) :=
| Ok (a : A)
| Err (e : exn).
Arguments Ok {A} a.
Arguments Err {A} e.

(** The messages the operator logs, with the values they are formatted from. *)
Inductive log_msg :=
| ExistingJobFound (job : Job)                       (* line 92 *)
| JobRunningCancelling                               (* line 94 *)
| WaitingForCancelled                                (* line 109 *)
| OverwritingSuccess                                 (* line 113 *)
| ExistingSuccessExiting                             (* line 117 *)
| LatestAttempt (count : nat) (st url : string)      (* line 141 *)
| NoAttemptLaunched                                  (* line 145 *)
| AttemptingToKill (job_id : string)                 (* line 170 *)
| SuccessfullyKilled (job_id : string)               (* line 175 *)
| NoJobStarted.                                      (* line 177 *)

(** The two [return] statements of [execute] both return [None]; the
    constructor records which one was taken: line 118 (the existing job
    already succeeded) or line 151 (the polled job succeeded). *)
Inductive returned :=
| Skipped
| Completed.

(** How a run of the model ends: the code returned, raised, or the model's
    loop budget ran out before the code did either. *)
Inductive outcome (A : Type) :=
| Done (a : A)
| Raised (e : exn)
| OutOfFuel.
Arguments Done {A} a.
Arguments Raised {A} e.
Arguments OutOfFuel {A}.

Section Model.

(** [pandas.DataFrame], and the state of everything outside the operator:
    the remote control plane, the storage behind the signed URL, the clock. *)
Variable DataFrame : Type.
Variable W : Type.

(** Every interaction, in program order, together with its answer. *)
Inductive event :=
| Create (conn_id : string) (r : result unit)
| FindJob (q : FindQuery) (r : result (option Job))
| GetJob (workspace feature_view job_id : string) (r : result Job)
| CancelJob (workspace feature_view job_id : string) (r : result unit)
| SubmitJob (req : SubmitRequest) (r : result Job)
| GetDataframeInfo (feature_view workspace : string) (r : result DfInfo)
| Generate (r : result DataFrame)
| Upload (url : string) (df : DataFrame) (r : result unit)
| IngestDataframe (feature_view path workspace : string) (r : result Job)
| Sleep (secs : Z)
| Log (m : log_msg).

(** The collaborators.  Each call takes the world as it is and answers with a
    value or an exception and the world as it has become. *)
Record Env := {
  (* TectonHook.create(conn_id) *)
  create : string -> W -> result unit * W;
  find_materialization_job : FindQuery -> W -> result (option Job) * W;
  (* get_materialization_job(workspace, feature_view, job_id)["job"] *)
  get_materialization_job : string -> string -> string -> W -> result Job * W;
  cancel_materialization_job : string -> string -> string -> W -> result unit * W;
  (* submit_materialization_job(...)["job"] *)
  submit_materialization_job : SubmitRequest -> W -> result Job * W;
  (* get_dataframe_info(feature_view, workspace) *)
  get_dataframe_info : string -> string -> W -> result DfInfo * W;
  (* ingest_dataframe(feature_view, df_path, workspace)["job"] *)
  ingest_dataframe : string -> string -> string -> W -> result Job * W;
  (* df_utils.upload_df_pandas(upload_url, df) *)
  upload_df_pandas : string -> DataFrame -> W -> result unit * W;
  (* time.sleep(secs): the world moves on while the operator sleeps *)
  time_sleep : Z -> W -> W;
  (* str(job_result), as interpolated into the message of line 154 *)
  format_job : Job -> string
}.

(** The fields set by [__init__] (lines 68-77), [job_id] apart.
    [df_generator] is [None] or a callable, which [if self.df_generator]
    takes as true; calling it may change the world and may raise. *)
Record Operator := {
  conn_id : string;
  workspace : string;
  feature_view : string;
  online : bool;
  offline : bool;
  start_time : time_arg;
  end_time : time_arg;
  allow_overwrite : bool;
  df_generator : option (W -> result DataFrame * W)
}.

(** What a run reads and writes: the world and [self.job_id]. *)
Record State := {
  world : W;
  job_id : option string
}.

(** *** The monad of the embedding: state, exceptions, a trace, a budget *)

Definition M (A : Type) : Type := State -> outcome A * State * list event.

Definition ret {A} (a : A) : M A := fun s => (Done a, s, []).

Definition raise {A} (e : exn) : M A := fun s => (Raised e, s, []).

Definition out_of_fuel {A} : M A := fun s => (OutOfFuel, s, []).

Definition bind {A B} (m : M A) (k : A -> M B) : M B :=
  fun s =>
    match m s with
    | (Done a, s1, t1) =>
        match k a s1 with
        | (o, s2, t2) => (o, s2, (t1 ++ t2)%list)
        end
    | (Raised e, s1, t1) => (Raised e, s1, t1)
    | (OutOfFuel, s1, t1) => (OutOfFuel, s1, t1)
    end.

Notation "x <- m ;; k" := (bind m (fun x => k))
  (at level 61, m at next level, right associativity).
Notation "m ;; k" := (bind m (fun _ => k))
  (at level 61, right associativity).

(** Every event of a computation, from any state, satisfies [P]. *)
Definition emits_only {A} (P : event -> Prop) (m : M A) : Prop :=
  forall s, Forall P (snd (m s)).

(** The same state in another world. *)
Definition at_world (s : State) (w : W) : State :=
  {| world := w; job_id := job_id s |}.

(** A call to a collaborator: run it on the world, record the call with its
    answer, and raise what it raised. *)
Definition call {A} (f : W -> result A * W) (ev : result A -> event) : M A :=
  fun s =>
    match f (world s) with
    | (r, w) =>
        (match r with Ok a => Done a | Err e => Raised e end,
         {| world := w; job_id := job_id s |},
         [ev r])
    end.

Definition log (m : log_msg) : M unit := fun s => (Done tt, s, [Log m]).

(** The same collaborators, with another answer to the lookup. *)
Definition with_find (e : Env)
    (f : FindQuery -> W -> result (option Job) * W) : Env := {|
  create := create e;
  find_materialization_job := f;
  get_materialization_job := get_materialization_job e;
  cancel_materialization_job := cancel_materialization_job e;
  submit_materialization_job := submit_materialization_job e;
  get_dataframe_info := get_dataframe_info e;
  ingest_dataframe := ingest_dataframe e;
  upload_df_pandas := upload_df_pandas e;
  time_sleep := time_sleep e;
  format_job := format_job e
|}.

Variable env : Env.

Definition sleep (secs : Z) : M unit :=
  fun s => (Done tt,
            {| world := time_sleep env secs (world s); job_id := job_id s |},
            [Sleep secs]).

Definition get_job_id : M (option string) := fun s => (Done (job_id s), s, []).

Definition set_job_id (j : string) : M unit :=
  fun s => (Done tt, {| world := world s; job_id := Some j |}, []).

(** *** The operator *)

Variable self : Operator.

Definition hook_create : M unit :=
  call (create env (conn_id self)) (Create (conn_id self)).

Definition hook_get (jid : string) : M Job :=
  call (get_materialization_job env (workspace self) (feature_view self) jid)
       (GetJob (workspace self) (feature_view self) jid).

Definition hook_cancel (jid : string) : M unit :=
  call (cancel_materialization_job env (workspace self) (feature_view self) jid)
       (CancelJob (workspace self) (feature_view self) jid).

(** The three tests on a job state, as the code writes them. *)
Definition lower_running (st : string) : bool :=        (* lines 93 *)
  endswith (lower st) "running".
Definition lower_success (st : string) : bool :=        (* line 111 *)
  endswith (lower st) "success".
Definition lower_cancelled (st : string) : bool :=      (* lines 105-107 *)
  endswith (lower st) "manually_cancelled".
Definition upper_running (st : string) : bool :=        (* line 137 *)
  endswith (upper st) "RUNNING".
Definition upper_success (st : string) : bool :=        (* line 150 *)
  endswith (upper st) "SUCCESS".

(** Lines 82-90. *)
Definition find_query : FindQuery := {|
  fq_workspace := workspace self;
  fq_feature_view := feature_view self;
  fq_online := online self;
  fq_offline := offline self;
  fq_start_time := start_time self;
  fq_end_time := end_time self;
  fq_job_type := match df_generator self with
                 | Some _ => "ingest"
                 | None => "batch"
                 end
|}.

(** Lines 123-132. *)
Definition submit_request : SubmitRequest := {|
  sr_workspace := workspace self;
  sr_feature_view := feature_view self;
  sr_online := online self;
  sr_offline := offline self;
  sr_start_time := start_time self;
  sr_end_time := end_time self;
  sr_allow_overwrite := allow_overwrite self;
  sr_tecton_managed_retries := false
|}.

(** Lines 100-110: fetch the job until its state ends in
    "manually_cancelled"; one unit of budget per test of the condition. *)
Fixpoint wait_cancelled (fuel : nat) (jid : string) : M unit :=
  match fuel with
  | O => out_of_fuel
  | S fuel' =>
      j <- hook_get jid ;;
      if lower_cancelled (state j) then ret tt
      else
        log WaitingForCancelled ;;
        sleep 60 ;;
        wait_cancelled fuel' jid
  end.

(** Lines 91-118: what to do about the job found ([if job:] is false when
    the lookup found none).  [true] is the [return] of line 118; [false]
    falls through to line 120. *)
Definition handle_existing (fuel : nat) (found : option Job) : M bool :=
  match found with
  | Some job =>
      log (ExistingJobFound job) ;;
      if lower_running (state job) then
        log JobRunningCancelling ;;
        hook_cancel (id job) ;;
        wait_cancelled fuel (id job) ;;
        ret false
      else if lower_success (state job) then
        if allow_overwrite self then
          log OverwritingSuccess ;; ret false
        else
          log ExistingSuccessExiting ;; ret true
      else ret false
  | None => ret false
  end.

(** Lines 157-166. *)
Definition ingest_feature_table_with_pandas_df
    (generator : W -> result DataFrame * W) : M Job :=
  df_info <- call (get_dataframe_info env (feature_view self) (workspace self))
                  (GetDataframeInfo (feature_view self) (workspace self)) ;;
  let path := df_path df_info in
  let upload_url := signed_url_for_df_upload df_info in
  df <- call generator Generate ;;
  call (upload_df_pandas env upload_url df) (Upload upload_url df) ;;
  call (ingest_dataframe env (feature_view self) path (workspace self))
       (IngestDataframe (feature_view self) path (workspace self)).

(** Lines 120-132. *)
Definition submit : M Job :=
  match df_generator self with
  | Some generator => ingest_feature_table_with_pandas_df generator
  | None =>
      call (submit_materialization_job env submit_request)
           (SubmitJob submit_request)
  end.

(** Lines 138-145: the progress message of one poll tick.  [attempts[-1]]
    raises [IndexError] on an empty list. *)
Definition log_progress (job_result : Job) : M unit :=
  match attempts job_result with
  | Some atts =>
      match last_item atts with
      | Some latest_attempt =>
          log (LatestAttempt (List.length atts)
                             (attempt_state latest_attempt)
                             (run_url latest_attempt))
      | None => raise IndexError
      end
  | None => log NoAttemptLaunched
  end.

(** The message of lines 153-155. *)
Definition final_message (job_result : Job) : string :=
  "Final job state was " ++ state job_result ++ ". Final response:"
  ++ String (ascii_of_nat 10) (" " ++ format_job env job_result).

(** Lines 137-155: poll until the state no longer ends in "RUNNING"; one unit
    of budget per iteration of the loop body. *)
Fixpoint poll (fuel : nat) (jid : string) (job_result : Job) : M returned :=
  if upper_running (state job_result) then
    match fuel with
    | O => out_of_fuel
    | S fuel' =>
        log_progress job_result ;;
        sleep 60 ;;
        job_result' <- hook_get jid ;;
        poll fuel' jid job_result'
    end
  else if upper_success (state job_result) then ret Completed
  else raise (Exception (final_message job_result)).

(** Lines 133-155. *)
Definition track (fuel : nat) (resp : Job) : M returned :=
  set_job_id (id resp) ;;
  job_result <- hook_get (id resp) ;;
  poll fuel (id resp) job_result.

(** Lines 120-155: the submission step and what follows it. *)
Definition submit_and_track (fuel : nat) : M returned :=
  bind submit (track fuel).

(** Lines 91-155: all of [execute] after the lookup. *)
Definition after_lookup (fuel : nat) (found : option Job) : M returned :=
  early <- handle_existing fuel found ;;
  if early then ret Skipped
  else submit_and_track fuel.

(** [execute] (lines 79-155).  [fuel] bounds each of the two loops. *)
Definition execute (fuel : nat) : M returned :=
  hook_create ;;
  job <- call (find_materialization_job env find_query) (FindJob find_query) ;;
  after_lookup fuel job.

(** *** Behaviours of the control plane that the properties refer to *)

(** From world [w], job [jid] is fetched in a state not ending in
    "manually_cancelled" [k] times, with a sleep of 60 after each, and then
    in a state that does. *)
Fixpoint cancelled_after (k : nat) (jid : string) (w : W) : Prop :=
  match get_materialization_job env (workspace self) (feature_view self) jid w with
  | (Ok j, w') =>
      match k with
      | O => lower_cancelled (state j) = true
      | S k' =>
          lower_cancelled (state j) = false
          /\ cancelled_after k' jid (time_sleep env 60 w')
      end
  | (Err _, _) => False
  end.

(** [attempts] is missing or not empty: line 140 finds a latest attempt. *)
Definition has_latest_attempt (j : Job) : bool :=
  match attempts j with
  | Some [] => false
  | _ => true
  end.

(** Holding [current] in world [w], the poll loop sees [n] more running
    records before it fetches [final], not running, reaching world [w']:
    each of the [n] running records ([current] first) can be logged, is
    followed by a sleep of 60 and by a fetch that answers. *)
Fixpoint running_for (n : nat) (jid : string) (current : Job) (w : W)
    (final : Job) (w' : W) : Prop :=
  match n with
  | O => current = final /\ w = w' /\ upper_running (state current) = false
  | S n' =>
      upper_running (state current) = true
      /\ has_latest_attempt current = true
      /\ exists next w1,
           get_materialization_job env (workspace self) (feature_view self)
             jid (time_sleep env 60 w) = (Ok next, w1)
           /\ running_for n' jid next w1 final w'
  end.

(** The events of [ingest_feature_table_with_pandas_df], as far as it gets:
    staging, then the producer, then the upload to the signed URL that
    staging gave, of the table the producer gave, then the ingest of the path
    that staging gave.  A step that raises is the last one. *)
Definition ingest_steps (steps : list event) : Prop :=
  let fv := feature_view self in
  let ws := workspace self in
  (exists e, steps = [GetDataframeInfo fv ws (Err e)])
  \/ (exists info e,
        steps = [GetDataframeInfo fv ws (Ok info); Generate (Err e)])
  \/ (exists info df e,
        steps = [GetDataframeInfo fv ws (Ok info); Generate (Ok df);
                 Upload (signed_url_for_df_upload info) df (Err e)])
  \/ (exists info df r,
        steps = [GetDataframeInfo fv ws (Ok info); Generate (Ok df);
                 Upload (signed_url_for_df_upload info) df (Ok tt);
                 IngestDataframe fv (df_path info) ws r]).

(** The calls of the ingest path from world [w], with what they are
    answered there: staging is called; when it answers, the producer is
    invoked; when it returns a table, that table is uploaded to the signed
    URL that staging gave; when the upload returns, the path that staging
    gave is ingested.  Each call is made in the world the one before left. *)
Definition ingest_calls (generator : W -> result DataFrame * W) (w : W)
    (steps : list event) : Prop :=
  let fv := feature_view self in
  let ws := workspace self in
  exists ri wa,
    get_dataframe_info env fv ws w = (ri, wa)
    /\ match ri with
       | Err _ => steps = [GetDataframeInfo fv ws ri]
       | Ok info =>
           exists rd wb,
             generator wa = (rd, wb)
             /\ match rd with
                | Err _ => steps = [GetDataframeInfo fv ws ri; Generate rd]
                | Ok df =>
                    let url := signed_url_for_df_upload info in
                    exists ru wc,
                      upload_df_pandas env url df wb = (ru, wc)
                      /\ match ru with
                         | Err _ =>
                             steps = [GetDataframeInfo fv ws ri; Generate rd;
                                      Upload url df ru]
                         | Ok _ =>
                             exists rj wd,
                               ingest_dataframe env fv (df_path info) ws wc
                               = (rj, wd)
                               /\ steps
                                  = [GetDataframeInfo fv ws ri; Generate rd;
                                     Upload url df ru;
                                     IngestDataframe fv (df_path info) ws rj]
                         end
                end
       end.

(** The events of the submission step, by the path taken. *)
Definition submission_steps (steps : list event) : Prop :=
  match df_generator self with
  | Some _ => ingest_steps steps
  | None => exists r, steps = [SubmitJob (submit_request) r]
  end.

(** How lines 150-155 end the run on the record last fetched. *)
Definition end_of (final : Job) : outcome returned :=
  if upper_success (state final) then Done Completed
  else Raised (Exception (final_message final)).

(** What the last event says about the end of a run, when it is an answered
    fetch of a record that is not running. *)
Definition decided_by (o : outcome returned) (e : event) : Prop :=
  match e with
  | GetJob _ _ _ (Ok j) => upper_running (state j) = false -> o = end_of j
  | _ => True
  end.

(** [if self.job_id:] -- [None] and the empty string are false. *)
Definition truthy (j : option string) : bool :=
  match j with
  | Some s => negb (String.eqb s "")
  | None => false
  end.

(** [on_kill] (lines 168-177). *)
Definition on_kill : M unit :=
  j <- get_job_id ;;
  if truthy j then
    let jid := match j with Some s => s | None => "" end in
    log (AttemptingToKill jid) ;;
    hook_create ;;
    hook_cancel jid ;;
    log (SuccessfullyKilled jid)
  else log NoJobStarted.

End Model.

Arguments Create {DataFrame} conn_id r.
Arguments FindJob {DataFrame} q r.
Arguments GetJob {DataFrame} workspace feature_view job_id r.
Arguments CancelJob {DataFrame} workspace feature_view job_id r.
Arguments SubmitJob {DataFrame} req r.
Arguments GetDataframeInfo {DataFrame} feature_view workspace r.
Arguments Generate {DataFrame} r.
Arguments Upload {DataFrame} url df r.
Arguments IngestDataframe {DataFrame} feature_view path workspace r.
Arguments Sleep {DataFrame} secs.
Arguments Log {DataFrame} m.
Arguments create {DataFrame W} e _ _.
Arguments find_materialization_job {DataFrame W} e _ _.
Arguments get_materialization_job {DataFrame W} e _ _ _ _.
Arguments cancel_materialization_job {DataFrame W} e _ _ _ _.
Arguments submit_materialization_job {DataFrame W} e _ _.
Arguments get_dataframe_info {DataFrame W} e _ _ _.
Arguments ingest_dataframe {DataFrame W} e _ _ _ _.
Arguments upload_df_pandas {DataFrame W} e _ _ _.
Arguments time_sleep {DataFrame W} e _ _.
Arguments format_job {DataFrame W} e _.
Arguments conn_id {DataFrame W} o.
Arguments workspace {DataFrame W} o.
Arguments feature_view {DataFrame W} o.
Arguments online {DataFrame W} o.
Arguments offline {DataFrame W} o.
Arguments start_time {DataFrame W} o.
Arguments end_time {DataFrame W} o.
Arguments allow_overwrite {DataFrame W} o.
Arguments df_generator {DataFrame W} o.
Arguments world {W} s.
Arguments job_id {W} s.
Arguments Build_State {W} world job_id.
Arguments ret {DataFrame W A} a s.
Arguments raise {DataFrame W A} e s.
Arguments out_of_fuel {DataFrame W A} s.
Arguments bind {DataFrame W A B} m k s.
Arguments call {DataFrame W A} f ev s.
Arguments log {DataFrame W} m s.
Arguments sleep {DataFrame W} env secs s.
Arguments get_job_id {DataFrame W} s.
Arguments set_job_id {DataFrame W} j s.
Arguments hook_create {DataFrame W} env self s.
Arguments hook_get {DataFrame W} env self jid s.
Arguments hook_cancel {DataFrame W} env self jid s.
Arguments find_query {DataFrame W} self.
Arguments submit_request {DataFrame W} self.
Arguments wait_cancelled {DataFrame W} env self fuel jid s.
Arguments handle_existing {DataFrame W} env self fuel found s.
Arguments ingest_feature_table_with_pandas_df {DataFrame W} env self generator s.
Arguments submit {DataFrame W} env self s.
Arguments log_progress {DataFrame W} job_result s.
Arguments final_message {DataFrame W} env job_result.
Arguments poll {DataFrame W} env self fuel jid job_result s.
Arguments track {DataFrame W} env self fuel resp s.
Arguments after_lookup {DataFrame W} env self fuel found s.
Arguments execute {DataFrame W} env self fuel s.
Arguments on_kill {DataFrame W} env self s.
Arguments emits_only {DataFrame W A} P m.
Arguments at_world {W} s w.
Arguments submission_steps {DataFrame W} self steps.
Arguments end_of {DataFrame W} env final.
Arguments decided_by {DataFrame W} env o e.
Arguments with_find {DataFrame W} e f.
Arguments ingest_steps {DataFrame W} self steps.
Arguments ingest_calls {DataFrame W} env self generator w steps.
Arguments submit_and_track {DataFrame W} env self fuel s.
Arguments cancelled_after {DataFrame W} env self k jid w.
Arguments has_latest_attempt j : simpl never.
Arguments running_for {DataFrame W} env self n jid current w final w'.

(** *** Kinds of events *)

Definition is_cancel {D} (e : event D) : bool :=
  match e with CancelJob _ _ _ _ => true | _ => false end.

Definition is_submit {D} (e : event D) : bool :=
  match e with SubmitJob _ _ => true | _ => false end.

(** The calls of [ingest_feature_table_with_pandas_df]. *)
Definition is_ingest_step {D} (e : event D) : bool :=
  match e with
  | GetDataframeInfo _ _ _ | Generate _ | Upload _ _ _
  | IngestDataframe _ _ _ _ => true
  | _ => false
  end.

(** A call of the submission step (lines 120-132), by either path. *)
Definition is_submission {D} (e : event D) : bool :=
  is_submit e || is_ingest_step e.

Definition is_fetch {D} (e : event D) : bool :=
  match e with GetJob _ _ _ _ => true | _ => false end.

(** A fetch that was answered with a job record. *)
Definition is_answered_fetch {D} (e : event D) : bool :=
  match e with GetJob _ _ _ (Ok _) => true | _ => false end.

Definition is_sleep {D} (e : event D) : bool :=
  match e with Sleep _ => true | _ => false end.

(** A remote call or a transfer: anything but a sleep or a log line. *)
Definition is_call {D} (e : event D) : bool :=
  match e with Sleep _ | Log _ => false | _ => true end.

Definition count {D} (p : event D -> bool) (tr : list (event D)) : nat :=
  List.length (List.filter p tr).

Definition not_cancel {D} (e : event D) : Prop := is_cancel e = false.
Definition not_submission {D} (e : event D) : Prop := is_submission e = false.

(** The last event of a trace. *)
Definition final_event {D} (tr : list (event D)) : option (event D) :=
  last_item tr.

(** *** Further notions about runs *)

(** The exception a call was answered with, if it was. *)
Definition failed_with {D} (e : event D) : option exn :=
  match e with
  | Create _ (Err x) | FindJob _ (Err x) | GetJob _ _ _ (Err x)
  | CancelJob _ _ _ (Err x) | SubmitJob _ (Err x)
  | GetDataframeInfo _ _ (Err x) | Generate (Err x) | Upload _ _ (Err x)
  | IngestDataframe _ _ _ (Err x) => Some x
  | _ => None
  end.

Definition answered {D} (e : event D) : Prop := failed_with e = None.

(** The job a call created, if it is a submit or an ingest that returned. *)
Definition creation_answer {D} (e : event D) : option Job :=
  match e with
  | SubmitJob _ (Ok j) | IngestDataframe _ _ _ (Ok j) => Some j
  | _ => None
  end.

(** The first job created in a trace. *)
Fixpoint created {D} (tr : list (event D)) : option Job :=
  match tr with
  | [] => None
  | e :: t =>
      match creation_answer e with
      | Some j => Some j
      | None => created t
      end
  end.

(** A remote call or transfer other than a fetch of job [jid] in
    [workspace] / [feature_view]. *)
Definition other_call {D} (ws fv jid : string) (e : event D) : bool :=
  match e with
  | GetJob ws' fv' jid' _ =>
      negb (String.eqb ws' ws && String.eqb fv' fv && String.eqb jid' jid)
  | _ => is_call e
  end.

Definition is_lookup {D} (e : event D) : bool :=
  match e with FindJob _ _ => true | _ => false end.

Definition is_create {D} (e : event D) : bool :=
  match e with Create _ _ => true | _ => false end.

(** The forms an event of a run of [execute] can take: every call is
    addressed to the operator's connection, workspace and feature view, with
    the query and the request built from the operator's fields; the direct
    submit belongs to an operator without producer, the calls of the ingest
    path to one with a producer; every sleep lasts 60. *)
Inductive run_event {D W} (self : Operator D W) : event D -> Prop :=
| run_create r : run_event self (Create (conn_id self) r)
| run_find r : run_event self (FindJob (find_query self) r)
| run_get jid r :
    run_event self (GetJob (workspace self) (feature_view self) jid r)
| run_cancel jid r :
    run_event self (CancelJob (workspace self) (feature_view self) jid r)
| run_submit r :
    df_generator self = None ->
    run_event self (SubmitJob (submit_request self) r)
| run_stage r :
    df_generator self <> None ->
    run_event self (GetDataframeInfo (feature_view self) (workspace self) r)
| run_generate r : df_generator self <> None -> run_event self (Generate r)
| run_upload url df r :
    df_generator self <> None -> run_event self (Upload url df r)
| run_ingest path r :
    df_generator self <> None ->
    run_event self
      (IngestDataframe (feature_view self) path (workspace self) r)
| run_sleep : run_event self (Sleep 60)
| run_log m : run_event self (Log m).

(** How the exception of a run relates to its trace: either every call was
    answered, and what is raised, if anything, is raised by the operator's
    own code (line 140 or line 153); or the last call, and only it, was
    answered with an exception, which is what the run raises. *)
Definition clean {D W A} (env : Env D W) (o : outcome A)
    (tr : list (event D)) : Prop :=
  (Forall answered tr
   /\ forall x, o = Raised x ->
        x = IndexError \/ exists j, x = Exception (final_message env j))
  \/ (exists pre ev x,
        tr = (pre ++ [ev])%list /\ Forall answered pre
        /\ failed_with ev = Some x /\ o = Raised x).

Definition tidy {D W A} (env : Env D W) (m : M D W A) : Prop :=
  forall s, clean env (fst (fst (m s))) (snd (m s)).

(** After the computation, [self.job_id] is the id of the job it created,
    or what it was when it created none. *)
Definition records {D W A} (m : M D W A) : Prop :=
  forall s, job_id (snd (fst (m s)))
            = match created (snd (m s)) with
              | Some j => Some (id j)
              | None => job_id s
              end.

(** A computation that leaves [self.job_id] alone and creates no job. *)
Definition idle {D W A} (m : M D W A) : Prop :=
  forall s, job_id (snd (fst (m s))) = job_id s
            /\ Forall (fun e => creation_answer e = None) (snd (m s)).

(** At most [extra] more fetches than sleeps, and only sleeps of 60. *)
Definition paced {D W A} (extra : nat) (m : M D W A) : Prop :=
  forall s, count is_fetch (snd (m s)) <= count is_sleep (snd (m s)) + extra
            /\ Forall (fun e => is_sleep e = true -> e = Sleep 60) (snd (m s)).

(** A computation that raises only what one of its calls raised. *)
Definition blameless {D W A} (m : M D W A) : Prop :=
  forall s x, fst (fst (m s)) = Raised x -> ~ Forall answered (snd (m s)).

(** A computation that runs out of budget only after [n] sleeps. *)
Definition spends {D W A} (n : nat) (m : M D W A) : Prop :=
  forall s, fst (fst (m s)) = OutOfFuel -> n <= count is_sleep (snd (m s)).

(** [__init__] (lines 41-77): keyword arguments with a default are optional;
    the answer is the operator's fields and [self.job_id], which is [None].
    The remaining keyword arguments go to [BaseOperator]. *)
Definition init {D W} (conn_id : option string)
    (workspace feature_view : string) (online offline : bool)
    (start_time end_time : option time_arg) (allow_overwrite : option bool)
    (df_generator : option (W -> result D * W))
    : Operator D W * option string :=
  ({| conn_id := match conn_id with Some c => c | None => "tecton_default" end;
      workspace := workspace;
      feature_view := feature_view;
      online := online;
      offline := offline;
      start_time := match start_time with
                    | Some t => t
                    | None => TimeStr "{{ data_interval_start }}"
                    end;
      end_time := match end_time with
                  | Some t => t
                  | None => TimeStr "{{ data_interval_end }}"
                  end;
      allow_overwrite := match allow_overwrite with
                         | Some b => b
                         | None => false
                         end;
      df_generator := df_generator |},
   None).

(** ** A scripted control plane, for concrete runs

    The world is the number of fetches answered so far; the script fixes the
    job found by the lookup, the successive answers of
    [get_materialization_job], whether cancelling fails, and the job that a
    submission creates. *)
Module Stub.

Record script := {
  existing : option Job;
  answers : list Job;
  cancel_error : option exn;
  created : Job
}.

Definition show_job (j : Job) : string :=
  "{'id': '" ++ id j ++ "', 'state': '" ++ state j ++ "'}".

Definition env_of (sc : script) : Env nat nat := {|
  create := fun _ w => (Ok tt, w);
  find_materialization_job := fun _ w => (Ok (existing sc), w);
  get_materialization_job := fun _ _ _ w =>
    (match nth_error (answers sc) w with
     | Some j => Ok j
     | None => Err (External "NotFound")
     end, S w);
  cancel_materialization_job := fun _ _ _ w =>
    (match cancel_error sc with Some e => Err e | None => Ok tt end, w);
  submit_materialization_job := fun _ w => (Ok (created sc), w);
  get_dataframe_info := fun _ _ w =>
    (Ok {| df_path := "s3://staging/df.parquet";
           signed_url_for_df_upload := "https://staging/upload?sig=1" |}, w);
  ingest_dataframe := fun _ _ _ w => (Ok (created sc), w);
  upload_df_pandas := fun _ _ w => (Ok tt, w);
  time_sleep := fun _ w => w;
  format_job := show_job
|}.

(** The operator of the example DAGs, with the defaults of [__init__]. *)
Definition operator (overwrite : bool)
    (generator : option (nat -> result nat * nat)) : Operator nat nat := {|
  conn_id := "tecton_default";
  workspace := "my_workspace";
  feature_view := "my_batch_feature_view";
  online := true;
  offline := true;
  start_time := TimeStr "{{ data_interval_start }}";
  end_time := TimeStr "{{ data_interval_end }}";
  allow_overwrite := overwrite;
  df_generator := generator
|}.

Definition job (i st : string) : Job :=
  {| id := i; state := st; attempts := None |}.

Definition start : State nat := {| world := 0; job_id := None |}.

(** The lookup finds a job that succeeded. *)
Definition already_done : script := {|
  existing := Some (job "j1" "SUCCESS");
  answers := [];
  cancel_error := None;
  created := job "j2" "RUNNING"
|}.

(** The lookup finds a running job, which is seen cancelled on the second
    fetch; the job created then runs for one tick and succeeds.  The states
    carry the prefix the provider puts before them. *)
Definition replace_running : script := {|
  existing := Some (job "j1" "MATERIALIZATION_TASK_STATUS_RUNNING");
  answers := [job "j1" "MATERIALIZATION_TASK_STATUS_RUNNING";
              job "j1" "MATERIALIZATION_TASK_STATUS_MANUALLY_CANCELLED";
              job "j2" "MATERIALIZATION_TASK_STATUS_RUNNING";
              job "j2" "MATERIALIZATION_TASK_STATUS_SUCCESS"];
  cancel_error := None;
  created := job "j2" "MATERIALIZATION_TASK_STATUS_RUNNING"
|}.

(** No job is found; the job created is reported running once, with an
    ["attempts"] list that is still empty, and would then succeed. *)
Definition no_attempt_yet : script := {|
  existing := None;
  answers := [{| id := "j2"; state := "RUNNING"; attempts := Some [] |};
              job "j2" "SUCCESS"];
  cancel_error := None;
  created := job "j2" "RUNNING"
|}.

(** No job is found; the job created runs for one tick and ends in error. *)
Definition fails : script := {|
  existing := None;
  answers := [job "j2" "RUNNING"; job "j2" "ERROR"];
  cancel_error := None;
  created := job "j2" "RUNNING"
|}.

(** The lookup finds a job that failed; the job created succeeds at once. *)
Definition retry_failed : script := {|
  existing := Some (job "j1" "ERROR");
  answers := [job "j2" "SUCCESS"];
  cancel_error := None;
  created := job "j2" "RUNNING"
|}.

(** Cancelling fails. *)
Definition cancel_fails : script := {|
  existing := None;
  answers := [];
  cancel_error := Some (External "TransportError");
  created := job "j2" "RUNNING"
|}.

(** A producer of a table. *)
Definition producer : nat -> result nat * nat := fun w => (Ok 42, w).

End Stub.


(** A control plane that answers every fetch with the same record. *)
Module Scenario.

Definition steady (found : option Job) (answer : Job) : Env nat nat := {|
  create := fun _ w => (Ok tt, w);
  find_materialization_job := fun _ w => (Ok found, w);
  get_materialization_job := fun _ _ _ w => (Ok answer, S w);
  cancel_materialization_job := fun _ _ _ w => (Ok tt, w);
  submit_materialization_job := fun _ w => (Ok (Stub.job "j2" "RUNNING"), w);
  get_dataframe_info := fun _ _ w =>
    (Ok {| df_path := "s3://staging/df.parquet";
           signed_url_for_df_upload := "https://staging/upload?sig=1" |}, w);
  ingest_dataframe := fun _ _ _ w => (Ok (Stub.job "j2" "RUNNING"), w);
  upload_df_pandas := fun _ _ w => (Ok tt, w);
  time_sleep := fun _ w => w;
  format_job := Stub.show_job
|}.

End Scenario.

(** *** Facts about the string operations *)

Lemma endswith_split s w :
  endswith s w = true <-> exists p, s = p ++ w.
Proof.
  induction s as [|c t IH]; cbn [endswith].
  - rewrite orb_false_r, String.eqb_eq. split.
    + intros <-. now exists "".
    + intros [p Hp]. destruct p; simpl in Hp; [easy | discriminate].
  - rewrite orb_true_iff, String.eqb_eq, IH. split.
    + intros [<- | [p ->]]; [now exists "" | now exists (String c p)].
    + intros [[|d p] Hp]; simpl in Hp.
      * now left.
      * injection Hp as -> ->. right. now exists p.
Qed.

Lemma lower_app p t : lower (p ++ t) = lower p ++ lower t.
Proof. induction p; simpl; congruence. Qed.

Lemma upper_app p t : upper_ascii (p ++ t) = upper_ascii p ++ upper_ascii t.
Proof. induction p; simpl; congruence. Qed.

Lemma lower_split s q w :
  lower s = q ++ w -> exists p t, s = p ++ t /\ lower t = w.
Proof.
  revert s. induction q as [|c q IH]; intros s H; simpl in H.
  - now exists "", s.
  - destruct s as [|d s]; simpl in H; [discriminate|].
    injection H as _ H. destruct (IH _ H) as (p & t & -> & Ht).
    now exists (String d p), t.
Qed.

Lemma upper_split s q w :
  upper_ascii s = q ++ w -> exists p t, s = p ++ t /\ upper_ascii t = w.
Proof.
  revert s. induction q as [|c q IH]; intros s H; simpl in H.
  - now exists "", s.
  - destruct s as [|d s]; simpl in H; [discriminate|].
    injection H as _ H. destruct (IH _ H) as (p & t & -> & Ht).
    now exists (String d p), t.
Qed.

Lemma nat_of_ascii_inj c d : nat_of_ascii c = nat_of_ascii d -> c = d.
Proof.
  intros H. rewrite <- (ascii_nat_embedding c), <- (ascii_nat_embedding d).
  now rewrite H.
Qed.

Ltac case_ranges :=
  unfold lower_char, upper_char, is_upper, is_lower in *;
  repeat match goal with
  | |- context [(?a <=? ?b)%nat] => destruct (Nat.leb_spec a b)
  | H : context [(?a <=? ?b)%nat] |- _ => destruct (Nat.leb_spec a b)
  end; simpl in *.

Lemma lower_char_code c :
  nat_of_ascii (lower_char c)
  = if is_upper c then (nat_of_ascii c + 32)%nat else nat_of_ascii c.
Proof.
  pose proof (nat_ascii_bounded c).
  unfold lower_char. destruct (is_upper c) eqn:E; [|reflexivity].
  apply nat_ascii_embedding. case_ranges; try discriminate; lia.
Qed.

Lemma upper_char_code c :
  nat_of_ascii (upper_char c)
  = if is_lower c then (nat_of_ascii c - 32)%nat else nat_of_ascii c.
Proof.
  pose proof (nat_ascii_bounded c).
  unfold upper_char. destruct (is_lower c) eqn:E; [|reflexivity].
  apply nat_ascii_embedding. lia.
Qed.

Lemma lower_char_same c d : lower_char c = lower_char d <-> same_letter c d.
Proof.
  unfold same_letter. split.
  - intros H. apply (f_equal nat_of_ascii) in H.
    rewrite !lower_char_code in H.
    destruct (is_upper c) eqn:Ec, (is_upper d) eqn:Ed.
    + left. apply nat_of_ascii_inj. lia.
    + right. left. split; [reflexivity | lia].
    + right. right. split; [reflexivity | lia].
    + left. now apply nat_of_ascii_inj.
  - intros H. apply nat_of_ascii_inj. rewrite !lower_char_code.
    destruct H as [-> | [[Hc Hd] | [Hd Hc]]]; [reflexivity | |].
    + rewrite Hc. replace (is_upper d) with false; [lia|].
      symmetry. case_ranges; try reflexivity; try discriminate; lia.
    + rewrite Hd. replace (is_upper c) with false; [lia|].
      symmetry. case_ranges; try reflexivity; try discriminate; lia.
Qed.

Lemma upper_char_same c d : upper_char c = upper_char d <-> same_letter c d.
Proof.
  unfold same_letter. split.
  - intros H. apply (f_equal nat_of_ascii) in H.
    rewrite !upper_char_code in H.
    destruct (is_lower c) eqn:Ec, (is_lower d) eqn:Ed.
    + left. apply nat_of_ascii_inj. case_ranges; try discriminate; lia.
    + right. right. case_ranges; try discriminate; split; try reflexivity; lia.
    + right. left. case_ranges; try discriminate; split; try reflexivity; lia.
    + left. now apply nat_of_ascii_inj.
  - intros H. apply nat_of_ascii_inj. rewrite !upper_char_code.
    destruct H as [-> | [[Hc Hd] | [Hd Hc]]]; [reflexivity | |].
    + case_ranges; try discriminate; lia.
    + case_ranges; try discriminate; lia.
Qed.

Lemma lower_same s w : lower s = lower w <-> same_text s w.
Proof.
  revert w. induction s as [|c s IH]; intros [|d w]; simpl;
    try (split; [discriminate | intros H; inversion H]).
  - split; [constructor | reflexivity].
  - split.
    + intros H. injection H as Hc Hs. constructor.
      * now apply lower_char_same.
      * now apply IH.
    + intros H. inversion H; subst. f_equal.
      * now apply lower_char_same.
      * now apply IH.
Qed.

Lemma upper_same s w : upper_ascii s = upper_ascii w <-> same_text s w.
Proof.
  revert w. induction s as [|c s IH]; intros [|d w]; simpl;
    try (split; [discriminate | intros H; inversion H]).
  - split; [constructor | reflexivity].
  - split.
    + intros H. injection H as Hc Hs. constructor.
      * now apply upper_char_same.
      * now apply IH.
    + intros H. inversion H; subst. f_equal.
      * now apply upper_char_same.
      * now apply IH.
Qed.

(** A lower-cased text ends with the lower-case word [lower w] exactly when
    the text ends, ignoring case, in [w]; likewise for upper case. *)
Lemma endswith_lower_spec s w :
  endswith (lower s) (lower w) = true <-> ends_ignoring_case s w.
Proof.
  rewrite endswith_split. unfold ends_ignoring_case. split.
  - intros [q Hq]. destruct (lower_split _ _ _ Hq) as (p & t & -> & Ht).
    exists p, t. split; [reflexivity | now apply lower_same].
  - intros (p & t & -> & Ht). exists (lower p).
    rewrite lower_app. f_equal. now apply lower_same.
Qed.

Lemma endswith_upper_spec s w :
  endswith (upper_ascii s) (upper_ascii w) = true <-> ends_ignoring_case s w.
Proof.
  rewrite endswith_split. unfold ends_ignoring_case. split.
  - intros [q Hq]. destruct (upper_split _ _ _ Hq) as (p & t & -> & Ht).
    exists p, t. split; [reflexivity | now apply upper_same].
  - intros (p & t & -> & Ht). exists (upper_ascii p).
    rewrite upper_app. f_equal. now apply upper_same.
Qed.

(** No character of two or three bytes starts with an ASCII byte. *)
Lemma upper_of_two_ascii c1 c2 :
  (N_of_ascii c1 <? 128)%N = true -> upper_of_two c1 c2 = None.
Proof.
  intros H. apply N.ltb_lt in H. unfold upper_of_two, upper_two.
  cbn [List.find].
  repeat match goal with
  | |- context [(N_of_ascii c1 =? ?b)%N] =>
      destruct (N.eqb_spec (N_of_ascii c1) b); [lia|]
  end.
  reflexivity.
Qed.

Lemma upper_of_three_ascii c1 c2 c3 :
  (N_of_ascii c1 <? 128)%N = true -> upper_of_three c1 c2 c3 = None.
Proof.
  intros H. apply N.ltb_lt in H. unfold upper_of_three, upper_three.
  cbn [List.find].
  repeat match goal with
  | |- context [(N_of_ascii c1 =? ?b)%N] =>
      destruct (N.eqb_spec (N_of_ascii c1) b); [lia|]
  end.
  reflexivity.
Qed.

(** On ASCII text [upper] maps letter by letter. *)
Lemma upper_on_ascii s : is_ascii s = true -> upper s = upper_ascii s.
Proof.
  induction s as [|c1 t1 IH]; [reflexivity|].
  cbn [is_ascii]. intros H. apply andb_true_iff in H as [H1 Ht].
  specialize (IH Ht). cbn [upper upper_ascii].
  destruct t1 as [|c2 t2]; [reflexivity|].
  rewrite (upper_of_two_ascii _ c2 H1).
  destruct t2 as [|c3 t3]; [now rewrite IH|].
  rewrite (upper_of_three_ascii _ c2 c3 H1). now rewrite IH.
Qed.

Lemma app_length_str p t : String.length (p ++ t) = (String.length p + String.length t)%nat.
Proof. induction p; simpl; congruence. Qed.

Lemma app_same_length_inv p q a b :
  p ++ a = q ++ b -> String.length a = String.length b -> a = b.
Proof.
  revert q. induction p as [|c p IH]; intros [|d q] H L; simpl in H.
  - assumption.
  - apply (f_equal String.length) in H. simpl in H.
    rewrite app_length_str in H. lia.
  - apply (f_equal String.length) in H. simpl in H.
    rewrite app_length_str in H. lia.
  - injection H as _ H. eauto.
Qed.

(** Two different words of the same length cannot both end a text. *)
Lemma endswith_exclusive s a b :
  String.length a = String.length b -> a <> b ->
  endswith s a = true -> endswith s b = false.
Proof.
  intros L N Ha. destruct (endswith s b) eqn:Hb; [|reflexivity].
  apply endswith_split in Ha, Hb. destruct Ha as [p ->], Hb as [q Hq].
  exfalso. apply N. eapply app_same_length_inv; eauto.
Qed.

Lemma running_not_success_lower st :
  lower_running st = true -> lower_success st = false.
Proof. apply endswith_exclusive; [reflexivity | discriminate]. Qed.

Lemma success_not_running_lower st :
  lower_success st = true -> lower_running st = false.
Proof. apply endswith_exclusive; [reflexivity | discriminate]. Qed.

Lemma success_not_running_upper st :
  upper_success st = true -> upper_running st = false.
Proof. apply endswith_exclusive; [reflexivity | discriminate]. Qed.

Lemma lower_running_spec st :
  lower_running st = true <-> ends_ignoring_case st "RUNNING".
Proof. exact (endswith_lower_spec st "RUNNING"). Qed.

Lemma upper_running_spec st :
  is_ascii st = true ->
  (upper_running st = true <-> ends_ignoring_case st "RUNNING").
Proof.
  intros H. unfold upper_running. rewrite (upper_on_ascii _ H).
  exact (endswith_upper_spec st "RUNNING").
Qed.

Lemma lower_success_spec st :
  lower_success st = true <-> ends_ignoring_case st "SUCCESS".
Proof. exact (endswith_lower_spec st "SUCCESS"). Qed.

Lemma upper_success_spec st :
  is_ascii st = true ->
  (upper_success st = true <-> ends_ignoring_case st "SUCCESS").
Proof.
  intros H. unfold upper_success. rewrite (upper_on_ascii _ H).
  exact (endswith_upper_spec st "SUCCESS").
Qed.

Lemma lower_cancelled_spec st :
  lower_cancelled st = true <-> ends_ignoring_case st "MANUALLY_CANCELLED".
Proof. exact (endswith_lower_spec st "MANUALLY_CANCELLED"). Qed.

(** The test of line 93 and the test of line 137 agree on every ASCII state,
    and so do those of lines 111 and 150. *)
Lemma running_tests_agree st :
  is_ascii st = true -> lower_running st = upper_running st.
Proof.
  intros H. apply eq_true_iff_eq.
  now rewrite lower_running_spec, (upper_running_spec _ H).
Qed.

Lemma success_tests_agree st :
  is_ascii st = true -> lower_success st = upper_success st.
Proof.
  intros H. apply eq_true_iff_eq.
  now rewrite lower_success_spec, (upper_success_spec _ H).
Qed.

(** ** Properties of the operator *)

Section Properties.

Context {DataFrame W : Type}.
Variable env : Env DataFrame W.
Variable self : Operator DataFrame W.

Local Abbreviation M := (M DataFrame W).
Local Abbreviation event := (event DataFrame).

(** *** Running a bind *)

Lemma bind_done {A B} (m : M A) (k : A -> M B) s a s1 t1 :
  m s = (Done a, s1, t1) ->
  bind m k s = (let '(o, s2, t2) := k a s1 in (o, s2, t1 ++ t2)%list).
Proof. unfold bind. now intros ->. Qed.

Lemma bind_raised {A B} (m : M A) (k : A -> M B) s e s1 t1 :
  m s = (Raised e, s1, t1) -> bind m k s = (Raised e, s1, t1).
Proof. unfold bind. now intros ->. Qed.

Lemma bind_out_of_fuel {A B} (m : M A) (k : A -> M B) s s1 t1 :
  m s = (OutOfFuel, s1, t1) -> bind m k s = (OutOfFuel, s1, t1).
Proof. unfold bind. now intros ->. Qed.

(** How a bind can have ended. *)
Lemma bind_inv {A B} (m : M A) (k : A -> M B) s o s' tr :
  bind m k s = (o, s', tr) ->
  (exists a s1 t1 t2,
      m s = (Done a, s1, t1) /\ k a s1 = (o, s', t2) /\ tr = (t1 ++ t2)%list)
  \/ (exists e, m s = (Raised e, s', tr) /\ o = Raised e)
  \/ (m s = (OutOfFuel, s', tr) /\ o = OutOfFuel).
Proof.
  unfold bind. destruct (m s) as [[[a|e|] s1] t1].
  - destruct (k a s1) as [[o2 s2] t2] eqn:K. intros [= <- <- <-].
    left. now exists a, s1, t1, t2.
  - intros [= <- <- <-]. right. left. now exists e.
  - intros [= <- <- <-]. right. right. easy.
Qed.

(** *** Computations all of whose events satisfy a property *)

Lemma emits_ret {A} (P : event -> Prop) (a : A) :
  emits_only (W := W) P (ret a).
Proof. intros s. constructor. Qed.

Lemma emits_raise {A} (P : event -> Prop) e :
  emits_only P (@raise DataFrame W A e).
Proof. intros s. constructor. Qed.

Lemma emits_out_of_fuel {A} (P : event -> Prop) :
  emits_only P (@out_of_fuel DataFrame W A).
Proof. intros s. constructor. Qed.

Lemma emits_log (P : event -> Prop) m :
  P (Log m) -> emits_only (W := W) P (log m).
Proof. intros H s. simpl. now repeat constructor. Qed.

Lemma emits_sleep (P : event -> Prop) secs :
  P (Sleep secs) -> emits_only P (sleep env secs).
Proof. intros H s. simpl. now repeat constructor. Qed.

Lemma emits_set_job_id (P : event -> Prop) j :
  emits_only (W := W) P (set_job_id j).
Proof. intros s. constructor. Qed.

Lemma emits_call {A} (P : event -> Prop) (f : W -> result A * W) ev :
  (forall r, P (ev r)) -> emits_only P (call f ev).
Proof.
  intros H s. unfold call. destruct (f (world s)) as [r w]. simpl.
  now repeat constructor.
Qed.

Lemma emits_bind {A B} (P : event -> Prop) (m : M A) (k : A -> M B) :
  emits_only P m -> (forall a, emits_only P (k a)) -> emits_only P (bind m k).
Proof.
  intros Hm Hk s. unfold bind. specialize (Hm s).
  destruct (m s) as [[[a|e|] s1] t1]; simpl in *; try assumption.
  specialize (Hk a s1). destruct (k a s1) as [[o2 s2] t2]. simpl in *.
  now apply Forall_app.
Qed.

Ltac emits :=
  repeat first
    [ apply emits_bind; [|intros ?]
    | apply emits_ret | apply emits_raise | apply emits_out_of_fuel
    | apply emits_set_job_id
    | apply emits_log; try reflexivity
    | apply emits_sleep; try reflexivity
    | apply emits_call; intros ?; try reflexivity ].

(** The wait for cancellation only fetches, logs and sleeps. *)
Lemma wait_cancelled_quiet fuel jid :
  emits_only (fun e => not_cancel e /\ not_submission e)
             (wait_cancelled env self fuel jid).
Proof.
  induction fuel as [|fuel IH]; simpl.
  - emits.
  - unfold hook_get. apply emits_bind; [emits; now split|].
    intros j. destruct (lower_cancelled (state j)); [emits|].
    apply emits_bind; [emits; now split|]. intros _.
    apply emits_bind; [emits; now split|]. intros _. exact IH.
Qed.

Lemma log_progress_quiet P (job_result : Job) :
  (forall m, P (Log m)) -> emits_only P (@log_progress DataFrame W job_result).
Proof.
  intros H. unfold log_progress.
  destruct (attempts job_result) as [atts|]; [|emits; apply H].
  destruct (last_item atts); emits; apply H.
Qed.

(** Polling never cancels and never submits. *)
Lemma poll_quiet fuel jid job_result :
  emits_only (fun e => not_cancel e /\ not_submission e)
             (poll env self fuel jid job_result).
Proof.
  revert job_result. induction fuel as [|fuel IH]; intros job_result; simpl.
  - destruct (upper_running (state job_result)); [emits|].
    destruct (upper_success (state job_result)); emits.
  - destruct (upper_running (state job_result)).
    + apply emits_bind; [apply log_progress_quiet; now split|]. intros _.
      apply emits_bind; [emits; now split|]. intros _.
      unfold hook_get. apply emits_bind; [emits; now split|]. intros j.
      apply IH.
    + destruct (upper_success (state job_result)); emits.
Qed.

Lemma track_quiet fuel resp :
  emits_only (fun e => not_cancel e /\ not_submission e)
             (track env self fuel resp).
Proof.
  unfold track, hook_get. emits; try (now split). apply poll_quiet.
Qed.

Lemma submit_no_cancel : emits_only not_cancel (submit env self).
Proof.
  unfold submit, ingest_feature_table_with_pandas_df.
  destruct (df_generator self); emits.
Qed.

(** *** The lookup finds a job that already succeeded *)

(** C1.  When the lookup finds a job whose state ends in "success" and
    [allow_overwrite] is false, [execute] returns at line 118: the whole run
    is the hook creation, the lookup and two log lines, so it makes no
    submit, ingest or cancel call and leaves [self.job_id] as it was. *)
Theorem skip_when_already_successful fuel s w1 w2 job :
  create env (conn_id self) (world s) = (Ok tt, w1) ->
  find_materialization_job env (find_query self) w1 = (Ok (Some job), w2) ->
  lower_success (state job) = true ->
  allow_overwrite self = false ->
  let tr := [Create (conn_id self) (Ok tt);
             FindJob (find_query self) (Ok (Some job));
             Log (ExistingJobFound job);
             Log ExistingSuccessExiting] in
  execute env self fuel s
  = (Done Skipped, {| world := w2; job_id := job_id s |}, tr)
  /\ Forall (fun e => is_cancel e = false /\ is_submit e = false
                      /\ is_ingest_step e = false) tr.
Proof.
  intros Hc Hf Hs Ho tr. split.
  - unfold execute, hook_create.
    erewrite bind_done by (unfold call; rewrite Hc; reflexivity).
    erewrite bind_done by (unfold call; simpl; rewrite Hf; reflexivity).
    unfold after_lookup, handle_existing.
    rewrite (success_not_running_lower _ Hs), Hs, Ho.
    reflexivity.
  - repeat constructor.
Qed.

(** *** Lists of events *)

Lemma count_app (p : event -> bool) a b :
  count p (a ++ b) = count p a + count p b.
Proof. unfold count. now rewrite filter_app, length_app. Qed.

Lemma count_none (p : event -> bool) tr :
  Forall (fun e => p e = false) tr -> count p tr = 0.
Proof.
  unfold count. induction 1 as [|e tr He _ IH]; simpl; [reflexivity|].
  now rewrite He.
Qed.

(** The first event with property [f] of [a ++ b], when [a] has none. *)
Lemma first_hit (f : event -> bool) a b pre e post :
  Forall (fun x => f x = false) a ->
  (a ++ b)%list = (pre ++ e :: post)%list -> f e = true ->
  exists q, pre = (a ++ q)%list /\ b = (q ++ e :: post)%list.
Proof.
  intros Ha. revert pre. induction Ha as [|x a Hx _ IH]; intros pre H He.
  - now exists pre.
  - destruct pre as [|y pre]; simpl in H; injection H as -> H.
    + congruence.
    + destruct (IH _ H He) as (q & -> & ->). now exists q.
Qed.

Lemma no_hit (f : event -> bool) a pre e post :
  Forall (fun x => f x = false) a -> a = (pre ++ e :: post)%list ->
  f e = true -> False.
Proof.
  intros Ha H He. rewrite <- (app_nil_r a) in H.
  destruct (first_hit f a [] pre e post Ha H He) as (q & _ & Hq).
  destruct q; discriminate.
Qed.

(** *** From the lookup to the rest of [execute] *)

Lemma execute_after_lookup fuel s w1 w2 found :
  create env (conn_id self) (world s) = (Ok tt, w1) ->
  find_materialization_job env (find_query self) w1 = (Ok found, w2) ->
  execute env self fuel s
  = (let '(o, s', t) := after_lookup env self fuel found (at_world s w2) in
     (o, s', Create (conn_id self) (Ok tt)
             :: FindJob (find_query self) (Ok found) :: t)).
Proof.
  intros Hc Hf. unfold execute, hook_create.
  erewrite bind_done by (unfold call; rewrite Hc; reflexivity).
  erewrite bind_done by (unfold call; simpl; rewrite Hf; reflexivity).
  unfold at_world. now destruct after_lookup as [[o s'] t].
Qed.

Lemma poll_not_skipped fuel jid job_result s s' tr :
  poll env self fuel jid job_result s <> (Done Skipped, s', tr).
Proof.
  revert job_result s tr. induction fuel as [|fuel IH]; intros j s tr; simpl.
  - destruct (upper_running (state j)); [discriminate|].
    destruct (upper_success (state j)); discriminate.
  - destruct (upper_running (state j)).
    + intros H. apply bind_inv in H.
      destruct H as [(a & s1 & t1 & t2 & _ & H & _) | [(e & _ & ?) | (_ & ?)]];
        try discriminate.
      apply bind_inv in H.
      destruct H as [(a' & s2 & t3 & t4 & _ & H & _) | [(e & _ & ?) | (_ & ?)]];
        try discriminate.
      apply bind_inv in H.
      destruct H as [(a'' & s3 & t5 & t6 & _ & H & _) | [(e & _ & ?) | (_ & ?)]];
        try discriminate.
      exact (IH _ _ _ H).
    + destruct (upper_success (state j)); discriminate.
Qed.

Lemma submit_and_track_not_skipped fuel s s' tr :
  submit_and_track env self fuel s <> (Done Skipped, s', tr).
Proof.
  intros H. apply bind_inv in H.
  destruct H as [(a & s1 & t1 & t2 & _ & H & _) | [(e & _ & ?) | (_ & ?)]];
    try discriminate.
  unfold track in H. apply bind_inv in H.
  destruct H as [(a' & s2 & t3 & t4 & _ & H & _) | [(e & _ & ?) | (_ & ?)]];
    try discriminate.
  apply bind_inv in H.
  destruct H as [(a'' & s3 & t5 & t6 & _ & H & _) | [(e & _ & ?) | (_ & ?)]];
    try discriminate.
  exact (poll_not_skipped _ _ _ _ _ _ H).
Qed.

Lemma submit_and_track_no_cancel fuel :
  emits_only not_cancel (submit_and_track env self fuel).
Proof.
  apply emits_bind; [apply submit_no_cancel|]. intros resp s.
  eapply Forall_impl; [|apply track_quiet]. now intros e [H _].
Qed.

(** The submission step always makes a first call, of its own kind. *)
Lemma submit_first_event s :
  exists e t, snd (submit env self s) = e :: t /\ is_submission e = true
              /\ is_submit e = match df_generator self with
                               | Some _ => false
                               | None => true
                               end.
Proof.
  unfold submit, ingest_feature_table_with_pandas_df.
  destruct (df_generator self) as [g|].
  - unfold bind at 1. unfold call at 1.
    destruct get_dataframe_info as [[info|e] w]; simpl.
    + match goal with
      | |- context [bind ?m ?k ?s] => destruct (bind m k s) as [[o s2] t2]
      end.
      simpl. eauto.
    + eauto.
  - unfold call. destruct submit_materialization_job as [r w]. simpl. eauto.
Qed.

Lemma submit_and_track_first_event fuel s :
  exists e t, snd (submit_and_track env self fuel s) = e :: t
              /\ is_submission e = true.
Proof.
  destruct (submit_first_event s) as (e & t & H & He & _).
  unfold submit_and_track, bind.
  destruct (submit env self s) as [[[resp|x|] s1] t1]; simpl in H; subst t1.
  - destruct (track env self fuel resp s1) as [[o s2] t2]. simpl. eauto.
  - simpl. eauto.
  - simpl. eauto.
Qed.

(** *** The wait for cancellation *)

Lemma wait_cancelled_done fuel jid s u s' tr :
  wait_cancelled env self fuel jid s = (Done u, s', tr) ->
  exists tr' j,
    tr = (tr' ++ [GetJob (workspace self) (feature_view self) jid (Ok j)])%list
    /\ lower_cancelled (state j) = true.
Proof.
  revert s tr. induction fuel as [|fuel IH]; intros s tr; simpl.
  - discriminate.
  - intros H. apply bind_inv in H.
    destruct H as [(j & s1 & t1 & t2 & Hg & H & ->) | [(e & _ & ?) | (_ & ?)]];
      try discriminate.
    unfold hook_get, call in Hg.
    destruct get_materialization_job as [[j'|e] w']; try discriminate.
    injection Hg as -> <- <-.
    destruct (lower_cancelled (state j)) eqn:Hj.
    + injection H as _ <- <-. exists [], j. now split.
    + apply bind_inv in H.
      destruct H as [(a & s2 & t3 & t4 & Hl & H & ->) | [(e & ? & ?) | (? & ?)]];
        try discriminate.
      injection Hl as _ <- <-.
      apply bind_inv in H.
      destruct H as [(a' & s3 & t5 & t6 & Hl & H & ->) | [(e & ? & ?) | (? & ?)]];
        try discriminate.
      injection Hl as _ <- <-.
      destruct (IH _ _ H) as (tr' & j2 & -> & Hj2).
      exists (GetJob (workspace self) (feature_view self) jid (Ok j)
              :: Log WaitingForCancelled :: Sleep 60 :: tr'), j2.
      now split.
Qed.

(** Enough budget: when the control plane shows the job cancelled on fetch
    [k + 1], the wait ends there, after [k + 1] fetches and [k] sleeps. *)
Lemma wait_cancelled_live k : forall fuel jid s,
  cancelled_after env self k jid (world s) -> k < fuel ->
  exists s' tr,
    wait_cancelled env self fuel jid s = (Done tt, s', tr)
    /\ count is_fetch tr = S k /\ count is_sleep tr = k.
Proof.
  induction k as [|k IH]; intros [|fuel] jid s Hk Hfuel; try lia;
    simpl in Hk |- *;
    destruct get_materialization_job as [[j|e] w'] eqn:Hg; try contradiction;
    (erewrite bind_done
       by (unfold hook_get, call; rewrite Hg; reflexivity)).
  - rewrite Hk. simpl. eauto.
  - destruct Hk as [Hj Hk]. rewrite Hj.
    erewrite bind_done by reflexivity.
    erewrite bind_done by reflexivity.
    destruct (IH fuel jid (at_world s (time_sleep env 60 w')))
      as (s' & tr & Hw & Hf & Hs); [exact Hk | lia |].
    unfold at_world in Hw. simpl in Hw |- *. rewrite Hw.
    exists s'. eexists. split; [reflexivity|].
    unfold count in *. simpl. now rewrite Hf, Hs.
Qed.

(** The lookup found a running job: what [execute] does next. *)
Lemma after_lookup_running fuel s job rc w3 :
  lower_running (state job) = true ->
  cancel_materialization_job env (workspace self) (feature_view self)
    (id job) (world s) = (rc, w3) ->
  let head := [Log (ExistingJobFound job); Log JobRunningCancelling;
               CancelJob (workspace self) (feature_view self) (id job) rc] in
  after_lookup env self fuel (Some job) s
  = match rc with
    | Err e => (Raised e, at_world s w3, head)
    | Ok _ =>
        match wait_cancelled env self fuel (id job) (at_world s w3) with
        | (Done _, s4, tw) =>
            let '(o, s5, tp) := submit_and_track env self fuel s4 in
            (o, s5, head ++ tw ++ tp)%list
        | (Raised e, s4, tw) => (Raised e, s4, (head ++ tw)%list)
        | (OutOfFuel, s4, tw) => (OutOfFuel, s4, (head ++ tw)%list)
        end
    end.
Proof.
  intros Hr Hc head. unfold after_lookup, handle_existing. rewrite Hr.
  unfold bind, log, hook_cancel, call, ret. rewrite Hc.
  destruct rc as [[]|e]; [|reflexivity].
  fold (at_world s w3).
  destruct (wait_cancelled env self fuel (id job) (at_world s w3))
    as [[[u|e|] s4] tw]; try reflexivity.
  destruct (submit_and_track env self fuel s4) as [[o s5] tp].
  subst head. simpl. now rewrite app_nil_r.
Qed.

(** *** The lookup finds a running job *)

(** C2 (amended).  When the lookup finds a job whose state ends in "running",
    a run of [execute] makes exactly one cancel call, for that job; every
    call of the submission step comes after that cancel has returned and
    after a fetch of that job whose state ends, ignoring case, in
    "manually_cancelled"; the run never returns at line 118; and when the
    control plane shows the job cancelled on fetch [k + 1], with budget for
    it, the run does reach the submission step, after exactly [k + 1]
    fetches and [k] sleeps. *)
Theorem cancel_then_replace fuel s w1 w2 job o s' tr :
  create env (conn_id self) (world s) = (Ok tt, w1) ->
  find_materialization_job env (find_query self) w1 = (Ok (Some job), w2) ->
  lower_running (state job) = true ->
  execute env self fuel s = (o, s', tr) ->
  let cancel := CancelJob (workspace self) (feature_view self) (id job) in
  let fetch := GetJob (workspace self) (feature_view self) (id job) in
  (count is_cancel tr = 1 /\ exists r, In (cancel r) tr)
  /\ (forall pre e post,
        tr = (pre ++ e :: post)%list -> is_submission e = true ->
        exists pre1 j pre2,
          pre = (pre1 ++ fetch (Ok j) :: pre2)%list
          /\ lower_cancelled (state j) = true
          /\ In (cancel (Ok tt)) pre1)
  /\ o <> Done Skipped
  /\ (forall w3 k,
        cancel_materialization_job env (workspace self) (feature_view self)
          (id job) w2 = (Ok tt, w3) ->
        cancelled_after env self k (id job) w3 -> k < fuel ->
        exists pre e post,
          tr = (pre ++ e :: post)%list /\ is_submission e = true
          /\ Forall not_submission pre
          /\ count is_fetch pre = S k /\ count is_sleep pre = k).
Proof.
  intros Hc Hf Hr H cancel fetch.
  rewrite (execute_after_lookup _ _ _ _ _ Hc Hf) in H.
  destruct (cancel_materialization_job env (workspace self)
              (feature_view self) (id job) w2) as [rc w3] eqn:Hk.
  rewrite (after_lookup_running fuel (at_world s w2) job rc w3 Hr Hk) in H.
  destruct rc as [[]|x].
  - (* the cancel call returned *)
    fold cancel in H.
    pose proof (wait_cancelled_quiet fuel (id job) (at_world (at_world s w2) w3))
      as Hq.
    destruct (wait_cancelled env self fuel (id job)
                (at_world (at_world s w2) w3)) as [[[u|x|] s4] tw] eqn:Hw;
      simpl in Hq.
    + (* the wait saw the job cancelled *)
      pose proof (submit_and_track_no_cancel fuel s4) as Hn.
      pose proof (submit_and_track_not_skipped fuel s4) as Hs.
      destruct (submit_and_track_first_event fuel s4) as (e0 & t0 & He0 & Hsub).
      destruct (submit_and_track env self fuel s4) as [[o5 s5] tp].
      simpl in Hn, He0. injection H as <- <- Htr.
      destruct (wait_cancelled_done _ _ _ _ _ _ Hw) as (tw' & j & -> & Hj).
      set (head := [Create (conn_id self) (Ok tt);
                    FindJob (find_query self) (Ok (Some job));
                    Log (ExistingJobFound job); Log JobRunningCancelling;
                    cancel (Ok tt)]).
      assert (Etr : tr = (head ++ (tw' ++ [fetch (Ok j)]) ++ tp)%list)
        by (now rewrite <- Htr).
      clear Htr. subst tr.
      assert (Hhead : Forall not_submission head) by (repeat constructor).
      assert (Hquiet : Forall not_submission (head ++ tw' ++ [fetch (Ok j)])).
      { apply Forall_app. split; [exact Hhead|].
        eapply Forall_impl; [|exact Hq]. now intros a [_ Ha]. }
      refine (conj (conj _ _) (conj _ (conj _ _))).
      * rewrite count_app, (count_app _ (tw' ++ [fetch (Ok j)]) tp).
        rewrite (count_none is_cancel (tw' ++ [fetch (Ok j)])),
                (count_none is_cancel tp); [reflexivity | exact Hn |].
        eapply Forall_impl; [|exact Hq]. now intros a [Ha _].
      * exists (Ok tt). apply in_or_app. left. simpl. tauto.
      * intros pre e post Htr He. rewrite app_assoc in Htr.
        destruct (first_hit is_submission _ _ _ _ _ Hquiet Htr He)
          as (q & -> & _).
        exists (head ++ tw')%list, j, q.
        refine (conj _ (conj _ _)).
        -- now rewrite <- !app_assoc.
        -- exact Hj.
        -- apply in_or_app. left. simpl. tauto.
      * intros Hskip. apply (Hs s5 tp). now rewrite Hskip.
      * intros w3' k [= <-] Hafter Hfuel.
        destruct (wait_cancelled_live k fuel (id job)
                    (at_world (at_world s w2) w3) Hafter Hfuel)
          as (s6 & tr6 & Hw6 & Hfetch & Hsleep).
        rewrite Hw in Hw6. injection Hw6 as _ _ <-.
        exists (head ++ tw' ++ [fetch (Ok j)])%list, e0, t0. subst tp.
        refine (conj _ (conj _ (conj _ (conj _ _)))).
        -- now rewrite <- !app_assoc.
        -- exact Hsub.
        -- exact Hquiet.
        -- rewrite count_app. exact Hfetch.
        -- rewrite count_app. exact Hsleep.
    + (* a fetch raised during the wait *)
      injection H as <- <- <-.
      assert (Hquiet : Forall not_submission
                (Create (conn_id self) (Ok tt)
                 :: FindJob (find_query self) (Ok (Some job))
                 :: [Log (ExistingJobFound job); Log JobRunningCancelling;
                     cancel (Ok tt)] ++ tw)).
      { repeat (constructor; [reflexivity|]).
        eapply Forall_impl; [|exact Hq]. now intros a [_ Ha]. }
      refine (conj (conj _ _) (conj _ (conj _ _))).
      * change (count is_cancel
                  ([Create (conn_id self) (Ok tt);
                    FindJob (find_query self) (Ok (Some job));
                    Log (ExistingJobFound job); Log JobRunningCancelling;
                    cancel (Ok tt)] ++ tw) = 1).
        rewrite count_app, (count_none is_cancel tw); [reflexivity|].
        eapply Forall_impl; [|exact Hq]. now intros a [Ha _].
      * exists (Ok tt). simpl. tauto.
      * intros pre e post Htr He.
        destruct (no_hit is_submission _ _ _ _ Hquiet Htr He).
      * discriminate.
      * intros w3' k [= <-] Hafter Hfuel.
        destruct (wait_cancelled_live k fuel (id job)
                    (at_world (at_world s w2) w3) Hafter Hfuel)
          as (s6 & tr6 & Hw6 & _).
        rewrite Hw in Hw6. discriminate.
    + (* the budget ran out during the wait *)
      injection H as <- <- <-.
      assert (Hquiet : Forall not_submission
                (Create (conn_id self) (Ok tt)
                 :: FindJob (find_query self) (Ok (Some job))
                 :: [Log (ExistingJobFound job); Log JobRunningCancelling;
                     cancel (Ok tt)] ++ tw)).
      { repeat (constructor; [reflexivity|]).
        eapply Forall_impl; [|exact Hq]. now intros a [_ Ha]. }
      refine (conj (conj _ _) (conj _ (conj _ _))).
      * change (count is_cancel
                  ([Create (conn_id self) (Ok tt);
                    FindJob (find_query self) (Ok (Some job));
                    Log (ExistingJobFound job); Log JobRunningCancelling;
                    cancel (Ok tt)] ++ tw) = 1).
        rewrite count_app, (count_none is_cancel tw); [reflexivity|].
        eapply Forall_impl; [|exact Hq]. now intros a [Ha _].
      * exists (Ok tt). simpl. tauto.
      * intros pre e post Htr He.
        destruct (no_hit is_submission _ _ _ _ Hquiet Htr He).
      * discriminate.
      * intros w3' k [= <-] Hafter Hfuel.
        destruct (wait_cancelled_live k fuel (id job)
                    (at_world (at_world s w2) w3) Hafter Hfuel)
          as (s6 & tr6 & Hw6 & _).
        rewrite Hw in Hw6. discriminate.
  - (* the cancel call raised *)
    injection H as <- <- <-.
    refine (conj (conj _ _) (conj _ (conj _ _))).
    + reflexivity.
    + exists (Err x). simpl. tauto.
    + intros pre e post Htr He. exfalso.
      refine (no_hit is_submission _ _ _ _ _ Htr He). repeat constructor.
    + discriminate.
    + intros w3' k [=].
Qed.

(** *** The other answers of the lookup *)

Lemma after_lookup_none fuel s :
  after_lookup env self fuel None s = submit_and_track env self fuel s.
Proof.
  unfold after_lookup, handle_existing, bind, ret.
  now destruct (submit_and_track env self fuel s) as [[o s'] t].
Qed.

Lemma after_lookup_other fuel s job :
  lower_running (state job) = false -> lower_success (state job) = false ->
  after_lookup env self fuel (Some job) s
  = (let '(o, s', t) := submit_and_track env self fuel s in
     (o, s', Log (ExistingJobFound job) :: t)).
Proof.
  intros Hr Hs. unfold after_lookup, handle_existing. rewrite Hr, Hs.
  unfold bind, ret, log.
  now destruct (submit_and_track env self fuel s) as [[o s'] t].
Qed.

Lemma after_lookup_overwrite fuel s job :
  lower_running (state job) = false -> lower_success (state job) = true ->
  allow_overwrite self = true ->
  after_lookup env self fuel (Some job) s
  = (let '(o, s', t) := submit_and_track env self fuel s in
     (o, s', Log (ExistingJobFound job) :: Log OverwritingSuccess :: t)).
Proof.
  intros Hr Hs Ho. unfold after_lookup, handle_existing. rewrite Hr, Hs, Ho.
  unfold bind, ret, log.
  now destruct (submit_and_track env self fuel s) as [[o s'] t].
Qed.

Lemma after_lookup_skip fuel s job :
  lower_running (state job) = false -> lower_success (state job) = true ->
  allow_overwrite self = false ->
  after_lookup env self fuel (Some job) s
  = (Done Skipped, s,
     [Log (ExistingJobFound job); Log ExistingSuccessExiting]).
Proof.
  intros Hr Hs Ho. unfold after_lookup, handle_existing. rewrite Hr, Hs, Ho.
  reflexivity.
Qed.

(** *** The last event of a trace *)

Lemma final_event_cons (e : event) tr :
  final_event (e :: tr)
  = match final_event tr with Some x => Some x | None => Some e end.
Proof.
  unfold final_event. revert e. induction tr as [|y tr IH]; intros e.
  - reflexivity.
  - change (last_item (e :: y :: tr)) with (last_item (y :: tr)).
    rewrite (IH y). now destruct (last_item tr).
Qed.

Lemma final_event_app (a b : list event) :
  final_event (a ++ b)
  = match final_event b with Some x => Some x | None => final_event a end.
Proof.
  induction a as [|e a IH]; simpl.
  - now destruct (final_event b).
  - rewrite !final_event_cons, IH. now destruct (final_event b).
Qed.

Lemma final_event_none (tr : list event) : final_event tr = None -> tr = [].
Proof.
  destruct tr as [|e tr]; [reflexivity|]. rewrite final_event_cons.
  now destruct (final_event tr).
Qed.

Lemma final_event_in (tr : list event) e : final_event tr = Some e -> In e tr.
Proof.
  induction tr as [|x tr IH]; [discriminate|]. rewrite final_event_cons.
  destruct (final_event tr) as [y|].
  - intros [= <-]. right. now apply IH.
  - intros [= <-]. now left.
Qed.

Lemma final_event_forall (P : event -> Prop) tr e :
  Forall P tr -> final_event tr = Some e -> P e.
Proof.
  intros H He. rewrite Forall_forall in H. apply H. now apply final_event_in.
Qed.

(** *** One poll tick *)

Lemma log_progress_cases (job_result : Job) (s : State W) :
  (has_latest_attempt job_result = true
   /\ exists m, @log_progress DataFrame W job_result s = (Done tt, s, [Log m]))
  \/ (attempts job_result = Some []
      /\ @log_progress DataFrame W job_result s = (Raised IndexError, s, [])).
Proof.
  unfold log_progress, has_latest_attempt.
  destruct (attempts job_result) as [[|a atts]|].
  - right. now split.
  - left. split; [reflexivity|].
    destruct (last_item (a :: atts)) as [x|] eqn:E.
    + eexists. reflexivity.
    + exfalso. revert a E. induction atts as [|b atts IH]; intros a E.
      * discriminate.
      * exact (IH b E).
  - left. split; [reflexivity|]. eexists. reflexivity.
Qed.

(** The loop condition fails: lines 150-155 decide. *)
Lemma poll_stop fuel jid job_result s :
  upper_running (state job_result) = false ->
  poll env self fuel jid job_result s
  = (if upper_success (state job_result) then Done Completed
     else Raised (Exception (final_message env job_result)), s, []).
Proof.
  intros H. destruct fuel; simpl; rewrite H;
    now destruct (upper_success (state job_result)).
Qed.

(** The loop condition holds: one iteration of lines 138-149. *)
Lemma poll_tick fuel jid job_result s m next w1 :
  upper_running (state job_result) = true ->
  @log_progress DataFrame W job_result s = (Done tt, s, [Log m]) ->
  get_materialization_job env (workspace self) (feature_view self) jid
    (time_sleep env 60 (world s)) = (Ok next, w1) ->
  poll env self (S fuel) jid job_result s
  = (let '(o, s', t) := poll env self fuel jid next (at_world s w1) in
     (o, s', Log m :: Sleep 60
             :: GetJob (workspace self) (feature_view self) jid (Ok next)
             :: t)).
Proof.
  intros Hr Hl Hg. simpl. rewrite Hr.
  erewrite bind_done by exact Hl.
  erewrite bind_done by reflexivity.
  erewrite bind_done
    by (unfold hook_get, call; simpl; rewrite Hg; reflexivity).
  unfold at_world. simpl.
  now destruct poll as [[o s'] t].
Qed.

(** A poll that ends on an answered fetch ends as lines 150-155 decide for
    the record fetched. *)
Lemma poll_final fuel : forall jid job_result s o s' tr e,
  poll env self fuel jid job_result s = (o, s', tr) ->
  final_event tr = Some e ->
  match e with
  | GetJob _ _ _ (Ok j) =>
      upper_running (state j) = false ->
      o = if upper_success (state j) then Done Completed
          else Raised (Exception (final_message env j))
  | _ => True
  end.
Proof.
  induction fuel as [|fuel IH]; intros jid j0 s o s' tr e H He.
  - simpl in H. destruct (upper_running (state j0));
      [|destruct (upper_success (state j0))];
      injection H as <- <- <-; discriminate.
  - destruct (upper_running (state j0)) eqn:Hr.
    2:{ rewrite poll_stop in H by exact Hr. injection H as <- <- <-.
        discriminate. }
    simpl in H. rewrite Hr in H.
    destruct (log_progress_cases j0 s) as [[_ [m Hl]] | [_ Hl]].
    2:{ erewrite bind_raised in H by exact Hl. injection H as <- <- <-.
        discriminate. }
    erewrite bind_done in H by exact Hl.
    erewrite bind_done in H by reflexivity.
    unfold hook_get at 1, bind at 1, call at 1 in H. simpl in H.
    destruct get_materialization_job as [[j1|x] w1].
    2:{ injection H as <- <- <-. injection He as <-. exact I. }
    destruct (poll env self fuel jid j1) as [[o2 s2] t2] eqn:Hp.
    injection H as <- <- Htr. rewrite <- Htr in He.
    change (final_event
              ([Log m; Sleep 60;
                GetJob (workspace self) (feature_view self) jid (Ok j1)]
               ++ t2) = Some e) in He.
    rewrite final_event_app in He.
    destruct (final_event t2) as [x|] eqn:Ht.
    + injection He as <-. exact (IH _ _ _ _ _ _ _ Hp Ht).
    + injection He as <-. intros Hj1.
      apply final_event_none in Ht. subst t2.
      rewrite poll_stop in Hp by exact Hj1. now injection Hp as <- _.
Qed.

(** Enough budget: a job reported running [n] more times, each record with
    a latest attempt to log, is fetched [n] more times with [n] sleeps of
    60, and the run ends as the final record decides. *)
Lemma poll_converges n : forall fuel jid current s final w',
  running_for env self n jid current (world s) final w' -> n <= fuel ->
  exists tr,
    poll env self fuel jid current s = (end_of env final, at_world s w', tr)
    /\ count is_fetch tr = n /\ count is_sleep tr = n
    /\ Forall (fun e => is_sleep e = true -> e = Sleep 60) tr.
Proof.
  induction n as [|n IH]; intros fuel jid current s final w' Hrun Hfuel.
  - destruct Hrun as (-> & <- & Hstop). exists [].
    rewrite poll_stop by exact Hstop. destruct s. now repeat split.
  - destruct fuel as [|fuel]; [lia|].
    destruct Hrun as (Hr & Hlatest & next & w1 & Hg & Hrun).
    destruct (log_progress_cases current s) as [[_ [m Hl]] | [Hempty _]].
    2:{ unfold has_latest_attempt in Hlatest. rewrite Hempty in Hlatest.
        discriminate. }
    rewrite (poll_tick fuel jid current s m next w1 Hr Hl Hg).
    destruct (IH fuel jid next (at_world s w1) final w' Hrun)
      as (tr & -> & Hf & Hs & Hall); [lia|].
    eexists. split; [reflexivity|]. unfold count in *. simpl.
    rewrite Hf, Hs. repeat split.
    repeat (constructor; [intros; try discriminate; reflexivity|]).
    exact Hall.
Qed.

(** Lines 133-136 and the loop. *)
Lemma track_run fuel resp s :
  track env self fuel resp s
  = match get_materialization_job env (workspace self) (feature_view self)
            (id resp) (world s) with
    | (Ok j, w1) =>
        let '(o, s', t) :=
          poll env self fuel (id resp) j
               {| world := w1; job_id := Some (id resp) |} in
        (o, s',
         GetJob (workspace self) (feature_view self) (id resp) (Ok j) :: t)
    | (Err e, w1) =>
        (Raised e, {| world := w1; job_id := Some (id resp) |},
         [GetJob (workspace self) (feature_view self) (id resp) (Err e)])
    end.
Proof.
  unfold track, bind, set_job_id, hook_get, call. simpl.
  destruct get_materialization_job as [[j|e] w1]; [|reflexivity].
  now destruct poll as [[o s'] t].
Qed.

Lemma track_final fuel resp s o s' tr e :
  track env self fuel resp s = (o, s', tr) ->
  final_event tr = Some e -> decided_by env o e.
Proof.
  rewrite track_run. destruct get_materialization_job as [[j|x] w1].
  - destruct poll as [[o2 s2] t2] eqn:Hp. intros [= <- <- <-].
    rewrite final_event_cons. destruct (final_event t2) as [y|] eqn:Ht.
    + intros [= <-]. exact (poll_final _ _ _ _ _ _ _ _ Hp Ht).
    + intros [= <-]. apply final_event_none in Ht. subst t2. intros Hj.
      rewrite poll_stop in Hp by exact Hj. now injection Hp as <- _.
  - intros [= <- <- <-] [= <-]. exact I.
Qed.

(** *** The submission step *)

Lemma submit_steps s :
  submission_steps self (snd (submit env self s)).
Proof.
  unfold submission_steps, submit, ingest_feature_table_with_pandas_df,
    ingest_steps.
  destruct (df_generator self) as [g|].
  - unfold bind, call. simpl.
    destruct get_dataframe_info as [[info|e] w1]; simpl; [|eauto].
    destruct (g w1) as [[df|e] w2]; simpl; [|eauto 6].
    destruct upload_df_pandas as [[[]|e] w3]; simpl; [|eauto 8].
    destruct ingest_dataframe as [r w4]. simpl.
    do 3 right. now exists info, df, r.
  - unfold call. destruct submit_materialization_job as [r w1]. simpl. eauto.
Qed.

Lemma submission_steps_kind steps :
  submission_steps self steps ->
  steps <> [] /\ Forall (fun e => is_submission e = true) steps
  /\ Forall not_cancel steps.
Proof.
  unfold submission_steps, ingest_steps.
  destruct (df_generator self).
  - intros [[e ->] | [(i & e & ->) | [(i & d & e & ->) | (i & d & r & ->)]]];
      (split; [discriminate|]); split; repeat constructor.
  - intros [r ->]. (split; [discriminate|]); split; repeat constructor.
Qed.

Lemma submit_and_track_shape fuel s o s' tp :
  submit_and_track env self fuel s = (o, s', tp) ->
  exists steps after,
    tp = (steps ++ after)%list
    /\ submission_steps self steps
    /\ Forall (fun e => not_cancel e /\ not_submission e) after
    /\ (forall e, final_event tp = Some e -> decided_by env o e).
Proof.
  unfold submit_and_track. intros H.
  pose proof (submit_steps s) as Hsteps.
  destruct (submission_steps_kind _ Hsteps) as (Hne & Hkind & _).
  apply bind_inv in H.
  destruct H as [(resp & s1 & t1 & t2 & Hs & Ht & ->) | H].
  - rewrite Hs in Hsteps, Hne, Hkind. simpl in Hsteps, Hne, Hkind.
    exists t1, t2. refine (conj eq_refl (conj Hsteps (conj _ _))).
    + pose proof (track_quiet fuel resp s1) as Hq. now rewrite Ht in Hq.
    + intros e. rewrite final_event_app.
      destruct (final_event t2) as [x|] eqn:Hx.
      * intros [= <-]. exact (track_final _ _ _ _ _ _ _ Ht Hx).
      * intros He.
        pose proof (final_event_forall _ _ _ Hkind He) as Hsub.
        destruct e; try exact I. discriminate.
  - assert (Htp : snd (submit env self s) = tp)
      by (destruct H as [(e & -> & _) | (-> & _)]; reflexivity).
    rewrite Htp in Hsteps, Hne, Hkind.
    exists tp, []. rewrite app_nil_r.
    refine (conj eq_refl (conj Hsteps (conj _ _))).
    + constructor.
    + intros e He.
      pose proof (final_event_forall _ _ _ Hkind He) as Hsub.
      destruct e; try exact I. discriminate.
Qed.

(** *** Waiting that does not finish *)

Lemma wait_cancelled_stuck fuel : forall jid s o s' tw,
  wait_cancelled env self fuel jid s = (o, s', tw) ->
  (exists u, o = Done u)
  \/ (forall e, final_event tw = Some e -> is_answered_fetch e = false).
Proof.
  induction fuel as [|fuel IH]; intros jid s o s' tw; simpl.
  - intros [= <- <- <-]. right. discriminate.
  - unfold hook_get at 1, bind at 1, call at 1.
    destruct get_materialization_job as [[j|x] w1].
    2:{ intros [= <- <- <-]. right. now intros e [= <-]. }
    destruct (lower_cancelled (state j)).
    { intros [= <- <- <-]. left. eauto. }
    erewrite bind_done by reflexivity.
    erewrite bind_done by reflexivity.
    destruct wait_cancelled as [[o2 s2] t2] eqn:Hw. intros [= <- <- <-].
    destruct (IH _ _ _ _ _ Hw) as [Hd | Hf]; [now left | right].
    intros e. simpl. rewrite !final_event_cons.
    destruct (final_event t2) as [y|].
    + intros [= <-]. now apply Hf.
    + now intros [= <-].
Qed.

(** *** The shape of a whole run *)

(** Either the submission step is not reached -- then the run does not end
    on an answered fetch and does not return from line 151 -- or the trace is
    a prefix without submission calls followed by the submission step and
    what follows it. *)
Lemma execute_shape fuel s o s' tr :
  execute env self fuel s = (o, s', tr) ->
  (Forall not_submission tr
   /\ (forall e, final_event tr = Some e -> is_answered_fetch e = false)
   /\ o <> Done Completed)
  \/ (exists t0 s1 tp,
        Forall not_submission t0
        /\ submit_and_track env self fuel s1 = (o, s', tp)
        /\ tr = (t0 ++ tp)%list).
Proof.
  destruct (create env (conn_id self) (world s)) as [[[]|x] w1] eqn:Hc.
  2:{ unfold execute, hook_create.
      erewrite bind_raised by (unfold call; rewrite Hc; reflexivity).
      intros [= <- <- <-]. left. refine (conj _ (conj _ _)).
      - repeat constructor.
      - now intros e [= <-].
      - discriminate. }
  destruct (find_materialization_job env (find_query self) w1)
    as [[found|x] w2] eqn:Hf.
  2:{ unfold execute, hook_create.
      erewrite bind_done by (unfold call; rewrite Hc; reflexivity).
      erewrite bind_raised by (unfold call; simpl; rewrite Hf; reflexivity).
      intros [= <- <- <-]. left. refine (conj _ (conj _ _)).
      - repeat constructor.
      - now intros e [= <-].
      - discriminate. }
  rewrite (execute_after_lookup _ _ _ _ _ Hc Hf).
  destruct found as [job|].
  2:{ rewrite after_lookup_none.
      destruct submit_and_track as [[o2 s2] t2] eqn:Hst.
      intros [= <- <- <-]. right.
      exists [Create (conn_id self) (Ok tt);
              FindJob (find_query self) (Ok None)], (at_world s w2), t2.
      refine (conj _ (conj Hst eq_refl)). repeat constructor. }
  destruct (lower_running (state job)) eqn:Hr.
  - destruct (cancel_materialization_job env (workspace self)
                (feature_view self) (id job) w2) as [rc w3] eqn:Hk.
    rewrite (after_lookup_running fuel (at_world s w2) job rc w3 Hr Hk).
    destruct rc as [[]|x].
    2:{ intros [= <- <- <-]. left. refine (conj _ (conj _ _)).
        - repeat constructor.
        - now intros e [= <-].
        - discriminate. }
    pose proof (wait_cancelled_quiet fuel (id job)
                  (at_world (at_world s w2) w3)) as Hq.
    destruct wait_cancelled as [[ow s4] tw] eqn:Hw. simpl in Hq.
    assert (Hquiet : Forall not_submission tw)
      by (eapply Forall_impl; [|exact Hq]; now intros a [_ Ha]).
    destruct (wait_cancelled_stuck _ _ _ _ _ _ Hw) as [[u ->] | Hstuck].
    + destruct submit_and_track as [[o5 s5] tp] eqn:Hst.
      intros [= <- <- <-]. right.
      exists ([Create (conn_id self) (Ok tt);
               FindJob (find_query self) (Ok (Some job));
               Log (ExistingJobFound job); Log JobRunningCancelling;
               CancelJob (workspace self) (feature_view self) (id job)
                 (Ok tt)] ++ tw)%list, s4, tp.
      refine (conj _ (conj Hst _)).
      * apply Forall_app. split; [repeat constructor | exact Hquiet].
      * now rewrite <- app_assoc.
    + destruct ow as [u|x|].
      * destruct submit_and_track as [[o5 s5] tp] eqn:Hst.
        intros [= <- <- <-]. right.
        exists ([Create (conn_id self) (Ok tt);
                 FindJob (find_query self) (Ok (Some job));
                 Log (ExistingJobFound job); Log JobRunningCancelling;
                 CancelJob (workspace self) (feature_view self) (id job)
                   (Ok tt)] ++ tw)%list, s4, tp.
        refine (conj _ (conj Hst _)).
        -- apply Forall_app. split; [repeat constructor | exact Hquiet].
        -- now rewrite <- app_assoc.
      * intros [= <- <- <-]. left. refine (conj _ (conj _ _)).
        -- repeat (constructor; [reflexivity|]). exact Hquiet.
        -- intros e.
           change (final_event
                     ([Create (conn_id self) (Ok tt);
                       FindJob (find_query self) (Ok (Some job));
                       Log (ExistingJobFound job); Log JobRunningCancelling;
                       CancelJob (workspace self) (feature_view self)
                         (id job) (Ok tt)] ++ tw) = Some e
                   -> is_answered_fetch e = false).
           rewrite final_event_app. destruct (final_event tw) as [y|].
           ++ intros [= <-]. now apply Hstuck.
           ++ now intros [= <-].
        -- discriminate.
      * intros [= <- <- <-]. left. refine (conj _ (conj _ _)).
        -- repeat (constructor; [reflexivity|]). exact Hquiet.
        -- intros e.
           change (final_event
                     ([Create (conn_id self) (Ok tt);
                       FindJob (find_query self) (Ok (Some job));
                       Log (ExistingJobFound job); Log JobRunningCancelling;
                       CancelJob (workspace self) (feature_view self)
                         (id job) (Ok tt)] ++ tw) = Some e
                   -> is_answered_fetch e = false).
           rewrite final_event_app. destruct (final_event tw) as [y|].
           ++ intros [= <-]. now apply Hstuck.
           ++ now intros [= <-].
        -- discriminate.
  - destruct (lower_success (state job)) eqn:Hs.
    + destruct (allow_overwrite self) eqn:Ho.
      * rewrite (after_lookup_overwrite _ _ _ Hr Hs Ho).
        destruct submit_and_track as [[o2 s2] t2] eqn:Hst.
        intros [= <- <- <-]. right.
        exists [Create (conn_id self) (Ok tt);
                FindJob (find_query self) (Ok (Some job));
                Log (ExistingJobFound job); Log OverwritingSuccess],
               (at_world s w2), t2.
        refine (conj _ (conj Hst eq_refl)). repeat constructor.
      * rewrite (after_lookup_skip _ _ _ Hr Hs Ho).
        intros [= <- <- <-]. left. refine (conj _ (conj _ _)).
        -- repeat constructor.
        -- now intros e [= <-].
        -- discriminate.
    + rewrite (after_lookup_other _ _ _ Hr Hs).
      destruct submit_and_track as [[o2 s2] t2] eqn:Hst.
      intros [= <- <- <-]. right.
      exists [Create (conn_id self) (Ok tt);
              FindJob (find_query self) (Ok (Some job));
              Log (ExistingJobFound job)], (at_world s w2), t2.
      refine (conj _ (conj Hst eq_refl)). repeat constructor.
Qed.

(** *** The polled job fails *)

(** What comes after a run of events with property [f] that is itself
    preceded by events without it. *)
Lemma after_hits (f : event -> bool) t1 t2 pre g post :
  Forall (fun e => f e = true) t1 -> f g = false ->
  (t1 ++ t2)%list = (pre ++ g :: post)%list ->
  exists q, t2 = (q ++ g :: post)%list.
Proof.
  intros H1 Hg. revert pre. induction H1 as [|a t1 Ha _ IH]; intros pre H.
  - now exists pre.
  - destruct pre as [|b pre]; simpl in H; injection H as -> H.
    + congruence.
    + exact (IH _ H).
Qed.

Lemma after_first_hits (f : event -> bool) t0 t1 t2 pre g post :
  Forall (fun e => f e = false) t0 ->
  Forall (fun e => f e = true) t1 -> f g = false ->
  (exists e, In e pre /\ f e = true) ->
  (t0 ++ t1 ++ t2)%list = (pre ++ g :: post)%list ->
  exists q, t2 = (q ++ g :: post)%list.
Proof.
  intros H0 H1 Hg. revert pre.
  induction H0 as [|a t0 Ha _ IH]; intros pre He H.
  - exact (after_hits f t1 t2 pre g post H1 Hg H).
  - destruct pre as [|b pre]; simpl in H.
    + destruct He as (e & [] & _).
    + injection H as -> H. apply (IH pre); [|exact H].
      destruct He as (e & [<- | Hin] & He); [congruence | now exists e].
Qed.

(** A record fetched by the poll loop that is not running is the last event
    of the loop, and lines 150-155 decide on it. *)
Lemma poll_fetch_last fuel : forall jid j0 s o s' q ws fv jid' j post,
  poll env self fuel jid j0 s
  = (o, s', (q ++ GetJob ws fv jid' (Ok j) :: post)%list) ->
  upper_running (state j) = false ->
  post = [] /\ o = end_of env j.
Proof.
  induction fuel as [|fuel IH]; intros jid j0 s o s' q ws fv jid' j post H Hr.
  - exfalso. simpl in H.
    destruct (upper_running (state j0));
      [|destruct (upper_success (state j0))];
      injection H as _ _ H; destruct q; discriminate.
  - destruct (upper_running (state j0)) eqn:Hr0.
    2:{ exfalso. rewrite poll_stop in H by exact Hr0.
        injection H as _ _ H. destruct q; discriminate. }
    destruct (log_progress_cases j0 s) as [[_ [m Hl]] | [_ Hl]].
    2:{ exfalso. simpl in H. rewrite Hr0 in H.
        erewrite bind_raised in H by exact Hl.
        injection H as _ _ H. destruct q; discriminate. }
    destruct (get_materialization_job env (workspace self) (feature_view self)
                jid (time_sleep env 60 (world s))) as [[next|x] w1] eqn:Hg.
    + rewrite (poll_tick fuel jid j0 s m next w1 Hr0 Hl Hg) in H.
      destruct (poll env self fuel jid next (at_world s w1))
        as [[o2 s2] t2] eqn:Hp.
      injection H as <- <- H.
      destruct q as [|a [|b [|c q]]]; simpl in H; try discriminate.
      * inversion H; subst; clear H.
        rewrite poll_stop in Hp by exact Hr.
        injection Hp as <- _ <-. now split.
      * inversion H; subst; clear H.
        exact (IH _ _ _ _ _ _ _ _ _ _ _ Hp Hr).
    + exfalso. simpl in H. rewrite Hr0 in H.
      erewrite bind_done in H by exact Hl.
      erewrite bind_done in H by reflexivity.
      erewrite bind_raised in H
        by (unfold hook_get, call; simpl; rewrite Hg; reflexivity).
      injection H as _ _ H.
      destruct q as [|a [|b [|c q]]]; simpl in H; try discriminate.
      destruct q; discriminate.
Qed.

Lemma track_fetch_last fuel resp s o s' q ws fv jid j post :
  track env self fuel resp s
  = (o, s', (q ++ GetJob ws fv jid (Ok j) :: post)%list) ->
  upper_running (state j) = false ->
  post = [] /\ o = end_of env j.
Proof.
  rewrite track_run. intros H Hr.
  destruct get_materialization_job as [[j0|x] w1].
  - destruct poll as [[o2 s2] t2] eqn:Hp. injection H as <- <- H.
    destruct q as [|a q]; simpl in H; inversion H; subst; clear H.
    + rewrite poll_stop in Hp by exact Hr.
      injection Hp as <- _ <-. now split.
    + exact (poll_fetch_last _ _ _ _ _ _ _ _ _ _ _ _ Hp Hr).
  - exfalso. injection H as _ _ H.
    destruct q as [|a q]; simpl in H; [discriminate|].
    injection H as _ H. destruct q; discriminate.
Qed.

(** C4.  Whenever, in a run of [execute], a fetch made after a submission
    call is answered with a record whose state ends neither in "RUNNING"
    nor in "SUCCESS", that fetch is the last event of the run and the run
    raises the exception of line 153, whose message is built from that very
    state and from that whole record. *)
Theorem failure_raises fuel s o s' pre ws fv jid j post :
  execute env self fuel s
  = (o, s', (pre ++ GetJob ws fv jid (Ok j) :: post)%list) ->
  (exists e, In e pre /\ is_submission e = true) ->
  upper_running (state j) = false ->
  upper_success (state j) = false ->
  o = Raised (Exception (final_message env j))
  /\ post = []
  /\ exists before between,
       final_message env j
       = before ++ state j ++ between ++ format_job env j.
Proof.
  intros H He Hr Hs.
  assert (Hend : post = [] /\ o = end_of env j).
  { destruct (execute_shape _ _ _ _ _ H)
      as [(Hq & _) | (t0 & s1 & tp & Hq & Hst & Htr)].
    - exfalso. destruct He as (e & Hin & He).
      rewrite Forall_forall in Hq.
      assert (Hn : not_submission e)
        by (apply Hq, in_or_app; now left).
      unfold not_submission in Hn. congruence.
    - unfold submit_and_track in Hst. apply bind_inv in Hst.
      pose proof (submit_steps s1) as Hsteps.
      destruct (submission_steps_kind _ Hsteps) as (_ & Hkind & _).
      destruct Hst as [(resp & s2 & t1 & t2 & Hsub & Ht & ->) | Hst].
      + rewrite Hsub in Hkind. simpl in Hkind.
        destruct (after_first_hits is_submission t0 t1 t2 pre
                    (GetJob ws fv jid (Ok j)) post
                    Hq Hkind eq_refl He (eq_sym Htr)) as (q & ->).
        exact (track_fetch_last _ _ _ _ _ _ _ _ _ _ _ Ht Hr).
      + exfalso.
        assert (Htp : snd (submit env self s1) = tp)
          by (destruct Hst as [(e & -> & _) | (-> & _)]; reflexivity).
        rewrite Htp in Hkind. rewrite <- (app_nil_r tp) in Htr.
        destruct (after_first_hits is_submission t0 tp [] pre
                    (GetJob ws fv jid (Ok j)) post
                    Hq Hkind eq_refl He (eq_sym Htr)) as (q & Hnil).
        destruct q; discriminate. }
  destruct Hend as [-> ->]. unfold end_of. rewrite Hs.
  refine (conj eq_refl (conj eq_refl _)).
  exists "Final job state was ",
    (". Final response:" ++ String (ascii_of_nat 10) " ").
  reflexivity.
Qed.

(** *** The submission step within a run *)

(** What the job found leads to never includes a submission call. *)
Lemma handle_existing_no_submission fuel found :
  emits_only not_submission (handle_existing env self fuel found).
Proof.
  unfold handle_existing. destruct found as [job|]; [|emits].
  apply emits_bind; [emits|]. intros _.
  destruct (lower_running (state job)).
  - unfold hook_cancel. apply emits_bind; [emits|]. intros _.
    apply emits_bind; [emits|]. intros _.
    apply emits_bind; [|intros _; emits].
    intros s. eapply Forall_impl; [|apply wait_cancelled_quiet].
    now intros e [_ H].
  - destruct (lower_success (state job)); [|emits].
    destruct (allow_overwrite self); emits.
Qed.

(** A run that gets past lines 91-118 is the hook creation, the lookup,
    what the job found led to, and then the submission step and what
    follows it. *)
Lemma execute_reach fuel s w1 found w2 s1 t1 :
  create env (conn_id self) (world s) = (Ok tt, w1) ->
  find_materialization_job env (find_query self) w1 = (Ok found, w2) ->
  handle_existing env self fuel found (at_world s w2) = (Done false, s1, t1) ->
  execute env self fuel s
  = (let '(o, s', t) := submit_and_track env self fuel s1 in
     (o, s', Create (conn_id self) (Ok tt)
             :: FindJob (find_query self) (Ok found) :: (t1 ++ t)%list)).
Proof.
  intros Hc Hf Hh. rewrite (execute_after_lookup fuel s w1 w2 found Hc Hf).
  unfold after_lookup. erewrite bind_done by exact Hh.
  destruct (submit_and_track env self fuel s1) as [[o s'] t]. reflexivity.
Qed.

(** The calls of the submission step, with their answers. *)
Lemma submit_calls s :
  match df_generator self with
  | Some g => ingest_calls env self g (world s) (snd (submit env self s))
  | None =>
      exists r w,
        submit_materialization_job env (submit_request self) (world s)
        = (r, w)
        /\ snd (submit env self s) = [SubmitJob (submit_request self) r]
  end.
Proof.
  unfold submit, ingest_feature_table_with_pandas_df, ingest_calls.
  destruct (df_generator self) as [g|].
  - unfold bind, call. simpl.
    destruct get_dataframe_info as [[info|e] w1]; simpl;
      [|now exists (Err e), w1].
    exists (Ok info), w1. split; [reflexivity|].
    destruct (g w1) as [[df|e] w2]; simpl; [|now exists (Err e), w2].
    exists (Ok df), w2. split; [reflexivity|].
    destruct upload_df_pandas as [[[]|e] w3] eqn:Hu; simpl;
      [|now exists (Err e), w3].
    exists (Ok tt), w3. split; [reflexivity|].
    destruct ingest_dataframe as [r w4]. simpl. now exists r, w4.
  - unfold call. destruct submit_materialization_job as [r w1]. simpl.
    now exists r, w1.
Qed.

(** After the calls of the submission step come no more of them. *)
Lemma submit_and_track_split fuel s o s' tp :
  submit_and_track env self fuel s = (o, s', tp) ->
  exists after,
    tp = (snd (submit env self s) ++ after)%list
    /\ Forall not_submission after.
Proof.
  unfold submit_and_track. intros H. apply bind_inv in H.
  destruct H as [(resp & s1 & t1 & t2 & Hs & Ht & ->) | H].
  - rewrite Hs. exists t2. split; [reflexivity|].
    pose proof (track_quiet fuel resp s1) as Hq. rewrite Ht in Hq.
    eapply Forall_impl; [|exact Hq]. now intros e [_ He].
  - exists []. rewrite app_nil_r. split; [|constructor].
    destruct H as [(e & -> & _) | (-> & _)]; reflexivity.
Qed.

Lemma ingest_calls_kind g w steps :
  ingest_calls env self g w steps ->
  steps <> [] /\ Forall (fun e => is_ingest_step e = true) steps.
Proof.
  intros (ri & wa & _ & H). destruct ri as [info|e].
  2:{ subst. split; [discriminate | now repeat constructor]. }
  destruct H as (rd & wb & _ & H). destruct rd as [df|e].
  2:{ subst. split; [discriminate | now repeat constructor]. }
  destruct H as (ru & wc & _ & H). destruct ru as [u|e].
  2:{ subst. split; [discriminate | now repeat constructor]. }
  destruct H as (rj & wd & _ & ->).
  split; [discriminate | now repeat constructor].
Qed.

Lemma not_submission_parts (l : list event) :
  Forall not_submission l ->
  Forall (fun e => is_ingest_step e = false) l
  /\ Forall (fun e => is_submit e = false) l.
Proof.
  intros Hl. split; (eapply Forall_impl; [|exact Hl]); intros a Ha;
    unfold not_submission, is_submission in Ha;
    apply orb_false_iff in Ha; tauto.
Qed.

(** C6.  Take a run that reaches the submission step: the hook is created,
    the lookup answers, and lines 91-118 fall through to line 120.  Its
    trace is those events, then the events of the submission step, then
    events that are no submission calls.  With a producer the events of the
    submission step are the calls of the ingest path, each answered by the
    control plane in the world the call before left: staging; then, when it
    answers, the producer; then, when it returns a table, the upload of
    that very table to the signed URL from staging; then, when the upload
    returns, the ingest of the path from staging.  And the run makes a call
    of the ingest path exactly when a producer is supplied. *)
Theorem ingest_path_wiring fuel s w1 found w2 s1 t1 o s' tr :
  create env (conn_id self) (world s) = (Ok tt, w1) ->
  find_materialization_job env (find_query self) w1 = (Ok found, w2) ->
  handle_existing env self fuel found (at_world s w2) = (Done false, s1, t1) ->
  execute env self fuel s = (o, s', tr) ->
  exists steps after,
    tr = (Create (conn_id self) (Ok tt)
          :: FindJob (find_query self) (Ok found)
          :: t1 ++ steps ++ after)%list
    /\ Forall not_submission t1
    /\ Forall not_submission after
    /\ (forall g, df_generator self = Some g ->
        ingest_calls env self g (world s1) steps)
    /\ ((exists e, In e tr /\ is_ingest_step e = true)
        <-> exists g, df_generator self = Some g).
Proof.
  intros Hc Hf Hh H. rewrite (execute_reach fuel s w1 found w2 s1 t1 Hc Hf Hh) in H.
  destruct submit_and_track as [[o2 s2] tp] eqn:Hst.
  injection H as <- <- <-.
  destruct (submit_and_track_split _ _ _ _ _ Hst) as (after & -> & Hafter).
  pose proof (handle_existing_no_submission fuel found (at_world s w2)) as Ht1.
  rewrite Hh in Ht1. simpl in Ht1.
  pose proof (submit_calls s1) as Hcalls.
  exists (snd (submit env self s1)), after.
  refine (conj eq_refl (conj Ht1 (conj Hafter (conj _ _)))).
  - intros g Hg. now rewrite Hg in Hcalls.
  - destruct (df_generator self) as [g|]; split.
    + intros _. now exists g.
    + intros _. destruct (ingest_calls_kind _ _ _ Hcalls) as [Hne Hk].
      destruct (snd (submit env self s1)) as [|e steps]; [now elim Hne|].
      exists e. split; [|now inversion Hk].
      right. right. apply in_or_app. right. now left.
    + intros (e & Hin & He). exfalso.
      destruct Hcalls as (r & w & _ & Hsteps). rewrite Hsteps in Hin.
      destruct (not_submission_parts _ Ht1) as [Hi1 _].
      destruct (not_submission_parts _ Hafter) as [Hi2 _].
      rewrite Forall_forall in Hi1, Hi2.
      destruct Hin as [<- | [<- | Hin]]; try discriminate.
      apply in_app_or in Hin. destruct Hin as [Hin | [<- | Hin]].
      * specialize (Hi1 _ Hin). congruence.
      * discriminate.
      * specialize (Hi2 _ Hin). congruence.
    + intros [g Hg]. discriminate.
Qed.

(** C9.  Take a run without a producer that reaches the submission step:
    the hook is created, the lookup answers, and lines 91-118 fall through
    to line 120.  It calls the submit operation, with the operator's
    workspace, feature view, online and offline flags, start and end times,
    with [allow_overwrite] as the operator has it and with
    [tecton_managed_retries] false; that is its only submit call, and it
    makes no call of the ingest path. *)
Theorem direct_submission fuel s w1 found w2 s1 t1 o s' tr :
  df_generator self = None ->
  create env (conn_id self) (world s) = (Ok tt, w1) ->
  find_materialization_job env (find_query self) w1 = (Ok found, w2) ->
  handle_existing env self fuel found (at_world s w2) = (Done false, s1, t1) ->
  execute env self fuel s = (o, s', tr) ->
  let request := {| sr_workspace := workspace self;
                    sr_feature_view := feature_view self;
                    sr_online := online self;
                    sr_offline := offline self;
                    sr_start_time := start_time self;
                    sr_end_time := end_time self;
                    sr_allow_overwrite := allow_overwrite self;
                    sr_tecton_managed_retries := false |} in
  exists r w3 after,
    submit_materialization_job env request (world s1) = (r, w3)
    /\ tr = (Create (conn_id self) (Ok tt)
             :: FindJob (find_query self) (Ok found)
             :: t1 ++ SubmitJob request r :: after)%list
    /\ count is_submit tr = 1
    /\ Forall (fun e => is_ingest_step e = false) tr
    /\ Forall not_submission t1
    /\ Forall not_submission after.
Proof.
  intros Hg Hc Hf Hh H request.
  rewrite (execute_reach fuel s w1 found w2 s1 t1 Hc Hf Hh) in H.
  destruct submit_and_track as [[o2 s2] tp] eqn:Hst.
  injection H as <- <- Htr.
  destruct (submit_and_track_split _ _ _ _ _ Hst) as (after & -> & Hafter).
  pose proof (handle_existing_no_submission fuel found (at_world s w2)) as Ht1.
  rewrite Hh in Ht1. simpl in Ht1.
  pose proof (submit_calls s1) as Hcalls. rewrite Hg in Hcalls.
  destruct Hcalls as (r & w3 & Hr & Hsteps). rewrite Hsteps in Htr.
  destruct (not_submission_parts _ Ht1) as [Hi1 Hs1].
  destruct (not_submission_parts _ Hafter) as [Hi2 Hs2].
  exists r, w3, after.
  assert (E : tr = ((Create (conn_id self) (Ok tt)
                     :: FindJob (find_query self) (Ok found) :: t1)
                    ++ SubmitJob request r :: after)%list)
    by (rewrite <- Htr; reflexivity).
  refine (conj Hr (conj E (conj _ (conj _ (conj Ht1 Hafter))))).
  - rewrite E, count_app.
    change (count is_submit (SubmitJob request r :: after))
      with (S (count is_submit after)).
    rewrite (count_none _ _ Hs2).
    rewrite (count_none is_submit
               (Create (conn_id self) (Ok tt)
                :: FindJob (find_query self) (Ok found) :: t1));
      [reflexivity|].
    now repeat constructor.
  - rewrite E. apply Forall_app. split; now repeat constructor.
Qed.

(** *** The cancellation hook *)

(** C5 (amended).  Every invocation of [on_kill] is of one of two kinds.
    Without a job id ([None], or an empty one) it makes no call and returns.
    With one, it creates a hook; when that raises, the exception leaves
    [on_kill] and no cancel call is made; when it returns, [on_kill] calls
    the cancel operation once for that id, and when that call returns it
    logs the success and returns, and when it raises, the exception leaves
    [on_kill] as it is and nothing more is logged. *)
Theorem on_kill_behaviour s :
  (truthy (job_id s) = false
   \/ exists jid, job_id s = Some jid /\ jid <> "")
  /\ (truthy (job_id s) = false ->
      on_kill env self s = (Done tt, s, [Log NoJobStarted]))
  /\ (forall jid x w1,
        job_id s = Some jid -> jid <> "" ->
        create env (conn_id self) (world s) = (Err x, w1) ->
        on_kill env self s
        = (Raised x, at_world s w1,
           [Log (AttemptingToKill jid); Create (conn_id self) (Err x)]))
  /\ (forall jid w1 rc w2,
        job_id s = Some jid -> jid <> "" ->
        create env (conn_id self) (world s) = (Ok tt, w1) ->
        cancel_materialization_job env (workspace self) (feature_view self)
          jid w1 = (rc, w2) ->
        on_kill env self s
        = (match rc with Ok _ => Done tt | Err e => Raised e end,
           at_world s w2,
           ([Log (AttemptingToKill jid); Create (conn_id self) (Ok tt);
             CancelJob (workspace self) (feature_view self) jid rc]
            ++ match rc with
               | Ok _ => [Log (SuccessfullyKilled jid)]
               | Err _ => []
               end)%list)).
Proof.
  refine (conj _ (conj _ (conj _ _))).
  - destruct (job_id s) as [jid|]; [|now left]. simpl.
    destruct (String.eqb_spec jid ""); [now left | right]. now exists jid.
  - intros Hj. unfold on_kill, bind, get_job_id. now rewrite Hj.
  - intros jid x w1 Hj Hne Hc. unfold on_kill, bind, get_job_id. rewrite Hj.
    simpl. destruct (String.eqb_spec jid ""); [contradiction|]. simpl.
    unfold hook_create, call, log. simpl. now rewrite Hc.
  - intros jid w1 rc w2 Hj Hne Hc Hk. unfold on_kill, bind, get_job_id.
    rewrite Hj.
    simpl. destruct (String.eqb_spec jid ""); [contradiction|]. simpl.
    unfold hook_create, hook_cancel, call, log. simpl. rewrite Hc. simpl.
    rewrite Hk. now destruct rc as [[]|e].
Qed.

(** *** Classifying a job state *)

(** C7 (amended).  On a job state made of ASCII characters the tests the
    code makes are case-insensitive tests of its ending: the two tests for
    running (lines 93 and 137) hold exactly when the state ends, ignoring
    case, in RUNNING, the two tests for success (lines 111 and 150) exactly
    when it ends in SUCCESS; a polled record is a failure -- the poll raises
    at once -- exactly when its state ends in neither; and
    "BACKFILL_RUNNING" is running. *)
Theorem state_classification st fuel jid i atts s :
  is_ascii st = true ->
  (lower_running st = true <-> ends_ignoring_case st "RUNNING")
  /\ (upper_running st = true <-> ends_ignoring_case st "RUNNING")
  /\ (lower_success st = true <-> ends_ignoring_case st "SUCCESS")
  /\ (upper_success st = true <-> ends_ignoring_case st "SUCCESS")
  /\ (let job_result := {| id := i; state := st; attempts := atts |} in
      poll env self fuel jid job_result s
      = (Raised (Exception (final_message env job_result)), s, [])
      <-> ~ ends_ignoring_case st "RUNNING"
          /\ ~ ends_ignoring_case st "SUCCESS")
  /\ lower_running "BACKFILL_RUNNING" = true
  /\ upper_running "BACKFILL_RUNNING" = true.
Proof.
  intros Hascii.
  refine (conj (lower_running_spec st) (conj (upper_running_spec st Hascii)
            (conj (lower_success_spec st) (conj (upper_success_spec st Hascii)
               (conj _ (conj eq_refl eq_refl)))))).
  intros job_result.
  rewrite <- (upper_running_spec st Hascii), <- (upper_success_spec st Hascii).
  rewrite !not_true_iff_false. split.
  - intros H. destruct (upper_running st) eqn:Hr.
    + exfalso. destruct fuel as [|fuel]; simpl in H; rewrite Hr in H.
      * discriminate.
      * destruct (log_progress_cases job_result s) as [[_ [m Hl]] | [_ Hl]].
        -- erewrite bind_done in H by exact Hl.
           destruct (bind _ _ s) as [[o2 s2] t2] in H. discriminate.
        -- erewrite bind_raised in H by exact Hl. discriminate.
    + split; [reflexivity|].
      rewrite poll_stop in H by exact Hr. simpl in H.
      now destruct (upper_success st).
  - intros [Hr Hs]. rewrite poll_stop by exact Hr. simpl. now rewrite Hs.
Qed.

(** *** Logging the progress of a running job *)

(** C8 (what the code does).  On a poll tick whose record has an
    ["attempts"] list that is present but empty, line 140 raises
    [IndexError]: the tick logs nothing, does not sleep, and the run ends
    there. *)
Theorem empty_attempts_raise fuel jid i s :
  let job_result := {| id := i; state := "RUNNING"; attempts := Some [] |} in
  @log_progress DataFrame W job_result s = (Raised IndexError, s, [])
  /\ poll env self (S fuel) jid job_result s = (Raised IndexError, s, []).
Proof. split; reflexivity. Qed.

(** Enough budget, from the submission on: when the job created is reported
    running [n] times (each record with a latest attempt to log) and then
    not running, the run fetches it [n + 1] times, sleeps [n] times, and ends
    as the final record decides. *)
Lemma submit_and_track_converges n fuel s resp s1 t1 first w0 final w' :
  submit env self s = (Done resp, s1, t1) ->
  get_materialization_job env (workspace self) (feature_view self) (id resp)
    (world s1) = (Ok first, w0) ->
  running_for env self n (id resp) first w0 final w' ->
  n <= fuel ->
  exists tr,
    submit_and_track env self fuel s
    = (end_of env final, {| world := w'; job_id := Some (id resp) |},
       (t1 ++ tr)%list)
    /\ count is_fetch tr = S n /\ count is_sleep tr = n.
Proof.
  intros Hs Hg Hrun Hfuel. unfold submit_and_track.
  erewrite bind_done by exact Hs. rewrite track_run, Hg.
  destruct (poll_converges n fuel (id resp) first
              {| world := w0; job_id := Some (id resp) |} final w' Hrun Hfuel)
    as (tr & -> & Hf & Hsl & _).
  eexists. split; [reflexivity|]. unfold count in *. simpl.
  now rewrite Hf, Hsl.
Qed.

End Properties.

(** *** The lookup finds a job that neither runs nor succeeded *)

Lemma bind_ext {D W A B} (m : M D W A) (k1 k2 : A -> M D W B) s :
  (forall a s1, k1 a s1 = k2 a s1) -> bind m k1 s = bind m k2 s.
Proof.
  intros H. unfold bind. destruct (m s) as [[[a|e|] s1] t1]; try reflexivity.
  now rewrite H.
Qed.

(** Neither the submission step nor the polling looks a job up. *)
Lemma poll_with_find {D W} (env : Env D W) f self fuel :
  forall jid j s,
    poll (with_find env f) self fuel jid j s = poll env self fuel jid j s.
Proof.
  induction fuel as [|fuel IH]; intros jid j s; [reflexivity|].
  simpl. destruct (upper_running (state j)); [|reflexivity].
  apply bind_ext. intros _ s1.
  apply (bind_ext (sleep env 60)). intros _ s2.
  apply (bind_ext (hook_get env self jid)). intros j' s3.
  apply IH.
Qed.

Lemma submit_and_track_with_find {D W} (env : Env D W) f self fuel s :
  submit_and_track (with_find env f) self fuel s
  = submit_and_track env self fuel s.
Proof.
  unfold submit_and_track. apply (bind_ext (submit env self)).
  intros resp s1. unfold track.
  apply bind_ext. intros _ s2.
  apply (bind_ext (hook_get env self (id resp))). intros j s3.
  apply poll_with_find.
Qed.

(** C10.  When the lookup finds a job whose state ends neither in "running"
    nor in "success", the run logs the job found and then goes on exactly as
    the run of the same operator does against a control plane that differs
    only in finding no job: same calls with the same answers, same outcome,
    same final state.  It makes no cancel call, does not return at line 118,
    and its next call is the first call of the submission step. *)
Theorem failed_job_is_replaced {D W} (env : Env D W) (self : Operator D W)
    f fuel s w1 w2 job :
  create env (conn_id self) (world s) = (Ok tt, w1) ->
  find_materialization_job env (find_query self) w1 = (Ok (Some job), w2) ->
  lower_running (state job) = false ->
  lower_success (state job) = false ->
  f (find_query self) w1 = (Ok None, w2) ->
  exists o s' t,
    execute env self fuel s
    = (o, s', Create (conn_id self) (Ok tt)
              :: FindJob (find_query self) (Ok (Some job))
              :: Log (ExistingJobFound job) :: t)
    /\ execute (with_find env f) self fuel s
       = (o, s', Create (conn_id self) (Ok tt)
                 :: FindJob (find_query self) (Ok None) :: t)
    /\ Forall not_cancel t
    /\ o <> Done Skipped
    /\ exists e t', t = e :: t' /\ is_submission e = true.
Proof.
  intros Hc Hf Hr Hs Hnone.
  rewrite (execute_after_lookup env self fuel s w1 w2 (Some job) Hc Hf).
  rewrite (execute_after_lookup (with_find env f) self fuel s w1 w2 None
             Hc Hnone).
  rewrite (after_lookup_other env self fuel _ job Hr Hs).
  rewrite after_lookup_none, submit_and_track_with_find.
  pose proof (submit_and_track_no_cancel env self fuel (at_world s w2)) as Hn.
  pose proof (submit_and_track_not_skipped env self fuel (at_world s w2))
    as Hk.
  destruct (submit_and_track_first_event env self fuel (at_world s w2))
    as (e & t' & He & Hsub).
  destruct (submit_and_track env self fuel (at_world s w2)) as [[o s'] t].
  simpl in Hn, He. exists o, s', t.
  refine (conj eq_refl (conj eq_refl (conj Hn (conj _ _)))).
  - intros Ho. apply (Hk s' t). now rewrite Ho.
  - now exists e, t'.
Qed.

(** ** Concrete runs *)

(** C3 (what the code does).  The control plane reports the submitted job
    running on the first fetch, with an empty ["attempts"] list, and would
    report success on the second.  The run does not get that far: it raises
    [IndexError] at the first poll tick, after one fetch and no sleep. *)
Theorem polling_stops_on_empty_attempts :
  let run := execute (Stub.env_of Stub.no_attempt_yet)
                     (Stub.operator false None) 10 Stub.start in
  map state (Stub.answers Stub.no_attempt_yet) = ["RUNNING"; "SUCCESS"]
  /\ fst (fst run) = Raised IndexError
  /\ count is_fetch (snd run) = 1
  /\ count is_sleep (snd run) = 0.
Proof. vm_compute. repeat split. Qed.

(** The same script without the empty list runs as expected: two fetches,
    one sleep, and the return of line 151. *)
Example polling_completes_without_attempts_key :
  let script := {| Stub.existing := None;
                   Stub.answers := [Stub.job "j2" "RUNNING";
                                    Stub.job "j2" "SUCCESS"];
                   Stub.cancel_error := None;
                   Stub.created := Stub.job "j2" "RUNNING" |} in
  let run := execute (Stub.env_of script) (Stub.operator false None) 10
                     Stub.start in
  fst (fst run) = Done Completed
  /\ count is_fetch (snd run) = 2
  /\ count is_sleep (snd run) = 1.
Proof. vm_compute. repeat split. Qed.

(** C2, as stated, fails: the running job found is cancelled and replaced,
    yet no fetch is ever answered with the state "MANUALLY_CANCELLED"
    itself; the wait ends on a state that only ends in it. *)
Lemma cancel_wait_is_not_exact :
  let run := execute (Stub.env_of Stub.replace_running)
                     (Stub.operator false None) 10 Stub.start in
  lower_running "MATERIALIZATION_TASK_STATUS_RUNNING" = true
  /\ fst (fst run) = Done Completed
  /\ count is_submit (snd run) = 1
  /\ forall ws fv jid j,
       In (GetJob ws fv jid (Ok j)) (snd run) ->
       state j <> "MANUALLY_CANCELLED".
Proof.
  vm_compute. repeat split.
  intros ws fv jid j H.
  repeat (destruct H as [H | H]; [try discriminate H; injection H as <- <- <- <-; discriminate|]).
  destruct H.
Qed.

(** C5, as stated, fails: an exception raised by the cancel call leaves
    [on_kill]. *)
Lemma on_kill_lets_cancel_errors_out :
  on_kill (Stub.env_of Stub.cancel_fails) (Stub.operator false None)
          {| world := 0; job_id := Some "j2" |}
  = (Raised (External "TransportError"),
     {| world := 0; job_id := Some "j2" |},
     [Log (AttemptingToKill "j2"); Create "tecton_default" (Ok tt);
      CancelJob "my_workspace" "my_batch_feature_view" "j2"
        (Err (External "TransportError"))]).
Proof. reflexivity. Qed.

(** C7, as stated, fails beyond ASCII.  The state below is "runn", a
    dotless i (U+0131, bytes 196 177) and "ng".  Its lower case is itself
    and its upper case is "RUNNING": the test of line 93 answers that the
    job is not running, the test of line 137 that it is, so that the poll
    sleeps and fetches again instead of raising; and the state does not
    end, up to the case of its ASCII letters, in RUNNING. *)
Lemma dotless_i_splits_the_running_tests :
  let st := "runn" ++ bytes [196; 177]%N ++ "ng" in
  let env := Scenario.steady None (Stub.job "j2" "SUCCESS") in
  let op := Stub.operator false None in
  let run := poll env op 1 "j2" (Stub.job "j2" st) Stub.start in
  is_ascii st = false
  /\ lower st = st
  /\ upper st = "RUNNING"
  /\ lower_running st = false
  /\ upper_running st = true
  /\ ~ ends_ignoring_case st "RUNNING"
  /\ ~ ends_ignoring_case st "SUCCESS"
  /\ fst (fst run) = Done Completed
  /\ count is_sleep (snd run) = 1.
Proof.
  intros st env op run.
  refine (conj eq_refl (conj eq_refl (conj eq_refl (conj eq_refl
            (conj eq_refl (conj _ (conj _ (conj eq_refl eq_refl)))))))).
  - intros H. apply lower_running_spec in H. discriminate H.
  - intros H. apply lower_success_spec in H. discriminate H.
Qed.

(** *** The hypotheses of the theorems above, met on scripted runs *)

Lemma state_classification_witness :
  let env := Stub.env_of Stub.fails in
  let op := Stub.operator false None in
  is_ascii "MATERIALIZATION_TASK_STATUS_running" = true
  /\ (upper_running "MATERIALIZATION_TASK_STATUS_running" = true
      <-> ends_ignoring_case "MATERIALIZATION_TASK_STATUS_running" "RUNNING").
Proof.
  intros env op. split; [reflexivity|].
  refine (proj1 (proj2 (state_classification env op
                          "MATERIALIZATION_TASK_STATUS_running" 0 "j2" "j2"
                          None Stub.start _))).
  reflexivity.
Defined.

Lemma skip_when_already_successful_witness :
  let env := Stub.env_of Stub.already_done in
  let op := Stub.operator false None in
  lower_success (state (Stub.job "j1" "SUCCESS")) = true
  /\ allow_overwrite op = false
  /\ fst (fst (execute env op 3 Stub.start)) = Done Skipped.
Proof.
  intros env op. split; [reflexivity | split; [reflexivity|]].
  refine (f_equal (fun r => fst (fst r))
            (proj1 (skip_when_already_successful env op 3 Stub.start 0 0
                      (Stub.job "j1" "SUCCESS") _ _ _ _)));
    reflexivity.
Defined.

Lemma cancel_then_replace_witness :
  let env := Stub.env_of Stub.replace_running in
  let op := Stub.operator false None in
  let run := execute env op 10 Stub.start in
  lower_running "MATERIALIZATION_TASK_STATUS_RUNNING" = true
  /\ count is_cancel (snd run) = 1
  /\ fst (fst run) <> Done Skipped.
Proof.
  intros env op run. split; [reflexivity|].
  assert (H := cancel_then_replace env op 10 Stub.start 0 0
                 (Stub.job "j1" "MATERIALIZATION_TASK_STATUS_RUNNING")
                 (fst (fst run)) (snd (fst run)) (snd run)
                 eq_refl eq_refl eq_refl eq_refl).
  exact (conj (proj1 (proj1 H)) (proj1 (proj2 (proj2 H)))).
Defined.

Lemma failure_raises_witness :
  let env := Stub.env_of Stub.fails in
  let op := Stub.operator false None in
  let run := execute env op 10 Stub.start in
  let submitted := SubmitJob (submit_request op)
                     (Ok (Stub.job "j2" "RUNNING")) in
  let fetch := fun st =>
    GetJob "my_workspace" "my_batch_feature_view" "j2"
      (Ok (Stub.job "j2" st)) in
  let pre := [Create "tecton_default" (Ok tt);
              FindJob (find_query op) (Ok None);
              submitted; fetch "RUNNING";
              Log NoAttemptLaunched; Sleep 60] in
  snd run = (pre ++ [fetch "ERROR"])%list
  /\ In submitted pre
  /\ is_submission submitted = true
  /\ upper_running "ERROR" = false
  /\ upper_success "ERROR" = false
  /\ fst (fst run)
     = Raised (Exception (final_message env (Stub.job "j2" "ERROR"))).
Proof.
  intros env op run submitted fetch pre.
  refine (conj eq_refl (conj _ (conj eq_refl (conj eq_refl
            (conj eq_refl _))))).
  - right. right. left. reflexivity.
  - refine (proj1 (failure_raises env op 10 Stub.start
                     (fst (fst run)) (snd (fst run)) pre
                     "my_workspace" "my_batch_feature_view" "j2"
                     (Stub.job "j2" "ERROR") [] eq_refl _ eq_refl eq_refl)).
    exists submitted. split; [|reflexivity].
    right. right. left. reflexivity.
Defined.

Lemma on_kill_behaviour_witness :
  let op := Stub.operator false None in
  let refused := {| create := fun _ w => (Err (External "NoConnection"), w);
                    find_materialization_job :=
                      find_materialization_job (Stub.env_of Stub.fails);
                    get_materialization_job :=
                      get_materialization_job (Stub.env_of Stub.fails);
                    cancel_materialization_job :=
                      cancel_materialization_job (Stub.env_of Stub.fails);
                    submit_materialization_job :=
                      submit_materialization_job (Stub.env_of Stub.fails);
                    get_dataframe_info :=
                      get_dataframe_info (Stub.env_of Stub.fails);
                    ingest_dataframe :=
                      ingest_dataframe (Stub.env_of Stub.fails);
                    upload_df_pandas :=
                      upload_df_pandas (Stub.env_of Stub.fails);
                    time_sleep := time_sleep (Stub.env_of Stub.fails);
                    format_job := format_job (Stub.env_of Stub.fails) |} in
  let killed := {| world := 0; job_id := Some "j2" |} in
  on_kill (Stub.env_of Stub.cancel_fails) op Stub.start
  = (Done tt, Stub.start, [Log NoJobStarted])
  /\ on_kill refused op killed
     = (Raised (External "NoConnection"), killed,
        [Log (AttemptingToKill "j2");
         Create "tecton_default" (Err (External "NoConnection"))])
  /\ fst (fst (on_kill (Stub.env_of Stub.cancel_fails) op killed))
     = Raised (External "TransportError")
  /\ fst (fst (on_kill (Stub.env_of Stub.fails) op killed)) = Done tt.
Proof.
  intros op refused killed. refine (conj _ (conj _ (conj _ _))).
  - refine (proj1 (proj2 (on_kill_behaviour (Stub.env_of Stub.cancel_fails)
                            op Stub.start)) _).
    reflexivity.
  - refine (proj1 (proj2 (proj2 (on_kill_behaviour refused op killed)))
              "j2" (External "NoConnection") 0 _ _ _);
      try reflexivity.
    discriminate.
  - refine (f_equal (fun r => fst (fst r))
              (proj2 (proj2 (proj2 (on_kill_behaviour
                                      (Stub.env_of Stub.cancel_fails) op
                                      killed)))
                 "j2" 0 (Err (External "TransportError")) 0 _ _ _ _));
      try reflexivity.
    discriminate.
  - refine (f_equal (fun r => fst (fst r))
              (proj2 (proj2 (proj2 (on_kill_behaviour
                                      (Stub.env_of Stub.fails) op killed)))
                 "j2" 0 (Ok tt) 0 _ _ _ _));
      try reflexivity.
    discriminate.
Defined.

Lemma ingest_path_wiring_witness :
  let env := Stub.env_of Stub.fails in
  let op := Stub.operator false (Some Stub.producer) in
  let run := execute env op 10 Stub.start in
  create env (conn_id op) (world Stub.start) = (Ok tt, 0)
  /\ find_materialization_job env (find_query op) 0 = (Ok None, 0)
  /\ handle_existing env op 10 None (at_world Stub.start 0)
     = (Done false, Stub.start, [])
  /\ exists after,
       snd run
       = (Create "tecton_default" (Ok tt)
          :: FindJob (find_query op) (Ok None)
          :: [] ++ [GetDataframeInfo "my_batch_feature_view" "my_workspace"
                      (Ok {| df_path := "s3://staging/df.parquet";
                             signed_url_for_df_upload :=
                               "https://staging/upload?sig=1" |});
                    Generate (Ok 42);
                    Upload "https://staging/upload?sig=1" 42 (Ok tt);
                    IngestDataframe "my_batch_feature_view"
                      "s3://staging/df.parquet" "my_workspace"
                      (Ok (Stub.job "j2" "RUNNING"))]
             ++ after)%list.
Proof.
  intros env op run.
  refine (conj eq_refl (conj eq_refl (conj eq_refl _))).
  destruct (ingest_path_wiring env op 10 Stub.start 0 None 0 Stub.start []
              (fst (fst run)) (snd (fst run)) (snd run)
              eq_refl eq_refl eq_refl eq_refl)
    as (steps & after & E & _ & _ & Hcalls & _).
  exists after.
  destruct (Hcalls Stub.producer eq_refl) as (ri & wa & E1 & H1).
  injection E1 as <- <-.
  destruct H1 as (rd & wb & E2 & H2). injection E2 as <- <-.
  destruct H2 as (ru & wc & E3 & H3). injection E3 as <- <-.
  destruct H3 as (rj & wd & E4 & H4). injection E4 as <- <-.
  rewrite E, H4. reflexivity.
Defined.

Lemma direct_submission_witness :
  let env := Stub.env_of Stub.fails in
  let op := Stub.operator false None in
  let run := execute env op 10 Stub.start in
  df_generator op = None
  /\ create env (conn_id op) (world Stub.start) = (Ok tt, 0)
  /\ find_materialization_job env (find_query op) 0 = (Ok None, 0)
  /\ handle_existing env op 10 None (at_world Stub.start 0)
     = (Done false, Stub.start, [])
  /\ count is_submit (snd run) = 1
  /\ exists after,
       snd run
       = (Create "tecton_default" (Ok tt)
          :: FindJob (find_query op) (Ok None)
          :: [] ++ SubmitJob
                     {| sr_workspace := "my_workspace";
                        sr_feature_view := "my_batch_feature_view";
                        sr_online := true;
                        sr_offline := true;
                        sr_start_time := TimeStr "{{ data_interval_start }}";
                        sr_end_time := TimeStr "{{ data_interval_end }}";
                        sr_allow_overwrite := false;
                        sr_tecton_managed_retries := false |}
                     (Ok (Stub.job "j2" "RUNNING"))
             :: after)%list.
Proof.
  intros env op run.
  refine (conj eq_refl (conj eq_refl (conj eq_refl (conj eq_refl _)))).
  destruct (direct_submission env op 10 Stub.start 0 None 0 Stub.start []
              (fst (fst run)) (snd (fst run)) (snd run)
              eq_refl eq_refl eq_refl eq_refl eq_refl)
    as (r & w3 & after & Hr & E & Hcount & _).
  split; [exact Hcount|].
  exists after. rewrite E. injection Hr as <- _. reflexivity.
Defined.

Lemma failed_job_is_replaced_witness :
  let env := Stub.env_of Stub.retry_failed in
  let op := Stub.operator false None in
  let no_job := fun (_ : FindQuery) (w : nat) =>
                  (@Ok (option Job) None, w) in
  lower_running "ERROR" = false
  /\ lower_success "ERROR" = false
  /\ exists o s' t,
       execute env op 10 Stub.start
       = (o, s', Create (conn_id op) (Ok tt)
                 :: FindJob (find_query op) (Ok (Some (Stub.job "j1" "ERROR")))
                 :: Log (ExistingJobFound (Stub.job "j1" "ERROR")) :: t)
       /\ execute (with_find env no_job) op 10 Stub.start
          = (o, s', Create (conn_id op) (Ok tt)
                    :: FindJob (find_query op) (Ok None) :: t)
       /\ Forall not_cancel t
       /\ o <> Done Skipped
       /\ exists e t', t = e :: t' /\ is_submission e = true.
Proof.
  intros env op no_job. split; [reflexivity | split; [reflexivity|]].
  refine (failed_job_is_replaced env op no_job 10 Stub.start 0 0
            (Stub.job "j1" "ERROR") _ _ _ _ _);
    reflexivity.
Defined.

(** ** Further properties of the operator *)

Section Further.

Context {DataFrame W : Type}.
Variable env : Env DataFrame W.
Variable self : Operator DataFrame W.

Local Abbreviation M := (M DataFrame W).
Local Abbreviation event := (event DataFrame).

Ltac by_parts :=
  repeat first
    [ apply emits_bind; [|intros ?]
    | apply emits_ret | apply emits_raise | apply emits_out_of_fuel
    | apply emits_set_job_id | apply emits_log | apply emits_sleep
    | apply emits_call; intros ? ].

(** *** The events a run can produce *)

Lemma wait_cancelled_alphabet fuel jid :
  emits_only (run_event self) (wait_cancelled env self fuel jid).
Proof.
  induction fuel as [|fuel IH]; simpl; [by_parts|].
  unfold hook_get. apply emits_bind; [by_parts; constructor|]. intros j.
  destruct (lower_cancelled (state j)); [by_parts|].
  apply emits_bind; [by_parts; constructor|]. intros _.
  apply emits_bind; [by_parts; constructor|]. intros _. exact IH.
Qed.

Lemma poll_alphabet fuel jid job_result :
  emits_only (run_event self) (poll env self fuel jid job_result).
Proof.
  revert job_result. induction fuel as [|fuel IH]; intros job_result; simpl.
  - destruct (upper_running (state job_result)); [by_parts|].
    destruct (upper_success (state job_result)); by_parts.
  - destruct (upper_running (state job_result)).
    + apply emits_bind; [apply log_progress_quiet; constructor|]. intros _.
      apply emits_bind; [by_parts; constructor|]. intros _.
      unfold hook_get. apply emits_bind; [by_parts; constructor|]. intros j.
      apply IH.
    + destruct (upper_success (state job_result)); by_parts.
Qed.

Lemma submit_and_track_alphabet fuel :
  emits_only (run_event self) (submit_and_track env self fuel).
Proof.
  unfold submit_and_track. apply emits_bind.
  - unfold submit, ingest_feature_table_with_pandas_df.
    destruct (df_generator self) as [g|] eqn:Hg.
    + by_parts; constructor; congruence.
    + by_parts. now constructor.
  - intros resp. unfold track, hook_get. by_parts; try constructor.
    apply poll_alphabet.
Qed.

Lemma execute_alphabet fuel :
  emits_only (run_event self) (execute env self fuel).
Proof.
  unfold execute, hook_create.
  apply emits_bind; [by_parts; constructor|]. intros _.
  apply emits_bind; [by_parts; constructor|]. intros found.
  unfold after_lookup. apply emits_bind.
  - unfold handle_existing, hook_cancel. destruct found as [j|]; [|by_parts].
    apply emits_bind; [by_parts; constructor|]. intros _.
    destruct (lower_running (state j)).
    + by_parts; try constructor. apply wait_cancelled_alphabet.
    + destruct (lower_success (state j)); [|by_parts].
      destruct (allow_overwrite self); by_parts; constructor.
  - intros [|]; [by_parts | apply submit_and_track_alphabet].
Qed.

(** *** Exceptions and the trace *)

Lemma clean_retype {A B} (o : outcome A) (o' : outcome B) (tr : list event) :
  (forall x, o' = Raised x -> o = Raised x) ->
  (forall x, o = Raised x -> o' = Raised x) ->
  clean env o tr -> clean env o' tr.
Proof.
  intros H1 H2 [[Ha Hx] | (pre & ev & x & -> & Hp & Hf & Ho)].
  - left. split; [exact Ha|]. intros x Hr. apply Hx. now apply H1.
  - right. exists pre, ev, x. repeat split; try assumption. now apply H2.
Qed.

Lemma tidy_ret {A} (a : A) : tidy env (@ret DataFrame W A a).
Proof. intros s. left. split; [constructor | discriminate]. Qed.

Lemma tidy_out_of_fuel {A} : tidy env (@out_of_fuel DataFrame W A).
Proof. intros s. left. split; [constructor | discriminate]. Qed.

Lemma tidy_raise_index {A} : tidy env (@raise DataFrame W A IndexError).
Proof.
  intros s. left. split; [constructor|]. intros x [= <-]. now left.
Qed.

Lemma tidy_raise_final {A} j :
  tidy env (@raise DataFrame W A (Exception (final_message env j))).
Proof.
  intros s. left. split; [constructor|]. intros x [= <-]. right. now exists j.
Qed.

Lemma tidy_log m : tidy env (@log DataFrame W m).
Proof. intros s. left. split; [now repeat constructor | discriminate]. Qed.

Lemma tidy_sleep secs : tidy env (sleep env secs).
Proof. intros s. left. split; [now repeat constructor | discriminate]. Qed.

Lemma tidy_set_job_id j : tidy env (@set_job_id DataFrame W j).
Proof. intros s. left. split; [constructor | discriminate]. Qed.

Lemma tidy_get_job_id : tidy env (@get_job_id DataFrame W).
Proof. intros s. left. split; [constructor | discriminate]. Qed.

Lemma tidy_call {A} (f : W -> result A * W) (ev : result A -> event) :
  (forall a, failed_with (ev (Ok a)) = None) ->
  (forall x, failed_with (ev (Err x)) = Some x) ->
  tidy env (call f ev).
Proof.
  intros Hok Herr s. unfold call. destruct (f (world s)) as [[a|x] w]; simpl.
  - left. split; [repeat constructor; apply Hok | discriminate].
  - right. exists [], (ev (Err x)), x. repeat split; [constructor | apply Herr].
Qed.

Lemma tidy_bind {A B} (m : M A) (k : A -> M B) :
  tidy env m -> (forall a, tidy env (k a)) -> tidy env (bind m k).
Proof.
  intros Hm Hk s. unfold bind. specialize (Hm s).
  destruct (m s) as [[[a|e|] s1] t1]; simpl in *.
  - destruct Hm as [[Ha _] | (pre & ev & x & _ & _ & _ & Ho)];
      [|discriminate].
    specialize (Hk a s1). destruct (k a s1) as [[o2 s2] t2]. simpl in *.
    destruct Hk as [[Hb Hx] | (pre & ev & x & -> & Hp & Hf & Ho)].
    + left. split; [now apply Forall_app | exact Hx].
    + right. exists (t1 ++ pre)%list, ev, x.
      repeat split; try assumption.
      * now rewrite app_assoc.
      * now apply Forall_app.
  - eapply clean_retype; [| |exact Hm]; now intros x [= <-].
  - eapply clean_retype; [| |exact Hm]; discriminate.
Qed.

Ltac tidy_parts :=
  repeat first
    [ apply tidy_bind; [|intros ?]
    | apply tidy_ret | apply tidy_out_of_fuel | apply tidy_raise_index
    | apply tidy_raise_final | apply tidy_log | apply tidy_sleep
    | apply tidy_set_job_id | apply tidy_get_job_id
    | apply tidy_call; [intros ?; reflexivity | intros ?; reflexivity] ].

Lemma wait_cancelled_tidy fuel jid :
  tidy env (wait_cancelled env self fuel jid).
Proof.
  induction fuel as [|fuel IH]; simpl; [tidy_parts|].
  unfold hook_get. apply tidy_bind; [tidy_parts|]. intros j.
  destruct (lower_cancelled (state j)); [tidy_parts|].
  apply tidy_bind; [tidy_parts|]. intros _.
  apply tidy_bind; [tidy_parts|]. intros _. exact IH.
Qed.

Lemma poll_tidy fuel jid job_result :
  tidy env (poll env self fuel jid job_result).
Proof.
  revert job_result. induction fuel as [|fuel IH]; intros job_result; simpl.
  - destruct (upper_running (state job_result)); [tidy_parts|].
    destruct (upper_success (state job_result)); tidy_parts.
  - destruct (upper_running (state job_result)).
    + apply tidy_bind.
      { unfold log_progress. destruct (attempts job_result) as [atts|];
          [destruct (last_item atts)|]; tidy_parts. }
      intros _. apply tidy_bind; [tidy_parts|]. intros _.
      unfold hook_get. apply tidy_bind; [tidy_parts|]. intros j. apply IH.
    + destruct (upper_success (state job_result)); tidy_parts.
Qed.

Lemma execute_tidy fuel : tidy env (execute env self fuel).
Proof.
  unfold execute, hook_create. apply tidy_bind; [tidy_parts|]. intros _.
  apply tidy_bind; [tidy_parts|]. intros found.
  unfold after_lookup. apply tidy_bind.
  - unfold handle_existing, hook_cancel. destruct found as [j|]; [|tidy_parts].
    apply tidy_bind; [tidy_parts|]. intros _.
    destruct (lower_running (state j)).
    + tidy_parts. apply wait_cancelled_tidy.
    + destruct (lower_success (state j)); [|tidy_parts].
      destruct (allow_overwrite self); tidy_parts.
  - intros [|]; [tidy_parts|].
    unfold submit_and_track. apply tidy_bind.
    + unfold submit, ingest_feature_table_with_pandas_df.
      destruct (df_generator self); tidy_parts.
    + intros resp. unfold track, hook_get. tidy_parts. apply poll_tidy.
Qed.

Lemma on_kill_tidy : tidy env (on_kill env self).
Proof.
  unfold on_kill, hook_create, hook_cancel.
  apply tidy_bind; [tidy_parts|]. intros j.
  destruct (truthy j); tidy_parts.
Qed.

Lemma clean_error_last {A} (o : outcome A) (tr pre post : list event) ev x :
  clean env o tr -> tr = (pre ++ ev :: post)%list ->
  failed_with ev = Some x ->
  post = [] /\ o = Raised x.
Proof.
  set (fails := fun e : event =>
                  match failed_with e with Some _ => true | None => false end).
  assert (Hfails : forall l, Forall answered l ->
                             Forall (fun e => fails e = false) l).
  { intros l Hl. eapply Forall_impl; [|exact Hl]. intros a Ha.
    unfold fails. now rewrite Ha. }
  assert (Hev : forall e y, failed_with e = Some y -> fails e = true).
  { intros e y He. unfold fails. now rewrite He. }
  intros [[Ha _] | (pre' & ev' & x' & -> & Hp & Hf & Ho)] Htr Hx.
  - exfalso.
    exact (no_hit fails _ _ _ _ (Hfails _ Ha) Htr (Hev _ _ Hx)).
  - destruct (first_hit fails _ _ _ _ _ (Hfails _ Hp) Htr (Hev _ _ Hx))
      as (q & _ & Hq).
    destruct q as [|y q]; simpl in Hq.
    + injection Hq as -> <-. split; [reflexivity|]. congruence.
    + injection Hq as _ Hq. destruct q; discriminate.
Qed.

Lemma clean_raised {A} (o : outcome A) (tr : list event) x :
  clean env o tr -> o = Raised x ->
  (exists ev, final_event tr = Some ev /\ failed_with ev = Some x)
  \/ (Forall answered tr
      /\ (x = IndexError \/ exists j, x = Exception (final_message env j))).
Proof.
  intros [[Ha Hx] | (pre & ev & x' & -> & Hp & Hf & Ho)] Hr.
  - right. split; [exact Ha | now apply Hx].
  - left. exists ev. rewrite final_event_app. simpl. split; [reflexivity|].
    congruence.
Qed.

(** *** What a run can and cannot do *)

(** X1.  Every event of a run of [execute] has one of the forms of
    [run_event]. *)
Theorem run_events_are_the_operators fuel s :
  Forall (run_event self) (snd (execute env self fuel s)).
Proof. apply execute_alphabet. Qed.

(** X2.  The job looked up and the job submitted are the same logical job: a
    direct submit in a run carries the workspace, feature view, flags and
    times of the run's lookup, which asked for a "batch" job; an ingest in a
    run follows a lookup for an "ingest" job of the same feature view and
    workspace. *)
Theorem lookup_matches_submission fuel s q r e :
  In (FindJob q r) (snd (execute env self fuel s)) ->
  In e (snd (execute env self fuel s)) ->
  match e with
  | SubmitJob req _ =>
      fq_job_type q = "batch"
      /\ fq_workspace q = sr_workspace req
      /\ fq_feature_view q = sr_feature_view req
      /\ fq_online q = sr_online req /\ fq_offline q = sr_offline req
      /\ fq_start_time q = sr_start_time req
      /\ fq_end_time q = sr_end_time req
  | IngestDataframe fv _ ws _ =>
      fq_job_type q = "ingest"
      /\ fq_workspace q = ws /\ fq_feature_view q = fv
  | _ => True
  end.
Proof.
  intros Hq He.
  pose proof (execute_alphabet fuel s) as H.
  rewrite Forall_forall in H.
  pose proof (H _ Hq) as Rq. pose proof (H _ He) as Re.
  inversion Rq; subst. inversion Re; subst; try exact I.
  - unfold find_query, submit_request. simpl.
    match goal with Hg : df_generator self = None |- _ => rewrite Hg end.
    now repeat split.
  - unfold find_query. simpl.
    destruct (df_generator self); [now repeat split | congruence].
Qed.

(** X3.  A call of [execute] that is answered with an exception is the last
    event of the run, and the run raises that exception: nothing is caught,
    nothing is retried. *)
Theorem failed_call_ends_run fuel s o s' tr pre ev post x :
  execute env self fuel s = (o, s', tr) ->
  tr = (pre ++ ev :: post)%list ->
  failed_with ev = Some x ->
  post = [] /\ o = Raised x.
Proof.
  intros H Htr Hx. pose proof (execute_tidy fuel s) as Hc.
  rewrite H in Hc. simpl in Hc.
  exact (clean_error_last _ _ _ _ _ _ Hc Htr Hx).
Qed.

(** X4.  [on_kill] has no loop and always ends; it never changes
    [self.job_id]; it makes at most one cancel call, and only for the job id
    the operator holds, in the operator's workspace and feature view; a call
    of it that is answered with an exception is its last event and is what it
    raises, so that a failure to create the hook means that no cancel is sent. *)
Theorem on_kill_is_one_cancel s o s' tr :
  on_kill env self s = (o, s', tr) ->
  o <> OutOfFuel
  /\ job_id s' = job_id s
  /\ count is_cancel tr <= 1
  /\ (forall ws fv jid r,
        In (CancelJob ws fv jid r) tr ->
        job_id s = Some jid /\ jid <> ""
        /\ ws = workspace self /\ fv = feature_view self
        /\ In (Create (conn_id self) (Ok tt)) tr)
  /\ (forall pre ev post x,
        tr = (pre ++ ev :: post)%list -> failed_with ev = Some x ->
        post = [] /\ o = Raised x).
Proof.
  intros H.
  assert (Hlast : forall pre ev post x,
             tr = (pre ++ ev :: post)%list -> failed_with ev = Some x ->
             post = [] /\ o = Raised x).
  { intros pre ev post x Htr Hx. pose proof (on_kill_tidy s) as Hc.
    rewrite H in Hc. simpl in Hc.
    exact (clean_error_last _ _ _ _ _ _ Hc Htr Hx). }
  refine ((fun P => conj (proj1 P) (conj (proj1 (proj2 P))
             (conj (proj1 (proj2 (proj2 P)))
                (conj (proj2 (proj2 (proj2 P))) Hlast)))) _).
  clear Hlast. revert H. unfold on_kill, bind at 1, get_job_id.
  destruct (job_id s) as [jid|] eqn:Hj; simpl.
  2:{ intros [= <- <- <-]. repeat split; try discriminate; try assumption.
      - unfold count. simpl. lia.
      - destruct H as [H|[]]. discriminate.
      - destruct H as [H|[]]. discriminate.
      - destruct H as [H|[]]. discriminate.
      - destruct H as [H|[]]. discriminate.
      - destruct H as [H|[]]. discriminate. }
  destruct (String.eqb_spec jid "") as [->|Hne]; simpl.
  { intros [= <- <- <-]. repeat split; try discriminate; try assumption.
    - unfold count. simpl. lia.
    - destruct H as [H|[]]. discriminate.
    - destruct H as [H|[]]. discriminate.
    - destruct H as [H|[]]. discriminate.
    - destruct H as [H|[]]. discriminate.
    - destruct H as [H|[]]. discriminate. }
  unfold bind, log, hook_create, hook_cancel, call. simpl.
  destruct (create env (conn_id self) (world s)) as [[[]|x] w1]; simpl.
  - destruct (cancel_materialization_job env (workspace self)
                (feature_view self) jid w1) as [[[]|x] w2]; simpl;
      intros [= <- <- <-];
      (split; [discriminate|]); (split; [exact Hj|]);
      (split; [unfold count; simpl; lia|]);
      intros ws fv j r Hin; simpl in Hin;
      repeat (destruct Hin as [Hin|Hin]; try discriminate Hin);
      try contradiction;
      injection Hin as <- <- <- _;
      (split; [reflexivity|]); (split; [exact Hne|]);
      (split; [reflexivity|]); (split; [reflexivity|]); simpl; tauto.
  - intros [= <- <- <-].
    split; [discriminate|]. split; [exact Hj|].
    split; [unfold count; simpl; lia|].
    intros ws fv j r Hin. simpl in Hin.
    repeat (destruct Hin as [Hin|Hin]; try discriminate Hin).
    contradiction.
Qed.

(** *** The job a run creates and [self.job_id] *)

Lemma idle_ret {A} (a : A) : idle (@ret DataFrame W A a).
Proof. intros s. split; [reflexivity | constructor]. Qed.

Lemma idle_raise {A} e : idle (@raise DataFrame W A e).
Proof. intros s. split; [reflexivity | constructor]. Qed.

Lemma idle_out_of_fuel {A} : idle (@out_of_fuel DataFrame W A).
Proof. intros s. split; [reflexivity | constructor]. Qed.

Lemma idle_log m : idle (@log DataFrame W m).
Proof. intros s. split; [reflexivity | now repeat constructor]. Qed.

Lemma idle_sleep secs : idle (sleep env secs).
Proof. intros s. split; [reflexivity | now repeat constructor]. Qed.

Lemma idle_call {A} (f : W -> result A * W) (ev : result A -> event) :
  (forall r, creation_answer (ev r) = None) -> idle (call f ev).
Proof.
  intros H s. unfold call. destruct (f (world s)) as [r w]. simpl.
  split; [reflexivity | now repeat constructor].
Qed.

Lemma idle_bind {A B} (m : M A) (k : A -> M B) :
  idle m -> (forall a, idle (k a)) -> idle (bind m k).
Proof.
  intros Hm Hk s. unfold bind. destruct (Hm s) as [Hj Hc].
  destruct (m s) as [[[a|e|] s1] t1]; simpl in *; try (now split).
  destruct (Hk a s1) as [Hj2 Hc2]. destruct (k a s1) as [[o2 s2] t2].
  simpl in *. split; [congruence | now apply Forall_app].
Qed.

Ltac idle_parts :=
  repeat first
    [ apply idle_bind; [|intros ?]
    | apply idle_ret | apply idle_raise | apply idle_out_of_fuel
    | apply idle_log | apply idle_sleep
    | apply idle_call; intros ?; reflexivity ].

Lemma wait_cancelled_idle fuel jid : idle (wait_cancelled env self fuel jid).
Proof.
  induction fuel as [|fuel IH]; simpl; [idle_parts|].
  unfold hook_get. apply idle_bind; [idle_parts|]. intros j.
  destruct (lower_cancelled (state j)); [idle_parts|].
  apply idle_bind; [idle_parts|]. intros _.
  apply idle_bind; [idle_parts|]. intros _. exact IH.
Qed.

Lemma handle_existing_idle fuel found :
  idle (handle_existing env self fuel found).
Proof.
  unfold handle_existing, hook_cancel. destruct found as [j|]; [|idle_parts].
  apply idle_bind; [idle_parts|]. intros _.
  destruct (lower_running (state j)).
  - idle_parts. apply wait_cancelled_idle.
  - destruct (lower_success (state j)); [|idle_parts].
    destruct (allow_overwrite self); idle_parts.
Qed.

Lemma poll_idle fuel jid job_result :
  idle (poll env self fuel jid job_result).
Proof.
  revert job_result. induction fuel as [|fuel IH]; intros job_result; simpl.
  - destruct (upper_running (state job_result)); [idle_parts|].
    destruct (upper_success (state job_result)); idle_parts.
  - destruct (upper_running (state job_result)).
    + apply idle_bind.
      { unfold log_progress. destruct (attempts job_result) as [atts|];
          [destruct (last_item atts)|]; idle_parts. }
      intros _. apply idle_bind; [idle_parts|]. intros _.
      unfold hook_get. apply idle_bind; [idle_parts|]. intros j. apply IH.
    + destruct (upper_success (state job_result)); idle_parts.
Qed.

Lemma created_none (tr : list event) :
  Forall (fun e => creation_answer e = None) tr -> created tr = None.
Proof.
  induction 1 as [|e tr He _ IH]; simpl; [reflexivity|]. now rewrite He.
Qed.

Lemma created_app_none (t1 t2 : list event) :
  Forall (fun e => creation_answer e = None) t1 ->
  created (t1 ++ t2) = created t2.
Proof.
  induction 1 as [|e tr He _ IH]; simpl; [reflexivity|]. now rewrite He.
Qed.

Lemma created_app_some (t1 t2 : list event) j :
  created t1 = Some j -> created (t1 ++ t2) = Some j.
Proof.
  induction t1 as [|e t1 IH]; simpl; [discriminate|].
  destruct (creation_answer e); [easy | exact IH].
Qed.

Lemma not_submission_no_creation (tr : list event) :
  Forall not_submission tr ->
  Forall (fun e => creation_answer e = None) tr.
Proof.
  intros H. eapply Forall_impl; [|exact H]. intros e He.
  destruct e; try reflexivity; discriminate.
Qed.

Lemma idle_records {A} (m : M A) : idle m -> records m.
Proof.
  intros H s. destruct (H s) as [Hj Hc]. now rewrite (created_none _ Hc).
Qed.

Lemma records_bind {A B} (m : M A) (k : A -> M B) :
  idle m -> (forall a, records (k a)) -> records (bind m k).
Proof.
  intros Hm Hk s. unfold bind. destruct (Hm s) as [Hj Hc].
  destruct (m s) as [[[a|e|] s1] t1]; simpl in *;
    try (now rewrite (created_none _ Hc)).
  specialize (Hk a s1). destruct (k a s1) as [[o2 s2] t2]. simpl in *.
  rewrite (created_app_none _ _ Hc), Hk. now rewrite Hj.
Qed.

(** The submission step: [self.job_id] is untouched, and a job is created
    exactly when the step returns, by its last call. *)
Lemma submit_creates s :
  job_id (snd (fst (submit env self s))) = job_id s
  /\ match fst (fst (submit env self s)) with
     | Done resp =>
         exists before ev,
           snd (submit env self s) = (before ++ [ev])%list
           /\ Forall (fun e => creation_answer e = None) before
           /\ creation_answer ev = Some resp
     | _ => Forall (fun e => creation_answer e = None)
              (snd (submit env self s))
     end.
Proof.
  unfold submit, ingest_feature_table_with_pandas_df.
  destruct (df_generator self) as [g|].
  - unfold bind, call. simpl.
    destruct get_dataframe_info as [[info|e] w1]; simpl;
      [|split; [reflexivity | now repeat constructor]].
    destruct (g w1) as [[df|e] w2]; simpl;
      [|split; [reflexivity | now repeat constructor]].
    destruct upload_df_pandas as [[[]|e] w3]; simpl;
      [|split; [reflexivity | now repeat constructor]].
    destruct ingest_dataframe as [[resp|e] w4]; simpl;
      [|split; [reflexivity | now repeat constructor]].
    split; [reflexivity|].
    exists [GetDataframeInfo (feature_view self) (workspace self) (Ok info);
            Generate (Ok df);
            Upload (signed_url_for_df_upload info) df (Ok tt)],
      (IngestDataframe (feature_view self) (df_path info) (workspace self)
         (Ok resp)).
    now repeat constructor.
  - unfold call.
    destruct submit_materialization_job as [[resp|e] w1]; simpl;
      [|split; [reflexivity | now repeat constructor]].
    split; [reflexivity|].
    exists [], (SubmitJob (submit_request self) (Ok resp)).
    now repeat constructor.
Qed.

(** After the submission step, the only calls are fetches of the job
    created. *)
Lemma track_only_fetches fuel resp :
  emits_only
    (fun e => other_call (workspace self) (feature_view self) (id resp) e
              = false)
    (track env self fuel resp).
Proof.
  assert (Hget : forall r,
             other_call (D := DataFrame) (workspace self) (feature_view self)
               (id resp)
               (GetJob (workspace self) (feature_view self) (id resp) r)
             = false).
  { intros r. simpl. now rewrite !String.eqb_refl. }
  assert (Hpoll : forall fuel j,
             emits_only
               (fun e => other_call (workspace self) (feature_view self)
                           (id resp) e = false)
               (poll env self fuel (id resp) j)).
  { clear fuel. induction fuel as [|fuel IH]; intros j; simpl.
    - destruct (upper_running (state j)); [by_parts|].
      destruct (upper_success (state j)); by_parts.
    - destruct (upper_running (state j)).
      + apply emits_bind; [apply log_progress_quiet; reflexivity|].
        intros _. apply emits_bind; [by_parts; reflexivity|]. intros _.
        unfold hook_get. apply emits_bind; [by_parts; apply Hget|].
        intros j'. apply IH.
      + destruct (upper_success (state j)); by_parts. }
  unfold track, hook_get.
  apply emits_bind; [by_parts|]. intros _.
  apply emits_bind; [by_parts; apply Hget|]. intros j. apply Hpoll.
Qed.

Lemma track_keeps_id fuel resp s :
  job_id (snd (fst (track env self fuel resp s))) = Some (id resp)
  /\ Forall (fun e => creation_answer e = None)
       (snd (track env self fuel resp s)).
Proof.
  rewrite track_run. destruct get_materialization_job as [[j|e] w1].
  - destruct (poll_idle fuel (id resp) j
                {| world := w1; job_id := Some (id resp) |}) as [Hj Hc].
    destruct poll as [[o s'] t]. simpl in *.
    split; [exact Hj | now constructor].
  - simpl. split; [reflexivity | now repeat constructor].
Qed.

Lemma submit_and_track_records fuel :
  records (submit_and_track env self fuel).
Proof.
  intros s. unfold submit_and_track, bind.
  destruct (submit_creates s) as [Hj Hc].
  destruct (submit env self s) as [[[resp|e|] s1] t1]; simpl in *;
    try (now rewrite (created_none _ Hc)).
  destruct Hc as (before & ev & -> & Hb & Hev).
  destruct (track_keeps_id fuel resp s1) as [Hid Hnone].
  destruct (track env self fuel resp s1) as [[o s2] t2]. simpl in *.
  rewrite <- app_assoc, (created_app_none _ _ Hb). simpl.
  now rewrite Hev.
Qed.

Lemma execute_records fuel : records (execute env self fuel).
Proof.
  unfold execute, hook_create.
  apply records_bind; [idle_parts|]. intros _.
  apply records_bind; [idle_parts|]. intros found.
  unfold after_lookup. apply records_bind; [apply handle_existing_idle|].
  intros [|]; [apply idle_records; idle_parts|].
  apply submit_and_track_records.
Qed.

(** X5.  After a run of [execute], [self.job_id] is the id of the job the run
    created, as soon as the submit or ingest call has returned and whatever
    happens afterwards; a run that created no job leaves [self.job_id] as it
    was. In particular the wait for the cancellation of an older job does not
    touch it. *)
Theorem job_id_is_the_created_job fuel s :
  job_id (snd (fst (execute env self fuel s)))
  = match created (snd (execute env self fuel s)) with
    | Some resp => Some (id resp)
    | None => job_id s
    end.
Proof. apply execute_records. Qed.

(** *** How a run begins *)

Lemma execute_inv fuel s o s' tr :
  execute env self fuel s = (o, s', tr) ->
  (exists x, tr = [Create (conn_id self) (Err x)] /\ o = Raised x)
  \/ (exists x,
        tr = [Create (conn_id self) (Ok tt);
              FindJob (find_query self) (Err x)] /\ o = Raised x)
  \/ (exists found w1 w2 t,
        create env (conn_id self) (world s) = (Ok tt, w1)
        /\ find_materialization_job env (find_query self) w1 = (Ok found, w2)
        /\ after_lookup env self fuel found (at_world s w2) = (o, s', t)
        /\ tr = Create (conn_id self) (Ok tt)
                :: FindJob (find_query self) (Ok found) :: t).
Proof.
  destruct (create env (conn_id self) (world s)) as [[[]|x] w1] eqn:Hc.
  2:{ unfold execute, hook_create.
      erewrite bind_raised by (unfold call; rewrite Hc; reflexivity).
      intros [= <- <- <-]. left. now exists x. }
  destruct (find_materialization_job env (find_query self) w1)
    as [[found|x] w2] eqn:Hf.
  2:{ unfold execute, hook_create.
      erewrite bind_done by (unfold call; rewrite Hc; reflexivity).
      erewrite bind_raised by (unfold call; simpl; rewrite Hf; reflexivity).
      intros [= <- <- <-]. right. left. now exists x. }
  rewrite (execute_after_lookup _ _ _ _ _ _ _ Hc Hf).
  destruct after_lookup as [[o2 s2] t2] eqn:Ha. intros [= <- <- <-].
  right. right. now exists found, w1, w2, t2.
Qed.

Lemma emits_weaken {A} (P Q : event -> Prop) (m : M A) :
  (forall e, P e -> Q e) -> emits_only P m -> emits_only Q m.
Proof. intros H Hm s. eapply Forall_impl; [exact H | apply Hm]. Qed.

(** *** Which job a run cancels *)

Lemma after_lookup_cancels fuel found :
  emits_only
    (fun e => is_cancel e = true ->
              exists job r,
                found = Some job /\ lower_running (state job) = true
                /\ e = CancelJob (workspace self) (feature_view self)
                         (id job) r)
    (after_lookup env self fuel found).
Proof.
  assert (Hquiet : forall A (m : M A),
             emits_only not_cancel m ->
             emits_only
               (fun e => is_cancel e = true ->
                         exists job r,
                           found = Some job
                           /\ lower_running (state job) = true
                           /\ e = CancelJob (workspace self)
                                    (feature_view self) (id job) r) m).
  { intros A m. apply emits_weaken. unfold not_cancel. intros e He Hy.
    congruence. }
  unfold after_lookup. apply emits_bind.
  - unfold handle_existing, hook_cancel. destruct found as [j|];
      [|by_parts].
    apply emits_bind; [by_parts; discriminate|]. intros _.
    destruct (lower_running (state j)) eqn:Hr.
    + apply emits_bind; [by_parts; discriminate|]. intros _.
      apply emits_bind; [apply emits_call; intros r _; now exists j, r|].
      intros _.
      apply emits_bind; [|intros _; by_parts].
      apply Hquiet. eapply emits_weaken; [|apply wait_cancelled_quiet].
      now intros e [He _].
    + destruct (lower_success (state j)); [|by_parts].
      destruct (allow_overwrite self); by_parts; discriminate.
  - intros [|]; [by_parts|]. apply Hquiet. apply submit_and_track_no_cancel.
Qed.

(** X6.  A run cancels only a job that its own lookup found in a running
    state, and then that job, in the operator's workspace and feature view. *)
Theorem cancel_only_a_running_job fuel s o s' tr ws fv jid r :
  execute env self fuel s = (o, s', tr) ->
  In (CancelJob ws fv jid r) tr ->
  exists job,
    In (FindJob (find_query self) (Ok (Some job))) tr
    /\ lower_running (state job) = true
    /\ jid = id job /\ ws = workspace self /\ fv = feature_view self.
Proof.
  intros H Hin.
  destruct (execute_inv _ _ _ _ _ H)
    as [(x & -> & _) | [(x & -> & _) | (found & w1 & w2 & t & _ & _ & Ha & ->)]].
  - destruct Hin as [Hin|[]]. discriminate.
  - destruct Hin as [Hin|[Hin|[]]]; discriminate.
  - destruct Hin as [Hin|[Hin|Hin]]; try discriminate.
    pose proof (after_lookup_cancels fuel found (at_world s w2)) as Hc.
    rewrite Ha in Hc. simpl in Hc. rewrite Forall_forall in Hc.
    destruct (Hc _ Hin eq_refl) as (job & r' & -> & Hr & [= -> -> -> _]).
    exists job. repeat split; try assumption. right. now left.
Qed.

(** *** When a run returns *)

(** X7.  A run returns at line 118 only in one way: the lookup found a job
    whose state ends in "success" and [allow_overwrite] is false; the run then
    consists of the hook creation, the lookup and two log lines. *)
Theorem skipped_only_when_successful fuel s s' tr :
  execute env self fuel s = (Done Skipped, s', tr) ->
  exists job,
    tr = [Create (conn_id self) (Ok tt);
          FindJob (find_query self) (Ok (Some job));
          Log (ExistingJobFound job); Log ExistingSuccessExiting]
    /\ lower_success (state job) = true
    /\ allow_overwrite self = false
    /\ job_id s' = job_id s.
Proof.
  intros H.
  destruct (execute_inv _ _ _ _ _ H)
    as [(x & _ & ?) | [(x & _ & ?) | (found & w1 & w2 & t & _ & _ & Ha & ->)]];
    try discriminate.
  destruct found as [job|].
  2:{ rewrite after_lookup_none in Ha.
      now apply submit_and_track_not_skipped in Ha. }
  destruct (lower_running (state job)) eqn:Hr.
  - exfalso.
    destruct (cancel_materialization_job env (workspace self)
                (feature_view self) (id job) w2) as [rc w3] eqn:Hk.
    rewrite (after_lookup_running env self fuel (at_world s w2) job rc w3
               Hr Hk) in Ha.
    destruct rc as [[]|x]; [|discriminate].
    destruct wait_cancelled as [[[u|x|] s4] tw]; try discriminate.
    destruct submit_and_track as [[o5 s5] tp] eqn:Hst.
    injection Ha as -> _ _.
    now apply submit_and_track_not_skipped in Hst.
  - destruct (lower_success (state job)) eqn:Hs.
    + destruct (allow_overwrite self) eqn:Ho.
      * exfalso. rewrite (after_lookup_overwrite _ _ _ _ _ Hr Hs Ho) in Ha.
        destruct submit_and_track as [[o5 s5] tp] eqn:Hst.
        injection Ha as -> _ _.
        now apply submit_and_track_not_skipped in Hst.
      * rewrite (after_lookup_skip _ _ _ _ _ Hr Hs Ho) in Ha.
        injection Ha as <- <-. exists job. now repeat split.
    + exfalso. rewrite (after_lookup_other _ _ _ _ _ Hr Hs) in Ha.
      destruct submit_and_track as [[o5 s5] tp] eqn:Hst.
      injection Ha as -> _ _.
      now apply submit_and_track_not_skipped in Hst.
Qed.

Lemma poll_completed fuel : forall jid j0 s s' t,
  poll env self fuel jid j0 s = (Done Completed, s', t) ->
  (t = [] /\ upper_success (state j0) = true)
  \/ (exists before j,
        t = (before
             ++ [GetJob (workspace self) (feature_view self) jid (Ok j)])%list
        /\ upper_success (state j) = true).
Proof.
  induction fuel as [|fuel IH]; intros jid j0 s s' t H.
  - simpl in H. destruct (upper_running (state j0)); [discriminate|].
    destruct (upper_success (state j0)) eqn:Hs; [|discriminate].
    injection H as _ <-. now left.
  - destruct (upper_running (state j0)) eqn:Hr.
    2:{ rewrite poll_stop in H by exact Hr.
        destruct (upper_success (state j0)) eqn:Hs; [|discriminate].
        injection H as _ <-. now left. }
    simpl in H. rewrite Hr in H.
    destruct (log_progress_cases (DataFrame := DataFrame) j0 s) as [[_ [m Hl]] | [_ Hl]].
    2:{ erewrite bind_raised in H by exact Hl. discriminate. }
    erewrite bind_done in H by exact Hl.
    erewrite bind_done in H by reflexivity.
    unfold hook_get at 1, bind at 1, call at 1 in H. simpl in H.
    destruct get_materialization_job as [[j1|x] w1]; [|discriminate].
    destruct (poll env self fuel jid j1) as [[o2 s2] t2] eqn:Hp.
    injection H as -> _ <-. right.
    destruct (IH _ _ _ _ _ Hp) as [[-> Hs] | (before & j & -> & Hs)].
    + exists [Log m; Sleep 60], j1. now split.
    + exists (Log m :: Sleep 60
              :: GetJob (workspace self) (feature_view self) jid (Ok j1)
              :: before), j.
      now split.
Qed.

(** X8.  A run returns at line 151 only after it has created a job and its
    last event is a fetch of that job answered with a state ending in
    "SUCCESS"; [self.job_id] is then the id of that job. *)
Theorem completed_only_after_success fuel s s' tr :
  execute env self fuel s = (Done Completed, s', tr) ->
  exists resp before j,
    created tr = Some resp
    /\ tr = (before
             ++ [GetJob (workspace self) (feature_view self) (id resp)
                   (Ok j)])%list
    /\ upper_success (state j) = true
    /\ job_id s' = Some (id resp).
Proof.
  intros H.
  pose proof (execute_records fuel s) as Hid.
  rewrite H in Hid. simpl in Hid.
  destruct (execute_shape _ _ _ _ _ _ _ H)
    as [(_ & _ & Hno) | (t0 & s1 & tp & Hq & Hst & ->)]; [now elim Hno|].
  unfold submit_and_track in Hst. apply bind_inv in Hst.
  destruct Hst as [(resp & s2 & t1 & t2 & Hs & Ht & ->) | [(e & _ & ?) | (_ & ?)]];
    try discriminate.
  destruct (submit_creates s1) as [_ Hc]. rewrite Hs in Hc. simpl in Hc.
  destruct Hc as (b1 & ev & -> & Hb & Hev).
  assert (Hcr : created (t0 ++ (b1 ++ [ev]) ++ t2) = Some resp).
  { rewrite (created_app_none _ _ (not_submission_no_creation _ Hq)).
    rewrite <- app_assoc, (created_app_none _ _ Hb). simpl. now rewrite Hev. }
  rewrite Hcr in Hid.
  rewrite track_run in Ht.
  destruct get_materialization_job as [[j0|x] w1]; [|discriminate].
  destruct poll as [[o2 s3] t3] eqn:Hp. injection Ht as -> -> <-.
  exists resp.
  destruct (poll_completed _ _ _ _ _ _ Hp) as [[-> Hs0] | (before & j & -> & Hsj)].
  - exists (t0 ++ b1 ++ [ev])%list, j0.
    refine (conj Hcr (conj _ (conj Hs0 Hid))).
    now rewrite <- !app_assoc.
  - exists (t0 ++ (b1 ++ [ev])
            ++ GetJob (workspace self) (feature_view self) (id resp) (Ok j0)
               :: before)%list, j.
    refine (conj Hcr (conj _ (conj Hsj Hid))).
    now rewrite <- !app_assoc.
Qed.

(** X9.  One job per run: once a submit or ingest call of a run has returned a
    job, no job was created before it, and afterwards the run makes no call
    but fetches of that job -- no second submission, no cancel -- and
    [self.job_id] is the id of that job. *)
Theorem one_job_per_run fuel s o s' tr pre ev post resp :
  execute env self fuel s = (o, s', tr) ->
  tr = (pre ++ ev :: post)%list ->
  creation_answer ev = Some resp ->
  Forall (fun e => creation_answer e = None) pre
  /\ Forall (fun e => other_call (workspace self) (feature_view self)
                        (id resp) e = false) post
  /\ job_id s' = Some (id resp).
Proof.
  intros H Htr Hev.
  set (creates := fun e : event =>
                    match creation_answer e with
                    | Some _ => true
                    | None => false
                    end).
  assert (Hcreates : forall l : list event,
             Forall (fun e => creation_answer e = None) l ->
             Forall (fun e => creates e = false) l).
  { intros l Hl. eapply Forall_impl; [|exact Hl]. intros a Ha.
    unfold creates. now rewrite Ha. }
  assert (Hev' : creates ev = true) by (unfold creates; now rewrite Hev).
  assert (Hsub : is_submission ev = true)
    by (destruct ev as [| | | |? []| | | |? ? ? []| |]; try discriminate;
        reflexivity).
  pose proof (execute_records fuel s) as Hid.
  rewrite H in Hid. simpl in Hid.
  destruct (execute_shape _ _ _ _ _ _ _ H)
    as [(Hq & _) | (t0 & s1 & tp & Hq & Hst & Etr)].
  { exfalso. rewrite Htr in Hq.
    exact (no_hit is_submission _ _ _ _ Hq eq_refl Hsub). }
  rewrite Htr in Etr. symmetry in Etr.
  destruct (first_hit is_submission _ _ _ _ _ Hq Etr Hsub) as (q & -> & Etp).
  unfold submit_and_track in Hst. apply bind_inv in Hst.
  destruct (submit_creates s1) as [_ Hc].
  destruct Hst as [(r2 & s2 & t1 & t2 & Hs & Ht & E) | Hfail].
  - rewrite Hs in Hc. simpl in Hc. destruct Hc as (b1 & ev2 & -> & Hb & Hev2).
    pose proof (track_only_fetches fuel r2 s2) as Hf.
    destruct (track_keeps_id fuel r2 s2) as [_ Hn].
    rewrite Ht in Hf, Hn. simpl in Hf, Hn.
    rewrite E, <- app_assoc in Etp. simpl in Etp.
    destruct (first_hit creates _ _ _ _ _ (Hcreates _ Hb) Etp Hev')
      as (q' & -> & Eq).
    destruct q' as [|y q']; simpl in Eq.
    + injection Eq as -> ->.
      assert (r2 = resp) by congruence. subst r2.
      rewrite Htr in Hid.
      rewrite (created_app_none (t0 ++ b1 ++ []) (ev :: post)) in Hid.
      * simpl in Hid. rewrite Hev in Hid.
        refine (conj _ (conj Hf Hid)).
        apply Forall_app. split.
        -- now apply not_submission_no_creation.
        -- now rewrite app_nil_r.
      * apply Forall_app. split.
        -- now apply not_submission_no_creation.
        -- now rewrite app_nil_r.
    + exfalso. injection Eq as _ Eq.
      exact (no_hit creates _ _ _ _ (Hcreates _ Hn) Eq Hev').
  - exfalso.
    assert (Htp : snd (submit env self s1) = tp
                  /\ forall r, fst (fst (submit env self s1)) <> Done r).
    { destruct Hfail as [(e & -> & _) | (-> & _)]; now split. }
    destruct Htp as [Htp Hnd].
    destruct (fst (fst (submit env self s1))) as [r|e|] eqn:Ho;
      [now elim (Hnd r) | |];
      rewrite Htp in Hc;
      exact (no_hit creates _ _ _ _ (Hcreates _ Hc) Etp Hev').
Qed.

(** *** Sleeping between fetches *)

Lemma paced_weaken {A} a b (m : M A) : a <= b -> paced a m -> paced b m.
Proof. intros Hab H s. destruct (H s). split; [lia | assumption]. Qed.

Lemma paced_quiet {A} (m : M A) :
  emits_only (fun e => is_fetch e = false /\ is_sleep e = false) m ->
  paced 0 m.
Proof.
  intros H s. specialize (H s). split.
  - rewrite (count_none is_fetch); [lia|].
    eapply Forall_impl; [|exact H]. now intros e [He _].
  - eapply Forall_impl; [|exact H]. intros e [_ He] Hs. congruence.
Qed.

Lemma paced_bind {A B} a b (m : M A) (k : A -> M B) :
  paced a m -> (forall x, paced b (k x)) -> paced (a + b) (bind m k).
Proof.
  intros Hm Hk s. unfold bind. destruct (Hm s) as [Hc Hs].
  destruct (m s) as [[[x|e|] s1] t1]; simpl in *;
    try (split; [lia | assumption]).
  destruct (Hk x s1) as [Hc2 Hs2]. destruct (k x s1) as [[o2 s2] t2].
  simpl in *. split.
  - rewrite !count_app. lia.
  - now apply Forall_app.
Qed.

Lemma wait_cancelled_paced fuel jid :
  paced 1 (wait_cancelled env self fuel jid).
Proof.
  induction fuel as [|fuel IH]; intros s; simpl.
  - split; [unfold count; simpl; lia | constructor].
  - destruct (get_materialization_job env (workspace self) (feature_view self)
                jid (world s)) as [[j|x] w1] eqn:Hg.
    2:{ erewrite bind_raised
          by (unfold hook_get, call; rewrite Hg; reflexivity).
        split; [unfold count; simpl; lia|].
        constructor; [discriminate | constructor]. }
    erewrite bind_done by (unfold hook_get, call; rewrite Hg; reflexivity).
    destruct (lower_cancelled (state j)).
    { split; [unfold count; simpl; lia|].
      constructor; [discriminate | constructor]. }
    erewrite bind_done by reflexivity.
    erewrite bind_done by reflexivity.
    match goal with
    | |- context [wait_cancelled env self fuel jid ?st] =>
        destruct (IH st) as [Hc Hs];
        destruct (wait_cancelled env self fuel jid st) as [[o2 s2] t2]
    end.
    simpl in *. split.
    + unfold count in *. simpl. lia.
    + constructor; [discriminate|]. constructor; [discriminate|].
      constructor; [reflexivity | exact Hs].
Qed.

Lemma poll_paced fuel jid : forall j, paced 0 (poll env self fuel jid j).
Proof.
  induction fuel as [|fuel IH]; intros j s.
  - simpl. destruct (upper_running (state j));
      [|destruct (upper_success (state j))];
      (split; [unfold count; simpl; lia | constructor]).
  - destruct (upper_running (state j)) eqn:Hr.
    2:{ rewrite poll_stop by exact Hr.
        split; [unfold count; simpl; lia | constructor]. }
    destruct (log_progress_cases (DataFrame := DataFrame) j s)
      as [[_ [m Hl]] | [_ Hl]].
    2:{ simpl. rewrite Hr. erewrite bind_raised by exact Hl.
        split; [unfold count; simpl; lia | constructor]. }
    destruct (get_materialization_job env (workspace self) (feature_view self)
                jid (time_sleep env 60 (world s))) as [[j1|x] w1] eqn:Hg.
    2:{ simpl. rewrite Hr. erewrite bind_done by exact Hl.
        erewrite bind_done by reflexivity.
        erewrite bind_raised
          by (unfold hook_get, call; simpl; rewrite Hg; reflexivity).
        split; [unfold count; simpl; lia|].
        constructor; [discriminate|]. constructor; [reflexivity|].
        constructor; [discriminate | constructor]. }
    rewrite (poll_tick env self fuel jid j s m j1 w1 Hr Hl Hg).
    destruct (IH j1 (at_world s w1)) as [Hc Hs].
    destruct (poll env self fuel jid j1 (at_world s w1)) as [[o2 s2] t2].
    simpl in *. split.
    + unfold count in *. simpl. lia.
    + constructor; [discriminate|]. constructor; [reflexivity|].
      constructor; [discriminate | exact Hs].
Qed.

Lemma execute_paced fuel : paced 2 (execute env self fuel).
Proof.
  assert (Hq : forall A (m : M A),
             emits_only (fun e => is_fetch e = false /\ is_sleep e = false) m
             -> paced 0 m) by (intros; now apply paced_quiet).
  unfold execute, hook_create.
  apply (paced_bind 0 2); [apply Hq; by_parts; now split|]. intros _.
  apply (paced_bind 0 2); [apply Hq; by_parts; now split|]. intros found.
  unfold after_lookup. apply (paced_bind 1 1).
  - unfold handle_existing, hook_cancel. destruct found as [j|].
    2:{ apply (paced_weaken 0); [lia|]. apply Hq. by_parts. }
    destruct (lower_running (state j)).
    + apply (paced_bind 0 1); [apply Hq; by_parts; now split|]. intros _.
      apply (paced_bind 0 1); [apply Hq; by_parts; now split|]. intros _.
      apply (paced_bind 0 1); [apply Hq; by_parts; now split|]. intros _.
      apply (paced_bind 1 0); [apply wait_cancelled_paced|]. intros _.
      apply Hq. by_parts.
    + apply (paced_weaken 0); [lia|]. apply Hq.
      apply emits_bind; [by_parts; now split|]. intros _.
      destruct (lower_success (state j)); [|by_parts].
      destruct (allow_overwrite self); by_parts; now split.
  - intros [|]; [apply (paced_weaken 0); [lia|]; apply Hq; by_parts|].
    unfold submit_and_track. apply (paced_bind 0 1).
    + apply Hq. unfold submit, ingest_feature_table_with_pandas_df.
      destruct (df_generator self); by_parts; now split.
    + intros resp. unfold track.
      apply (paced_bind 0 1); [apply Hq; by_parts|]. intros _.
      apply (paced_bind 1 0).
      * intros s. unfold hook_get, call.
        destruct get_materialization_job as [r w1]. simpl. split.
        -- unfold count. simpl. lia.
        -- constructor; [discriminate | constructor].
      * intros j. apply poll_paced.
Qed.

(** X10.  A run never fetches twice in a row without sleeping: every sleep of
    a run lasts 60, and the run makes at most two more fetches than sleeps
    (the first fetch of each of the two loops). *)
Theorem fetches_are_paced fuel s :
  count is_fetch (snd (execute env self fuel s))
  <= count is_sleep (snd (execute env self fuel s)) + 2
  /\ Forall (fun e => is_sleep e = true -> e = Sleep 60)
       (snd (execute env self fuel s)).
Proof. apply execute_paced. Qed.

(** *** Loops without a time limit *)

Lemma poll_never_ends jid :
  (forall w, exists j w',
      get_materialization_job env (workspace self) (feature_view self) jid w
      = (Ok j, w')
      /\ upper_running (state j) = true /\ has_latest_attempt j = true) ->
  forall fuel j0 s,
    upper_running (state j0) = true -> has_latest_attempt j0 = true ->
    fst (fst (poll env self fuel jid j0 s)) = OutOfFuel
    /\ count is_sleep (snd (poll env self fuel jid j0 s)) = fuel.
Proof.
  intros Hall. induction fuel as [|fuel IH]; intros j0 s Hr Hl.
  - simpl. rewrite Hr. now split.
  - destruct (log_progress_cases (DataFrame := DataFrame) j0 s)
      as [[_ [m Hm]] | [He _]].
    2:{ unfold has_latest_attempt in Hl. rewrite He in Hl. discriminate. }
    destruct (Hall (time_sleep env 60 (world s))) as (j1 & w1 & Hg & Hr1 & Hl1).
    rewrite (poll_tick env self fuel jid j0 s m j1 w1 Hr Hm Hg).
    destruct (IH j1 (at_world s w1) Hr1 Hl1) as [Ho Hc].
    destruct (poll env self fuel jid j1 (at_world s w1)) as [[o s'] t].
    simpl in *. split; [exact Ho|]. unfold count in *. simpl. now rewrite Hc.
Qed.

(** X12.  The poll loop has no time limit: once a run has created a job, if
    every fetch of that job answers a running state (with a latest attempt to
    log), the run neither returns nor raises, whatever the budget, and has
    slept as many times as the budget allows. *)
Theorem polling_has_no_time_limit fuel s o s' tr resp :
  execute env self fuel s = (o, s', tr) ->
  created tr = Some resp ->
  (forall w, exists j w',
      get_materialization_job env (workspace self) (feature_view self)
        (id resp) w = (Ok j, w')
      /\ upper_running (state j) = true /\ has_latest_attempt j = true) ->
  o = OutOfFuel /\ fuel <= count is_sleep tr.
Proof.
  intros H Hcr Hall.
  destruct (execute_shape _ _ _ _ _ _ _ H)
    as [(Hq & _) | (t0 & s1 & tp & Hq & Hst & ->)].
  { rewrite (created_none _ (not_submission_no_creation _ Hq)) in Hcr.
    discriminate. }
  rewrite (created_app_none _ _ (not_submission_no_creation _ Hq)) in Hcr.
  unfold submit_and_track in Hst.
  destruct (submit_creates s1) as [_ Hc]. apply bind_inv in Hst.
  destruct Hst as [(r2 & s2 & t1 & t2 & Hs & Ht & ->) | Hfail].
  - rewrite Hs in Hc. simpl in Hc. destruct Hc as (b1 & ev & -> & Hb & Hev).
    rewrite <- app_assoc, (created_app_none _ _ Hb) in Hcr. simpl in Hcr.
    rewrite Hev in Hcr. injection Hcr as ->.
    rewrite track_run in Ht.
    destruct (Hall (world s2)) as (j0 & w0 & Hg & Hr0 & Hl0).
    rewrite Hg in Ht.
    destruct (poll_never_ends (id resp) Hall fuel j0
                {| world := w0; job_id := Some (id resp) |} Hr0 Hl0)
      as [Ho Hc].
    destruct poll as [[o2 s3] t3]. simpl in *. injection Ht as <- _ <-.
    split; [exact Ho|]. rewrite !count_app.
    change (count is_sleep
              (GetJob (workspace self) (feature_view self) (id resp) (Ok j0)
               :: t3)) with (count is_sleep t3).
    lia.
  - exfalso.
    assert (Htp : snd (submit env self s1) = tp
                  /\ forall r, fst (fst (submit env self s1)) <> Done r).
    { destruct Hfail as [(e & -> & _) | (-> & _)]; now split. }
    destruct Htp as [Htp Hnd].
    destruct (fst (fst (submit env self s1))) as [r|e|] eqn:Ho;
      [now elim (Hnd r) | |];
      rewrite Htp in Hc; rewrite (created_none _ Hc) in Hcr; discriminate.
Qed.

Lemma wait_cancelled_never_ends jid :
  (forall w, exists j w',
      get_materialization_job env (workspace self) (feature_view self) jid w
      = (Ok j, w')
      /\ lower_cancelled (state j) = false) ->
  forall fuel s,
    fst (fst (wait_cancelled env self fuel jid s)) = OutOfFuel
    /\ count is_sleep (snd (wait_cancelled env self fuel jid s)) = fuel.
Proof.
  intros Hall. induction fuel as [|fuel IH]; intros s; [now split|].
  simpl. destruct (Hall (world s)) as (j & w1 & Hg & Hj).
  erewrite bind_done by (unfold hook_get, call; rewrite Hg; reflexivity).
  rewrite Hj.
  erewrite bind_done by reflexivity.
  erewrite bind_done by reflexivity.
  match goal with
  | |- context [wait_cancelled env self fuel jid ?st] =>
      destruct (IH st) as [Ho Hc];
      destruct (wait_cancelled env self fuel jid st) as [[o2 s2] t2]
  end.
  simpl in *. split; [exact Ho|]. unfold count in *. simpl. now rewrite Hc.
Qed.

(** X13.  The wait for cancellation has no time limit either, and nothing but
    a state ending in "manually_cancelled" ends it: when the lookup finds a
    running job, the cancel call returns, and no fetch of that job ever
    answers such a state -- for instance because the job finished on its own
    -- the run neither returns nor raises nor submits, whatever the budget; it
    has cancelled once and slept as many times as the budget allows. *)
Theorem cancel_wait_has_no_time_limit fuel s w1 w2 w3 job o s' tr :
  create env (conn_id self) (world s) = (Ok tt, w1) ->
  find_materialization_job env (find_query self) w1 = (Ok (Some job), w2) ->
  lower_running (state job) = true ->
  cancel_materialization_job env (workspace self) (feature_view self)
    (id job) w2 = (Ok tt, w3) ->
  (forall w, exists j w',
      get_materialization_job env (workspace self) (feature_view self)
        (id job) w = (Ok j, w')
      /\ lower_cancelled (state j) = false) ->
  execute env self fuel s = (o, s', tr) ->
  o = OutOfFuel
  /\ Forall not_submission tr
  /\ count is_cancel tr = 1
  /\ count is_sleep tr = fuel.
Proof.
  intros Hc Hf Hr Hk Hall H.
  rewrite (execute_after_lookup _ _ _ _ _ _ _ Hc Hf) in H.
  rewrite (after_lookup_running env self fuel (at_world s w2) job (Ok tt) w3
             Hr Hk) in H.
  destruct (wait_cancelled_never_ends (id job) Hall fuel
              (at_world (at_world s w2) w3)) as [Ho Hs].
  pose proof (wait_cancelled_quiet env self fuel (id job)
                (at_world (at_world s w2) w3)) as Hq.
  destruct wait_cancelled as [[ow s4] tw]. simpl in *. subst ow.
  injection H as <- _ Htr. split; [reflexivity|].
  assert (E : tr = ([Create (conn_id self) (Ok tt);
                     FindJob (find_query self) (Ok (Some job));
                     Log (ExistingJobFound job); Log JobRunningCancelling;
                     CancelJob (workspace self) (feature_view self) (id job)
                       (Ok tt)] ++ tw)%list) by (now rewrite <- Htr).
  clear Htr. subst tr. split; [|split].
  - apply Forall_app. split; [repeat constructor|].
    eapply Forall_impl; [|exact Hq]. now intros e [_ He].
  - rewrite count_app, (count_none is_cancel tw); [reflexivity|].
    eapply Forall_impl; [|exact Hq]. now intros e [He _].
  - rewrite count_app, Hs. reflexivity.
Qed.

(** *** The progress message *)

Lemma last_item_snoc {A} (l : list A) (x : A) : last_item (l ++ [x]) = Some x.
Proof.
  induction l as [|y l IH]; [reflexivity|].
  simpl. destruct (l ++ [x])%list eqn:E; [now destruct l | exact IH].
Qed.

(** X14.  With at least one attempt in the list, a poll tick logs the attempt
    at the end of the list -- its state and its URL -- numbered with the
    length of the list, and changes nothing; without the ["attempts"] key it
    logs that no attempt was launched. *)
Theorem latest_attempt_is_logged i st (earlier : list Attempt) latest
    (s : State W) :
  @log_progress DataFrame W
    {| id := i; state := st; attempts := Some (earlier ++ [latest])%list |} s
  = (Done tt, s,
     [Log (LatestAttempt (S (List.length earlier)) (attempt_state latest)
             (run_url latest))])
  /\ @log_progress DataFrame W {| id := i; state := st; attempts := None |} s
     = (Done tt, s, [Log NoAttemptLaunched]).
Proof.
  split; [|reflexivity].
  unfold log_progress. simpl. rewrite last_item_snoc, length_app. simpl.
  now rewrite Nat.add_1_r.
Qed.

End Further.

(** ** Further properties: how runs start and how they end *)

Section Endings.

Context {DataFrame W : Type}.
Variable env : Env DataFrame W.
Variable self : Operator DataFrame W.

Local Abbreviation M := (M DataFrame W).
Local Abbreviation event := (event DataFrame).

Ltac in_parts :=
  repeat first
    [ apply emits_bind; [|intros ?]
    | apply emits_ret | apply emits_raise | apply emits_out_of_fuel
    | apply emits_set_job_id | apply emits_log | apply emits_sleep
    | apply emits_call; intros ? ].

(** *** One hook, one lookup *)

Lemma after_lookup_looks_up_nothing fuel found :
  emits_only (fun e : event => is_lookup e = false /\ is_create e = false)
             (after_lookup env self fuel found).
Proof.
  assert (Hw : forall fuel jid,
             emits_only
               (fun e : event => is_lookup e = false /\ is_create e = false)
               (wait_cancelled env self fuel jid)).
  { clear fuel. induction fuel as [|fuel IH]; intros jid; simpl; [in_parts|].
    unfold hook_get. apply emits_bind; [in_parts; now split|]. intros j.
    destruct (lower_cancelled (state j)); [in_parts|].
    apply emits_bind; [in_parts; now split|]. intros _.
    apply emits_bind; [in_parts; now split|]. intros _. apply IH. }
  assert (Hp : forall fuel jid j,
             emits_only
               (fun e : event => is_lookup e = false /\ is_create e = false)
               (poll env self fuel jid j)).
  { clear fuel. induction fuel as [|fuel IH]; intros jid j; simpl.
    - destruct (upper_running (state j)); [in_parts|].
      destruct (upper_success (state j)); in_parts.
    - destruct (upper_running (state j)).
      + apply emits_bind; [apply log_progress_quiet; now split|]. intros _.
        apply emits_bind; [in_parts; now split|]. intros _.
        unfold hook_get. apply emits_bind; [in_parts; now split|].
        intros j'. apply IH.
      + destruct (upper_success (state j)); in_parts. }
  unfold after_lookup. apply emits_bind.
  - unfold handle_existing, hook_cancel. destruct found as [j|]; [|in_parts].
    apply emits_bind; [in_parts; now split|]. intros _.
    destruct (lower_running (state j)).
    + apply emits_bind; [in_parts; now split|]. intros _.
      apply emits_bind; [in_parts; now split|]. intros _.
      apply emits_bind; [apply Hw | intros _; in_parts].
    + destruct (lower_success (state j)); [|in_parts].
      destruct (allow_overwrite self); in_parts; now split.
  - intros [|]; [in_parts|]. unfold submit_and_track. apply emits_bind.
    + unfold submit, ingest_feature_table_with_pandas_df.
      destruct (df_generator self); in_parts; now split.
    + intros resp. unfold track, hook_get.
      apply emits_bind; [in_parts|]. intros _.
      apply emits_bind; [in_parts; now split|]. intros j. apply Hp.
Qed.

(** X15.  A run creates its hook once, as its first event, and looks the job
    up once, as its second: what it does afterwards -- also after a long wait
    for a cancellation -- rests on that one answer. *)
Theorem one_hook_one_lookup fuel s o s' tr :
  execute env self fuel s = (o, s', tr) ->
  exists rc rest,
    tr = Create (conn_id self) rc :: rest
    /\ Forall (fun e => is_create e = false) rest
    /\ (rest = []
        \/ exists rf rest',
             rest = FindJob (find_query self) rf :: rest'
             /\ Forall (fun e => is_lookup e = false) rest').
Proof.
  intros H.
  destruct (execute_inv _ _ _ _ _ _ _ H)
    as [(x & -> & _) | [(x & -> & _) | (found & w1 & w2 & t & _ & _ & Ha & ->)]].
  - exists (Err x), []. split; [reflexivity|]. split; [constructor | now left].
  - exists (Ok tt), [FindJob (find_query self) (Err x)].
    split; [reflexivity|]. split; [now repeat constructor|]. right.
    exists (Err x), []. split; [reflexivity | constructor].
  - pose proof (after_lookup_looks_up_nothing fuel found (at_world s w2)) as Hn.
    rewrite Ha in Hn. simpl in Hn.
    exists (Ok tt), (FindJob (find_query self) (Ok found) :: t).
    split; [reflexivity|]. split.
    + constructor; [reflexivity|].
      eapply Forall_impl; [|exact Hn]. now intros e [_ He].
    + right. exists (Ok found), t. split; [reflexivity|].
      eapply Forall_impl; [|exact Hn]. now intros e [He _].
Qed.

(** *** Exceptions of the operator's own *)

Lemma blameless_ret {A} (a : A) : blameless (@ret DataFrame W A a).
Proof. intros s x H. discriminate. Qed.

Lemma blameless_out_of_fuel {A} : blameless (@out_of_fuel DataFrame W A).
Proof. intros s x H. discriminate. Qed.

Lemma blameless_log m : blameless (@log DataFrame W m).
Proof. intros s x H. discriminate. Qed.

Lemma blameless_sleep secs : blameless (sleep env secs).
Proof. intros s x H. discriminate. Qed.

Lemma blameless_set_job_id j : blameless (@set_job_id DataFrame W j).
Proof. intros s x H. discriminate. Qed.

Lemma blameless_call {A} (f : W -> result A * W) (ev : result A -> event) :
  (forall x, failed_with (ev (Err x)) = Some x) -> blameless (call f ev).
Proof.
  intros Herr s x. unfold call. destruct (f (world s)) as [[a|y] w]; simpl.
  - discriminate.
  - intros _ Hall. inversion Hall as [|? ? Hy _]; subst.
    unfold answered in Hy. rewrite Herr in Hy. discriminate.
Qed.

Lemma blameless_bind {A B} (m : M A) (k : A -> M B) :
  blameless m -> (forall a, blameless (k a)) -> blameless (bind m k).
Proof.
  intros Hm Hk s x. unfold bind. specialize (Hm s).
  destruct (m s) as [[[a|e|] s1] t1]; simpl in *.
  - specialize (Hk a s1). destruct (k a s1) as [[o2 s2] t2]. simpl in *.
    intros Ho Hall. apply Forall_app in Hall. destruct Hall as [_ H2].
    exact (Hk x Ho H2).
  - intros [= <-]. exact (Hm e eq_refl).
  - discriminate.
Qed.

Ltac no_blame :=
  repeat first
    [ apply blameless_bind; [|intros ?]
    | apply blameless_ret | apply blameless_out_of_fuel | apply blameless_log
    | apply blameless_sleep | apply blameless_set_job_id
    | apply blameless_call; intros ?; reflexivity ].

Lemma wait_cancelled_blameless fuel jid :
  blameless (wait_cancelled env self fuel jid).
Proof.
  induction fuel as [|fuel IH]; simpl; [no_blame|].
  unfold hook_get. apply blameless_bind; [no_blame|]. intros j.
  destruct (lower_cancelled (state j)); [no_blame|].
  apply blameless_bind; [no_blame|]. intros _.
  apply blameless_bind; [no_blame|]. intros _. exact IH.
Qed.

Lemma handle_existing_blameless fuel found :
  blameless (handle_existing env self fuel found).
Proof.
  unfold handle_existing, hook_cancel. destruct found as [j|]; [|no_blame].
  apply blameless_bind; [no_blame|]. intros _.
  destruct (lower_running (state j)).
  - no_blame. apply wait_cancelled_blameless.
  - destruct (lower_success (state j)); [|no_blame].
    destruct (allow_overwrite self); no_blame.
Qed.

Lemma submit_blameless : blameless (submit env self).
Proof.
  unfold submit, ingest_feature_table_with_pandas_df.
  destruct (df_generator self); no_blame.
Qed.

(** A bind that raises with every call answered: the first part returned
    and the rest raised, when the first part is blameless. *)
Lemma bind_raised_own {A B} (m : M A) (k : A -> M B) s x s' tr :
  blameless m ->
  bind m k s = (Raised x, s', tr) -> Forall answered tr ->
  exists a s1 t1 t2,
    m s = (Done a, s1, t1) /\ k a s1 = (Raised x, s', t2)
    /\ tr = (t1 ++ t2)%list /\ Forall answered t2.
Proof.
  intros Hm H Hall. apply bind_inv in H.
  destruct H as [(a & s1 & t1 & t2 & Hms & Hks & ->) | [(e & Hms & He) | (_ & ?)]];
    try discriminate.
  - apply Forall_app in Hall. destruct Hall as [_ H2].
    now exists a, s1, t1, t2.
  - exfalso. injection He as ->. apply (Hm s e).
    + now rewrite Hms.
    + now rewrite Hms.
Qed.

Lemma poll_own_raise fuel : forall jid j0 s x s' t,
  poll env self fuel jid j0 s = (Raised x, s', t) ->
  Forall answered t ->
  exists j,
    (t = [] /\ j = j0
     \/ exists before,
          t = (before
               ++ [GetJob (workspace self) (feature_view self) jid (Ok j)])%list)
    /\ ((x = IndexError /\ upper_running (state j) = true
         /\ attempts j = Some [])
        \/ (x = Exception (final_message env j)
            /\ upper_running (state j) = false
            /\ upper_success (state j) = false)).
Proof.
  induction fuel as [|fuel IH]; intros jid j0 s x s' t H Hall.
  - simpl in H. destruct (upper_running (state j0)) eqn:Hr; [discriminate|].
    destruct (upper_success (state j0)) eqn:Hs; [discriminate|].
    injection H as <- _ <-. exists j0. split; [now left | now right].
  - destruct (upper_running (state j0)) eqn:Hr.
    2:{ rewrite poll_stop in H by exact Hr.
        destruct (upper_success (state j0)) eqn:Hs; [discriminate|].
        injection H as <- _ <-. exists j0. split; [now left | now right]. }
    simpl in H. rewrite Hr in H.
    destruct (log_progress_cases (DataFrame := DataFrame) j0 s)
      as [[_ [m Hl]] | [He Hl]].
    2:{ erewrite bind_raised in H by exact Hl. injection H as <- _ <-.
        exists j0. split; [now left | now left]. }
    erewrite bind_done in H by exact Hl.
    erewrite bind_done in H by reflexivity.
    unfold hook_get at 1, bind at 1, call at 1 in H. simpl in H.
    destruct get_materialization_job as [[j1|y] w1].
    2:{ exfalso. injection H as _ _ <-.
        inversion Hall as [|? ? _ H2]; subst.
        inversion H2 as [|? ? _ H3]; subst.
        inversion H3 as [|? ? Hy _]; subst. discriminate Hy. }
    destruct (poll env self fuel jid j1) as [[o2 s2] t2] eqn:Hp.
    injection H as -> _ <-.
    assert (Hall2 : Forall answered t2).
    { simpl in Hall. inversion Hall as [|? ? _ H2]; subst.
      inversion H2 as [|? ? _ H3]; subst. now inversion H3. }
    destruct (IH _ _ _ _ _ _ Hp Hall2) as (j & Hpos & Hwhy).
    exists j. split; [|exact Hwhy]. right.
    destruct Hpos as [[-> ->] | [before ->]].
    + now exists [Log m; Sleep 60].
    + now exists (Log m :: Sleep 60
                  :: GetJob (workspace self) (feature_view self) jid (Ok j1)
                  :: before).
Qed.

(** X16.  The two exceptions that [execute] raises by itself have one cause
    each. When a run raises with every call answered, it has created a job,
    holds its id, and its last event is a fetch of that job; either the record
    fetched is running with an empty ["attempts"] list and the exception is
    the [IndexError] of line 140, or the state of the record ends neither in
    "RUNNING" nor in "SUCCESS" and the exception is that of line 153, about
    that record. *)
Theorem own_exceptions_have_one_cause fuel s x s' tr :
  execute env self fuel s = (Raised x, s', tr) ->
  Forall answered tr ->
  exists jid before j,
    job_id s' = Some jid
    /\ tr = (before
             ++ [GetJob (workspace self) (feature_view self) jid (Ok j)])%list
    /\ ((x = IndexError /\ upper_running (state j) = true
         /\ attempts j = Some [])
        \/ (x = Exception (final_message env j)
            /\ upper_running (state j) = false
            /\ upper_success (state j) = false)).
Proof.
  intros H Hall. unfold execute in H.
  assert (Hb1 : blameless (hook_create env self))
    by (unfold hook_create; no_blame).
  assert (Hb2 : blameless (call (find_materialization_job env (find_query self))
                             (FindJob (DataFrame := DataFrame)
                                (find_query self))))
    by no_blame.
  destruct (bind_raised_own _ _ _ _ _ _ Hb1 H Hall)
    as (u & s1 & t1 & t2 & _ & H2 & -> & Hall2).
  destruct (bind_raised_own _ _ _ _ _ _ Hb2 H2 Hall2)
    as (found & s2 & t3 & t4 & _ & H3 & -> & Hall3).
  unfold after_lookup in H3.
  destruct (bind_raised_own _ _ _ _ _ _
              (handle_existing_blameless fuel found) H3 Hall3)
    as (early & s3 & t5 & t6 & _ & H4 & -> & Hall4).
  destruct early; [discriminate|].
  unfold submit_and_track in H4.
  destruct (bind_raised_own _ _ _ _ _ _ submit_blameless H4 Hall4)
    as (resp & s4 & t7 & t8 & _ & H5 & -> & Hall5).
  rewrite track_run in H5.
  destruct get_materialization_job as [[j0|y] w1].
  2:{ exfalso. injection H5 as _ _ <-.
      inversion Hall5 as [|? ? Hy _]; subst. discriminate Hy. }
  destruct (poll_idle env self fuel (id resp) j0
              {| world := w1; job_id := Some (id resp) |}) as [Hj _].
  destruct poll as [[o2 s5] t9] eqn:Hp. simpl in Hj.
  injection H5 as -> -> <-.
  assert (Hall9 : Forall answered t9) by (now inversion Hall5).
  destruct (poll_own_raise _ _ _ _ _ _ _ Hp Hall9) as (j & Hpos & Hwhy).
  exists (id resp).
  destruct Hpos as [[-> ->] | [before ->]].
  - exists (t1 ++ t3 ++ t5 ++ t7)%list, j0.
    refine (conj Hj (conj _ Hwhy)). now rewrite <- !app_assoc.
  - exists (t1 ++ t3 ++ t5 ++ t7
            ++ GetJob (workspace self) (feature_view self) (id resp) (Ok j0)
               :: before)%list, j.
    refine (conj Hj (conj _ Hwhy)). now rewrite <- !app_assoc.
Qed.

(** *** Running out of budget *)

Lemma spends_never {A} n (m : M A) :
  (forall s, fst (fst (m s)) <> OutOfFuel) -> spends n m.
Proof. intros H s Ho. now elim (H s). Qed.

Lemma spends_bind {A B} n (m : M A) (k : A -> M B) :
  spends n m -> (forall a, spends n (k a)) -> spends n (bind m k).
Proof.
  intros Hm Hk s. unfold bind. specialize (Hm s).
  destruct (m s) as [[[a|e|] s1] t1]; simpl in *; try discriminate.
  - specialize (Hk a s1). destruct (k a s1) as [[o2 s2] t2]. simpl in *.
    intros Ho. rewrite count_app. specialize (Hk Ho). lia.
  - intros _. exact (Hm eq_refl).
Qed.

Lemma call_ends {A} (f : W -> result A * W) (ev : result A -> event) s :
  fst (fst (call f ev s)) <> OutOfFuel.
Proof. unfold call. now destruct (f (world s)) as [[a|x] w]. Qed.

Lemma wait_cancelled_spends fuel jid :
  spends fuel (wait_cancelled env self fuel jid).
Proof.
  induction fuel as [|fuel IH]; intros s; simpl; [intros _; lia|].
  destruct (get_materialization_job env (workspace self) (feature_view self)
              jid (world s)) as [[j|x] w1] eqn:Hg.
  2:{ erewrite bind_raised
        by (unfold hook_get, call; rewrite Hg; reflexivity).
      discriminate. }
  erewrite bind_done by (unfold hook_get, call; rewrite Hg; reflexivity).
  destruct (lower_cancelled (state j)); [discriminate|].
  erewrite bind_done by reflexivity.
  erewrite bind_done by reflexivity.
  match goal with
  | |- context [wait_cancelled env self fuel jid ?st] =>
      specialize (IH st);
      destruct (wait_cancelled env self fuel jid st) as [[o2 s2] t2]
  end.
  simpl in *. intros Ho. specialize (IH Ho). unfold count in *. simpl. lia.
Qed.

Lemma poll_spends fuel jid : forall j, spends fuel (poll env self fuel jid j).
Proof.
  induction fuel as [|fuel IH]; intros j s; [intros _; lia|].
  destruct (upper_running (state j)) eqn:Hr.
  2:{ rewrite poll_stop by exact Hr. simpl.
      destruct (upper_success (state j)); discriminate. }
  destruct (log_progress_cases (DataFrame := DataFrame) j s)
    as [[_ [m Hl]] | [_ Hl]].
  2:{ simpl. rewrite Hr. erewrite bind_raised by exact Hl. discriminate. }
  destruct (get_materialization_job env (workspace self) (feature_view self)
              jid (time_sleep env 60 (world s))) as [[j1|x] w1] eqn:Hg.
  2:{ simpl. rewrite Hr. erewrite bind_done by exact Hl.
      erewrite bind_done by reflexivity.
      erewrite bind_raised
        by (unfold hook_get, call; simpl; rewrite Hg; reflexivity).
      discriminate. }
  rewrite (poll_tick env self fuel jid j s m j1 w1 Hr Hl Hg).
  specialize (IH j1 (at_world s w1)).
  destruct (poll env self fuel jid j1 (at_world s w1)) as [[o2 s2] t2].
  simpl in *. intros Ho. specialize (IH Ho). unfold count in *. simpl. lia.
Qed.

Lemma execute_spends fuel : spends fuel (execute env self fuel).
Proof.
  assert (Hcall : forall A (f : W -> result A * W) ev, spends fuel (call f ev))
    by (intros; apply spends_never; apply call_ends).
  assert (Hnever : forall A (m : M A),
             (forall s, fst (fst (m s)) <> OutOfFuel) -> spends fuel m)
    by (intros; now apply spends_never).
  unfold execute, hook_create.
  apply spends_bind; [apply Hcall|]. intros _.
  apply spends_bind; [apply Hcall|]. intros found.
  unfold after_lookup. apply spends_bind.
  - unfold handle_existing, hook_cancel. destruct found as [j|];
      [|apply Hnever; discriminate].
    apply spends_bind; [apply Hnever; discriminate|]. intros _.
    destruct (lower_running (state j)).
    + apply spends_bind; [apply Hnever; discriminate|]. intros _.
      apply spends_bind; [apply Hcall|]. intros _.
      apply spends_bind; [apply wait_cancelled_spends|]. intros _.
      apply Hnever. discriminate.
    + destruct (lower_success (state j)); [|apply Hnever; discriminate].
      destruct (allow_overwrite self);
        (apply spends_bind; [apply Hnever; discriminate|]; intros _;
         apply Hnever; discriminate).
  - intros [|]; [apply Hnever; discriminate|].
    unfold submit_and_track. apply spends_bind.
    + unfold submit, ingest_feature_table_with_pandas_df.
      destruct (df_generator self); [|apply Hcall].
      apply spends_bind; [apply Hcall|]. intros info.
      apply spends_bind; [apply Hcall|]. intros df.
      apply spends_bind; [apply Hcall|]. intros _. apply Hcall.
    + intros resp. unfold track, hook_get.
      apply spends_bind; [apply Hnever; discriminate|]. intros _.
      apply spends_bind; [apply Hcall|]. intros j. apply poll_spends.
Qed.

(** X17.  The budget of the model is spent on sleeping only: a run that is cut
    off by the budget has slept at least as many times as the budget counts,
    so that it stands for at least that many minutes of waiting in one of the
    two loops. *)
Theorem cut_off_only_while_waiting fuel s o s' tr :
  execute env self fuel s = (o, s', tr) ->
  o = OutOfFuel ->
  fuel <= count is_sleep tr.
Proof.
  intros H Ho. pose proof (execute_spends fuel s) as Hs.
  rewrite H in Hs. simpl in Hs. now apply Hs.
Qed.

End Endings.

(** *** From construction to cancellation *)

Lemma on_kill_without_job {D W} (env : Env D W) self s :
  truthy (job_id s) = false ->
  on_kill env self s = (Done tt, s, [Log NoJobStarted]).
Proof. intros H. unfold on_kill, bind, get_job_id. now rewrite H. Qed.

Lemma on_kill_with_job {D W} (env : Env D W) self s jid :
  job_id s = Some jid -> jid <> "" ->
  exists rc rest,
    snd (on_kill env self s)
    = Log (AttemptingToKill jid) :: Create (conn_id self) rc :: rest
    /\ Forall (fun e => is_call e = true ->
                        exists r, e = CancelJob (workspace self)
                                        (feature_view self) jid r) rest
    /\ (rc = Ok tt ->
        exists r rest', rest = CancelJob (workspace self) (feature_view self)
                                 jid r :: rest').
Proof.
  intros Hj Hne. unfold on_kill, bind at 1, get_job_id. rewrite Hj. simpl.
  destruct (String.eqb_spec jid ""); [contradiction|]. simpl.
  unfold bind, log, hook_create, hook_cancel, call. simpl.
  destruct (create env (conn_id self) (world s)) as [[[]|x] w1]; simpl.
  - destruct (cancel_materialization_job env (workspace self)
                (feature_view self) jid w1) as [[[]|x] w2]; simpl;
      eexists; eexists; (split; [reflexivity|]); split;
      try (intros _; eexists; eexists; reflexivity);
      repeat (constructor; [intros H; try discriminate H; eexists;
                            reflexivity|]);
      constructor.
  - exists (Err x), []. split; [reflexivity|]. split; [constructor|].
    discriminate.
Qed.

(** X18.  An operator built by [__init__] holds no job id: killed before it
    has run, it makes no call. Killed after a run of [execute], it makes no
    call if the run created no job (or a job with an empty id); otherwise it
    creates a hook and, when that succeeds, sends its one cancel for the job
    that the run created. *)
Theorem kill_after_run {D W} (env : Env D W) cid ws fv on off st et ao g
    (w : W) fuel :
  let op := fst (init cid ws fv on off st et ao g) in
  let fresh := {| world := w;
                  job_id := snd (init cid ws fv on off st et ao g) |} in
  let run := execute env op fuel fresh in
  let after := snd (fst run) in
  on_kill env op fresh = (Done tt, fresh, [Log NoJobStarted])
  /\ match created (snd run) with
     | None => on_kill env op after = (Done tt, after, [Log NoJobStarted])
     | Some resp =>
         if String.eqb (id resp) "" then
           on_kill env op after = (Done tt, after, [Log NoJobStarted])
         else
           exists rc rest,
             snd (on_kill env op after)
             = Log (AttemptingToKill (id resp))
               :: Create (conn_id op) rc :: rest
             /\ Forall (fun e => is_call e = true ->
                                 exists r, e = CancelJob ws fv (id resp) r)
                  rest
             /\ (rc = Ok tt ->
                 exists r rest', rest = CancelJob ws fv (id resp) r :: rest')
     end.
Proof.
  intros op fresh run after. split; [reflexivity|].
  pose proof (execute_records env op fuel fresh) as Hid.
  fold run in Hid. fold after in Hid.
  destruct (created (snd run)) as [resp|].
  - destruct (String.eqb_spec (id resp) "") as [He|Hne].
    + apply on_kill_without_job. rewrite Hid, He. reflexivity.
    + exact (on_kill_with_job env op after (id resp) Hid Hne).
  - apply on_kill_without_job. now rewrite Hid.
Qed.

(** *** Overwriting a job that succeeded *)

(** X19.  When the lookup finds a job whose state ends in "success" and
    [allow_overwrite] is true, the run logs the job and the overwrite and then
    goes on exactly as the run of the same operator against a control plane
    that finds no job: no cancel call, no return at line 118, the submission
    step next; and a direct submit carries [allow_overwrite=True]. *)
Theorem overwrite_resubmits {D W} (env : Env D W) (self : Operator D W)
    f fuel s w1 w2 job :
  create env (conn_id self) (world s) = (Ok tt, w1) ->
  find_materialization_job env (find_query self) w1 = (Ok (Some job), w2) ->
  lower_success (state job) = true ->
  allow_overwrite self = true ->
  f (find_query self) w1 = (Ok None, w2) ->
  exists o s' t,
    execute env self fuel s
    = (o, s', Create (conn_id self) (Ok tt)
              :: FindJob (find_query self) (Ok (Some job))
              :: Log (ExistingJobFound job) :: Log OverwritingSuccess :: t)
    /\ execute (with_find env f) self fuel s
       = (o, s', Create (conn_id self) (Ok tt)
                 :: FindJob (find_query self) (Ok None) :: t)
    /\ Forall not_cancel t
    /\ o <> Done Skipped
    /\ (exists e t', t = e :: t' /\ is_submission e = true)
    /\ forall req r, In (SubmitJob req r) t -> sr_allow_overwrite req = true.
Proof.
  intros Hc Hf Hs Ho Hnone.
  pose proof (success_not_running_lower _ Hs) as Hr.
  rewrite (execute_after_lookup env self fuel s w1 w2 (Some job) Hc Hf).
  rewrite (execute_after_lookup (with_find env f) self fuel s w1 w2 None
             Hc Hnone).
  rewrite (after_lookup_overwrite env self fuel _ job Hr Hs Ho).
  rewrite after_lookup_none, submit_and_track_with_find.
  pose proof (submit_and_track_no_cancel env self fuel (at_world s w2)) as Hn.
  pose proof (submit_and_track_not_skipped env self fuel (at_world s w2))
    as Hk.
  pose proof (submit_and_track_alphabet env self fuel (at_world s w2)) as Ha.
  destruct (submit_and_track_first_event env self fuel (at_world s w2))
    as (e & t' & He & Hsub).
  destruct (submit_and_track env self fuel (at_world s w2)) as [[o s'] t].
  simpl in Hn, He, Ha. exists o, s', t.
  refine (conj eq_refl (conj eq_refl (conj Hn (conj _ (conj _ _))))).
  - intros Hsk. apply (Hk s' t). now rewrite Hsk.
  - now exists e, t'.
  - intros req r Hin. rewrite Forall_forall in Ha.
    pose proof (Ha _ Hin) as Hre. inversion Hre; subst. exact Ho.
Qed.

(** *** The hypotheses of the further properties, met on scripted runs *)

Lemma lookup_matches_submission_witness :
  let env := Stub.env_of Stub.fails in
  let op := Stub.operator false None in
  let tr := snd (execute env op 10 Stub.start) in
  In (FindJob (find_query op) (Ok None)) tr
  /\ In (SubmitJob (submit_request op) (Ok (Stub.job "j2" "RUNNING"))) tr
  /\ fq_job_type (find_query op) = "batch".
Proof.
  intros env op tr.
  assert (Hq : In (FindJob (find_query op) (Ok None)) tr)
    by (right; left; reflexivity).
  assert (He : In (SubmitJob (submit_request op)
                     (Ok (Stub.job "j2" "RUNNING"))) tr)
    by (right; right; left; reflexivity).
  split; [exact Hq | split; [exact He|]].
  exact (proj1 (lookup_matches_submission env op 10 Stub.start _ _ _ Hq He)).
Defined.

Lemma failed_call_ends_run_witness :
  let env := Stub.env_of Stub.cancel_fails in
  let op := Stub.operator false None in
  let run := execute env op 10 Stub.start in
  final_event (snd run)
  = Some (GetJob "my_workspace" "my_batch_feature_view" "j2"
            (Err (External "NotFound")))
  /\ fst (fst run) = Raised (External "NotFound").
Proof.
  intros env op run. split; [reflexivity|].
  refine (proj2 (failed_call_ends_run env op 10 Stub.start
                   (fst (fst run)) (snd (fst run)) (snd run)
                   (firstn 3 (snd run))
                   (GetJob "my_workspace" "my_batch_feature_view" "j2"
                      (Err (External "NotFound")))
                   [] (External "NotFound") _ _ _));
    reflexivity.
Defined.

Lemma on_kill_is_one_cancel_witness :
  let env := Stub.env_of Stub.cancel_fails in
  let op := Stub.operator false None in
  let kill := on_kill env op {| world := 0; job_id := Some "j2" |} in
  fst (fst kill) = Raised (External "TransportError")
  /\ count is_cancel (snd kill) <= 1.
Proof.
  intros env op kill. split; [reflexivity|].
  refine (proj1 (proj2 (proj2
            (on_kill_is_one_cancel env op {| world := 0; job_id := Some "j2" |}
               (fst (fst kill)) (snd (fst kill)) (snd kill) _))));
    reflexivity.
Defined.

Lemma cancel_only_a_running_job_witness :
  let env := Stub.env_of Stub.replace_running in
  let op := Stub.operator false None in
  let tr := snd (execute env op 10 Stub.start) in
  In (CancelJob "my_workspace" "my_batch_feature_view" "j1" (Ok tt)) tr
  /\ exists job,
       In (FindJob (find_query op) (Ok (Some job))) tr
       /\ lower_running (state job) = true
       /\ "j1" = id job
       /\ "my_workspace" = workspace op
       /\ "my_batch_feature_view" = feature_view op.
Proof.
  intros env op tr.
  assert (Hin : In (CancelJob "my_workspace" "my_batch_feature_view" "j1"
                      (Ok tt)) tr)
    by (do 4 right; left; reflexivity).
  split; [exact Hin|].
  refine (cancel_only_a_running_job env op 10 Stub.start
            (fst (fst (execute env op 10 Stub.start)))
            (snd (fst (execute env op 10 Stub.start))) tr _ _ _ _ _ Hin).
  reflexivity.
Defined.

Lemma skipped_only_when_successful_witness :
  let env := Stub.env_of Stub.already_done in
  let op := Stub.operator false None in
  let run := execute env op 3 Stub.start in
  fst (fst run) = Done Skipped
  /\ exists job,
       snd run = [Create (conn_id op) (Ok tt);
                  FindJob (find_query op) (Ok (Some job));
                  Log (ExistingJobFound job); Log ExistingSuccessExiting]
       /\ lower_success (state job) = true
       /\ allow_overwrite op = false
       /\ job_id (snd (fst run)) = job_id Stub.start.
Proof.
  intros env op run. split; [reflexivity|].
  refine (skipped_only_when_successful env op 3 Stub.start
            (snd (fst run)) (snd run) _).
  reflexivity.
Defined.

Lemma completed_only_after_success_witness :
  let env := Stub.env_of Stub.replace_running in
  let op := Stub.operator false None in
  let run := execute env op 10 Stub.start in
  fst (fst run) = Done Completed
  /\ exists resp before j,
       created (snd run) = Some resp
       /\ snd run
          = (before ++ [GetJob (workspace op) (feature_view op) (id resp)
                          (Ok j)])%list
       /\ upper_success (state j) = true
       /\ job_id (snd (fst run)) = Some (id resp).
Proof.
  intros env op run. split; [reflexivity|].
  refine (completed_only_after_success env op 10 Stub.start
            (snd (fst run)) (snd run) _).
  reflexivity.
Defined.

Lemma one_job_per_run_witness :
  let env := Stub.env_of Stub.fails in
  let op := Stub.operator false None in
  let run := execute env op 10 Stub.start in
  snd run
  = (firstn 2 (snd run)
     ++ SubmitJob (submit_request op) (Ok (Stub.job "j2" "RUNNING"))
        :: skipn 3 (snd run))%list
  /\ job_id (snd (fst run)) = Some "j2".
Proof.
  intros env op run. split; [reflexivity|].
  refine (proj2 (proj2
            (one_job_per_run env op 10 Stub.start
               (fst (fst run)) (snd (fst run)) (snd run)
               (firstn 2 (snd run))
               (SubmitJob (submit_request op) (Ok (Stub.job "j2" "RUNNING")))
               (skipn 3 (snd run)) (Stub.job "j2" "RUNNING") _ _ _)));
    reflexivity.
Defined.

Lemma polling_has_no_time_limit_witness :
  let env := Scenario.steady None (Stub.job "j2" "RUNNING") in
  let op := Stub.operator false None in
  let run := execute env op 5 Stub.start in
  created (snd run) = Some (Stub.job "j2" "RUNNING")
  /\ fst (fst run) = OutOfFuel
  /\ 5 <= count is_sleep (snd run).
Proof.
  intros env op run. split; [reflexivity|].
  refine (polling_has_no_time_limit env op 5 Stub.start
            (fst (fst run)) (snd (fst run)) (snd run)
            (Stub.job "j2" "RUNNING") _ _ _).
  - reflexivity.
  - reflexivity.
  - intros w. exists (Stub.job "j2" "RUNNING"), (S w).
    split; [reflexivity | split; reflexivity].
Defined.

Lemma cancel_wait_has_no_time_limit_witness :
  let env := Scenario.steady (Some (Stub.job "j1" "RUNNING"))
                             (Stub.job "j1" "SUCCESS") in
  let op := Stub.operator false None in
  let run := execute env op 5 Stub.start in
  lower_running "RUNNING" = true
  /\ lower_cancelled "SUCCESS" = false
  /\ fst (fst run) = OutOfFuel
  /\ Forall not_submission (snd run)
  /\ count is_cancel (snd run) = 1
  /\ count is_sleep (snd run) = 5.
Proof.
  intros env op run. split; [reflexivity | split; [reflexivity|]].
  refine (cancel_wait_has_no_time_limit env op 5 Stub.start 0 0 0
            (Stub.job "j1" "RUNNING")
            (fst (fst run)) (snd (fst run)) (snd run) _ _ _ _ _ _);
    try reflexivity.
  intros w. exists (Stub.job "j1" "SUCCESS"), (S w).
  split; reflexivity.
Defined.

Lemma overwrite_resubmits_witness :
  let env := Stub.env_of Stub.already_done in
  let op := Stub.operator true None in
  let no_job := fun (_ : FindQuery) (w : nat) =>
                  (@Ok (option Job) None, w) in
  lower_success "SUCCESS" = true
  /\ allow_overwrite op = true
  /\ exists o s' t,
       execute env op 10 Stub.start
       = (o, s', Create (conn_id op) (Ok tt)
                 :: FindJob (find_query op)
                      (Ok (Some (Stub.job "j1" "SUCCESS")))
                 :: Log (ExistingJobFound (Stub.job "j1" "SUCCESS"))
                 :: Log OverwritingSuccess :: t)
       /\ execute (with_find env no_job) op 10 Stub.start
          = (o, s', Create (conn_id op) (Ok tt)
                    :: FindJob (find_query op) (Ok None) :: t)
       /\ Forall not_cancel t
       /\ o <> Done Skipped
       /\ (exists e t', t = e :: t' /\ is_submission e = true)
       /\ forall req r, In (SubmitJob req r) t -> sr_allow_overwrite req = true.
Proof.
  intros env op no_job. split; [reflexivity | split; [reflexivity|]].
  refine (overwrite_resubmits env op no_job 10 Stub.start 0 0
            (Stub.job "j1" "SUCCESS") _ _ _ _ _);
    reflexivity.
Defined.

Lemma one_hook_one_lookup_witness :
  let env := Stub.env_of Stub.fails in
  let op := Stub.operator false None in
  let run := execute env op 10 Stub.start in
  exists rc rest,
    snd run = Create (conn_id op) rc :: rest
    /\ Forall (fun e => is_create e = false) rest
    /\ (rest = []
        \/ exists rf rest',
             rest = FindJob (find_query op) rf :: rest'
             /\ Forall (fun e => is_lookup e = false) rest').
Proof.
  intros env op run.
  refine (one_hook_one_lookup env op 10 Stub.start
            (fst (fst run)) (snd (fst run)) (snd run) _).
  reflexivity.
Defined.

Lemma own_exceptions_have_one_cause_witness :
  let env := Stub.env_of Stub.no_attempt_yet in
  let op := Stub.operator false None in
  let run := execute env op 10 Stub.start in
  fst (fst run) = Raised IndexError
  /\ Forall answered (snd run)
  /\ exists jid before j,
       job_id (snd (fst run)) = Some jid
       /\ snd run
          = (before ++ [GetJob (workspace op) (feature_view op) jid (Ok j)])%list
       /\ ((IndexError = IndexError /\ upper_running (state j) = true
            /\ attempts j = Some [])
           \/ (IndexError = Exception (final_message env j)
               /\ upper_running (state j) = false
               /\ upper_success (state j) = false)).
Proof.
  intros env op run.
  assert (Hall : Forall answered (snd run))
    by (repeat (constructor; [reflexivity|]); constructor).
  split; [reflexivity | split; [exact Hall|]].
  refine (own_exceptions_have_one_cause env op 10 Stub.start IndexError
            (snd (fst run)) (snd run) _ Hall).
  reflexivity.
Defined.

Lemma cut_off_only_while_waiting_witness :
  let env := Scenario.steady None (Stub.job "j2" "RUNNING") in
  let op := Stub.operator false None in
  let run := execute env op 4 Stub.start in
  fst (fst run) = OutOfFuel /\ 4 <= count is_sleep (snd run).
Proof.
  intros env op run. split; [reflexivity|].
  refine (cut_off_only_while_waiting env op 4 Stub.start
            (fst (fst run)) (snd (fst run)) (snd run) _ _);
    reflexivity.
Defined.
